(** * Business-Analytics-Portfolio: the scenario-derivation engines

    A shallow embedding of the two metric derivers and scenario generators of
    the repository,

    - [financial_model.py]  (college mess profit and loss), module [Mess];
    - [p-2/resource_utilization_model.py]  (campus facilities), module
      [Facility];

    over a model of the Python numbers they compute with, module [Py]:
    [int] is [Z], [float] is Rocq's primitive binary64 [float] (the same IEEE
    754 format and round-to-nearest-even arithmetic as CPython's), and the
    exceptions that the arithmetic of the two files can raise are the errors
    of a small result monad. *)

From Stdlib Require Import ZArith List String Ascii Bool Lia Floats DecimalString.
Import ListNotations.

Set Warnings "-inexact-float".
Local Open Scope Z_scope.

(* ===================================================================== *)
(** * Python numbers *)
(* ===================================================================== *)

Module Py.

(** The exceptions reachable from the modelled code. *)
Inductive exn : Set :=
| ZeroDivisionError
| OverflowError
| ValueError
| IndexError.

Inductive result (A : Type) : Type :=
| Ok (a : A)
| Raise (e : exn).
Arguments Ok {A} a.
Arguments Raise {A} e.

Definition bind {A B} (c : result A) (k : A -> result B) : result B :=
  match c with
  | Ok a => k a
  | Raise e => Raise e
  end.

Definition is_ok {A} (c : result A) : bool :=
  match c with Ok _ => true | Raise _ => false end.

(** A Python number whose dynamic type matters: [x if c else 0] is a float
    on one branch and the int [0] on the other. *)
Inductive num : Set :=
| Int (z : Z)
| Float (x : float).

(** ** Conversions *)

(** [float(z)] for an int [z]: correctly rounded (ties to even),
    [OverflowError] when the rounded magnitude exceeds the largest double. *)
Definition float_of_int (z : Z) : result float :=
  match binary_normalize prec emax z 0 false with
  | S754_infinity _ => Raise OverflowError
  | s => Ok (SF2Prim s)
  end.

(** [int(x)] for a float [x]: truncation toward zero; [ValueError] on NaN
    and [OverflowError] on an infinity. *)
Definition int_of_float (x : float) : result Z :=
  match Prim2SF x with
  | S754_nan => Raise ValueError
  | S754_infinity _ => Raise OverflowError
  | S754_zero _ => Ok 0
  | S754_finite s m e => Ok (cond_Zopp s (Z.shiftl (Zpos m) e))
  end.

(** The integer [z] as an exact (unrounded) binary number. *)
Definition Z2SF (z : Z) : spec_float :=
  match z with
  | Z0 => S754_zero false
  | Zpos p => S754_finite false p 0
  | Zneg p => S754_finite true p 0
  end.

(** ** Arithmetic *)

(** [x / y] on floats raises on a zero divisor (of either sign). *)
Definition float_truediv (x y : float) : result float :=
  if (y =? 0)%float then Raise ZeroDivisionError else Ok (x / y)%float.

(** [a / b] on ints: the correctly rounded quotient of the two integers. *)
Definition int_truediv (a b : Z) : result float :=
  if b =? 0 then Raise ZeroDivisionError
  else match SF64div (Z2SF a) (Z2SF b) with
       | S754_infinity _ => Raise OverflowError
       | s => Ok (SF2Prim s)
       end.

(** Mixed int/float arithmetic converts the int operand first. *)
Definition int_mul_float (z : Z) (x : float) : result float :=
  bind (float_of_int z) (fun y => Ok (y * x)%float).

Definition float_mul_int (x : float) (z : Z) : result float :=
  bind (float_of_int z) (fun y => Ok (x * y)%float).

Definition float_add_int (x : float) (z : Z) : result float :=
  bind (float_of_int z) (fun y => Ok (x + y)%float).

Definition float_sub_int (x : float) (z : Z) : result float :=
  bind (float_of_int z) (fun y => Ok (x - y)%float).

Definition int_sub_float (z : Z) (x : float) : result float :=
  bind (float_of_int z) (fun y => Ok (y - x)%float).

Definition float_div_int (x : float) (z : Z) : result float :=
  bind (float_of_int z) (fun y => float_truediv x y).

(** [a + b], [a * z] and [a / z] when the left operand is a [num]. *)
Definition num_add_float (a : num) (x : float) : result num :=
  match a with
  | Int z => bind (float_of_int z) (fun y => Ok (Float (y + x)%float))
  | Float y => Ok (Float (y + x)%float)
  end.

Definition num_div_int (a : num) (z : Z) : result num :=
  match a with
  | Int y => bind (int_truediv y z) (fun q => Ok (Float q))
  | Float y => bind (float_div_int y z) (fun q => Ok (Float q))
  end.

(** ** Truth values and comparisons *)

Definition float_truthy (x : float) : bool := negb (x =? 0)%float.
Definition int_truthy (z : Z) : bool := negb (z =? 0).

(** Python compares an int with a float by their exact values. *)
Definition compare_int_float (u : Z) (t : float) : option comparison :=
  match Prim2SF t with
  | S754_nan => None
  | S754_infinity s => Some (if s then Gt else Lt)
  | S754_zero _ => Some (u ?= 0)
  | S754_finite s m e =>
      Some (u * 2 ^ Z.max 0 (- e) ?= cond_Zopp s (Zpos m) * 2 ^ Z.max 0 e)
  end.

Definition int_lt_float (u : Z) (t : float) : bool :=
  match compare_int_float u t with Some Lt => true | _ => false end.
Definition int_gt_float (u : Z) (t : float) : bool :=
  match compare_int_float u t with Some Gt => true | _ => false end.
Definition int_ge_float (u : Z) (t : float) : bool :=
  match compare_int_float u t with Some (Gt | Eq) => true | _ => false end.
Definition int_le_float (u : Z) (t : float) : bool :=
  match compare_int_float u t with Some (Lt | Eq) => true | _ => false end.
Definition int_eq_float (u : Z) (t : float) : bool :=
  match compare_int_float u t with Some Eq => true | _ => false end.
Definition float_gt_int (t : float) (u : Z) : bool := int_lt_float u t.
Definition float_lt_int (t : float) (u : Z) : bool := int_gt_float u t.
Definition float_ge_int (t : float) (u : Z) : bool := int_le_float u t.

(** ** [round(x, 2)] *)

(** The integer nearest to [n / d], ties to the even one ([0 < d]). *)
Definition round_half_even (n d : Z) : Z :=
  let q := n / d in
  match 2 * (n mod d) ?= d with
  | Lt => q
  | Gt => q + 1
  | Eq => if Z.even q then q else q + 1
  end.

(** [round(x, 2)] on a float: the exact binary value is rounded to two
    decimals (ties to even) and the decimal is converted back to the nearest
    double; NaN, infinities and zeros are returned as they are. *)
Definition float_round2 (x : float) : float :=
  match Prim2SF x with
  | S754_finite s m e =>
      let hundredths :=
        round_half_even (Zpos m * 100 * 2 ^ Z.max 0 e) (2 ^ Z.max 0 (- e)) in
      match hundredths with
      | Zpos p => SF2Prim (SF64div (S754_finite s p 0) (Z2SF 100))
      | _ => if s then neg_zero else zero
      end
  | _ => x
  end.

(** [round(v, 2)]: an int is returned unchanged. *)
Definition round2 (v : num) : num :=
  match v with
  | Int z => Int z
  | Float x => Float (float_round2 x)
  end.

(** A [for] loop (or comprehension) that appends one element per iteration
    and stops at the first exception. *)
Fixpoint for_each {A B} (body : A -> result B) (l : list A) : result (list B) :=
  match l with
  | [] => Ok []
  | a :: l' =>
      bind (body a) (fun b =>
      bind (for_each body l') (fun bs =>
      Ok (b :: bs)))
  end.

(** [str(z)] for an int. *)
Definition str_of_int (z : Z) : string := NilEmpty.string_of_int (Z.to_int z).

End Py.

Export Py.

Declare Scope py_scope.
Delimit Scope py_scope with py.
Notation "x <- c ;; k" := (bind c (fun x => k))
  (at level 61, c at next level, right associativity) : py_scope.
Local Open Scope py_scope.


(* ===================================================================== *)
(** * financial_model.py: the college mess *)
(* ===================================================================== *)

Module Mess.

(** The dataclass [MessAssumptions]; [total_students] and [days_in_month]
    are ints, every other field is a float. *)
Record MessAssumptions : Set := {
  total_students : Z;
  monthly_fee_per_student : float;
  days_in_month : Z;
  daily_food_cost_per_student : float;
  food_wastage_pct : float;
  lpg_fuel_monthly : float;
  water_monthly : float;
  packaging_disposables_monthly : float;
  staff_salaries : float;
  electricity : float;
  maintenance : float;
  rent : float;
  insurance_misc : float
}.

(** The field defaults of the dataclass: [MessAssumptions()]. *)
Definition default_days_in_month : Z := 30.

Definition defaults : MessAssumptions := {|
  total_students := 650;
  monthly_fee_per_student := 4500;
  days_in_month := default_days_in_month;
  daily_food_cost_per_student := 90;
  food_wastage_pct := 12;
  lpg_fuel_monthly := 55000;
  water_monthly := 18000;
  packaging_disposables_monthly := 12000;
  staff_salaries := 220000;
  electricity := 45000;
  maintenance := 20000;
  rent := 60000;
  insurance_misc := 15000
|}.

(** ** Derived helpers (the properties of the dataclass) *)

Definition monthly_raw_food_cost (self : MessAssumptions) : result float :=
  x <- int_mul_float (total_students self) (daily_food_cost_per_student self) ;;
  float_mul_int x (days_in_month self).

Definition monthly_wastage_cost (self : MessAssumptions) : result float :=
  raw <- monthly_raw_food_cost self ;;
  rate <- float_div_int (food_wastage_pct self) 100 ;;
  Ok (raw * rate)%float.

Definition total_variable_costs (self : MessAssumptions) : result float :=
  raw <- monthly_raw_food_cost self ;;
  wastage <- monthly_wastage_cost self ;;
  Ok (raw + wastage + lpg_fuel_monthly self + water_monthly self
      + packaging_disposables_monthly self)%float.

Definition total_fixed_costs (self : MessAssumptions) : result float :=
  Ok (staff_salaries self + electricity self + maintenance self + rent self
      + insurance_misc self)%float.

Definition total_revenue (self : MessAssumptions) : result float :=
  int_mul_float (total_students self) (monthly_fee_per_student self).

Definition total_cost (self : MessAssumptions) : result float :=
  v <- total_variable_costs self ;;
  f <- total_fixed_costs self ;;
  Ok (v + f)%float.

Definition profit (self : MessAssumptions) : result float :=
  r <- total_revenue self ;;
  c <- total_cost self ;;
  Ok (r - c)%float.

(** [(profit / total_revenue) * 100 if total_revenue else 0]: the condition
    is evaluated first, then the division. *)
Definition profit_margin (self : MessAssumptions) : result num :=
  r <- total_revenue self ;;
  if float_truthy r then
    p <- profit self ;;
    r' <- total_revenue self ;;
    q <- float_truediv p r' ;;
    pct <- float_mul_int q 100 ;;
    Ok (Float pct)
  else Ok (Int 0).

(** ** Optimisation simulations *)

(** One scenario dict of [run_optimizations], key by key. *)
Record Scenario : Set := {
  Scenario_name : string;
  Revenue : float;
  Variable_Costs : float;
  Fixed_Costs : float;
  Total_Cost : float;
  Profit : float;
  Profit_Margin_pct : num
}.

(** The local function [_snap]: the dict values are evaluated in key order. *)
Definition _snap (name : string) (m : MessAssumptions) : result Scenario :=
  r <- total_revenue m ;;
  v <- total_variable_costs m ;;
  f <- total_fixed_costs m ;;
  c <- total_cost m ;;
  p <- profit m ;;
  pm <- profit_margin m ;;
  Ok {| Scenario_name := name; Revenue := r; Variable_Costs := v;
        Fixed_Costs := f; Total_Cost := c; Profit := p;
        Profit_Margin_pct := round2 pm |}.

(** The variant objects.  Each constructor call of the source passes twelve
    keyword arguments; [days_in_month] is not among them, so the new object
    gets the dataclass default. *)

(** Body of [for reduction in [5, 10, 15]]. *)
Definition wastage_variant (base : MessAssumptions) (reduction : Z)
  : result MessAssumptions :=
  w <- float_sub_int (food_wastage_pct base) reduction ;;
  Ok {| total_students := total_students base;
        monthly_fee_per_student := monthly_fee_per_student base;
        days_in_month := default_days_in_month;
        daily_food_cost_per_student := daily_food_cost_per_student base;
        food_wastage_pct := w;
        lpg_fuel_monthly := lpg_fuel_monthly base;
        water_monthly := water_monthly base;
        packaging_disposables_monthly := packaging_disposables_monthly base;
        staff_salaries := staff_salaries base;
        electricity := electricity base;
        maintenance := maintenance base;
        rent := rent base;
        insurance_misc := insurance_misc base |}.

(** [factor = 1 - eff / 100]. *)
Definition efficiency_factor (eff : Z) : result float :=
  q <- int_truediv eff 100 ;;
  int_sub_float 1 q.

(** Body of [for eff in [2, 5, 8]]. *)
Definition efficiency_variant (base : MessAssumptions) (eff : Z)
  : result MessAssumptions :=
  factor <- efficiency_factor eff ;;
  Ok {| total_students := total_students base;
        monthly_fee_per_student := monthly_fee_per_student base;
        days_in_month := default_days_in_month;
        daily_food_cost_per_student := daily_food_cost_per_student base;
        food_wastage_pct := food_wastage_pct base;
        lpg_fuel_monthly := (lpg_fuel_monthly base * factor)%float;
        water_monthly := (water_monthly base * factor)%float;
        packaging_disposables_monthly := packaging_disposables_monthly base;
        staff_salaries := staff_salaries base;
        electricity := (electricity base * factor)%float;
        maintenance := (maintenance base * factor)%float;
        rent := rent base;
        insurance_misc := insurance_misc base |}.

(** Body of [for bump in [100, 200, 300]]. *)
Definition pricing_variant (base : MessAssumptions) (bump : Z)
  : result MessAssumptions :=
  fee <- float_add_int (monthly_fee_per_student base) bump ;;
  Ok {| total_students := total_students base;
        monthly_fee_per_student := fee;
        days_in_month := default_days_in_month;
        daily_food_cost_per_student := daily_food_cost_per_student base;
        food_wastage_pct := food_wastage_pct base;
        lpg_fuel_monthly := lpg_fuel_monthly base;
        water_monthly := water_monthly base;
        packaging_disposables_monthly := packaging_disposables_monthly base;
        staff_salaries := staff_salaries base;
        electricity := electricity base;
        maintenance := maintenance base;
        rent := rent base;
        insurance_misc := insurance_misc base |}.

(** The combined scenario. *)
Definition combined_variant (base : MessAssumptions) : result MessAssumptions :=
  fee <- float_add_int (monthly_fee_per_student base) 200 ;;
  w <- float_sub_int (food_wastage_pct base) 10 ;;
  Ok {| total_students := total_students base;
        monthly_fee_per_student := fee;
        days_in_month := default_days_in_month;
        daily_food_cost_per_student := daily_food_cost_per_student base;
        food_wastage_pct := w;
        lpg_fuel_monthly := (lpg_fuel_monthly base * 0.95)%float;
        water_monthly := (water_monthly base * 0.95)%float;
        packaging_disposables_monthly := packaging_disposables_monthly base;
        staff_salaries := staff_salaries base;
        electricity := (electricity base * 0.95)%float;
        maintenance := (maintenance base * 0.95)%float;
        rent := rent base;
        insurance_misc := insurance_misc base |}.

Definition wastage_name (reduction : Z) : string :=
  "Wastage Reduced by " ++ str_of_int reduction ++ "pp".
Definition efficiency_name (eff : Z) : string :=
  "Operational Efficiency +" ++ str_of_int eff ++ "%".
Definition pricing_name (bump : Z) : string :=
  "Fee Increase ₹" ++ str_of_int bump ++ "/mo".

Definition run_optimizations (base : MessAssumptions) : result (list Scenario) :=
  s0 <- _snap "Base Case (Current)" base ;;
  ws <- for_each (fun reduction =>
          m <- wastage_variant base reduction ;;
          _snap (wastage_name reduction) m) [5; 10; 15] ;;
  es <- for_each (fun eff =>
          m <- efficiency_variant base eff ;;
          _snap (efficiency_name eff) m) [2; 5; 8] ;;
  ps <- for_each (fun bump =>
          m <- pricing_variant base bump ;;
          _snap (pricing_name bump) m) [100; 200; 300] ;;
  m <- combined_variant base ;;
  c <- _snap "Combined Optimized Scenario" m ;;
  Ok (s0 :: ws ++ es ++ ps ++ [c]).

(** The ten variant objects in the order the generator builds them. *)
Definition variants (base : MessAssumptions) : list (result MessAssumptions) :=
  map (wastage_variant base) [5; 10; 15]
  ++ map (efficiency_variant base) [2; 5; 8]
  ++ map (pricing_variant base) [100; 200; 300]
  ++ [combined_variant base].

End Mess.


(* ===================================================================== *)
(** * p-2/resource_utilization_model.py: the campus facilities *)
(* ===================================================================== *)

Module Facility.

(** [HOURS = [f"{h}:00" for h in range(6, 24)]]: eighteen labels. *)
Definition HOURS : list string :=
  map (fun h => str_of_int (Z.of_nat h) ++ ":00")%string (seq 6 18).

(** The dataclass [Facility]. *)
Record Facility : Set := {
  name : string;
  max_capacity : Z;
  hourly_usage : list Z;
  operating_cost_per_hour : float
}.

(** ** Helpers on lists of ints *)

(** [sum(l)] on ints. *)
Definition sum (l : list Z) : Z := fold_left Z.add l 0.

(** [max(l)] on a non-empty list ([0] stands for the empty case, which the
    callers guard). *)
Definition list_max (l : list Z) : Z :=
  match l with
  | [] => 0
  | u :: l' => fold_left Z.max l' u
  end.

(** [l.index(v)]: the first position holding [v]; [length l] when absent. *)
Fixpoint index (v : Z) (l : list Z) : nat :=
  match l with
  | [] => O
  | u :: l' => if u =? v then O else S (index v l')
  end.

(** [sum(1 for u in l if p(u))]. *)
Definition count (p : Z -> bool) (l : list Z) : Z :=
  Z.of_nat (List.length (filter p l)).

(** [l[i] = v] for an index in range. *)
Fixpoint set_item (l : list Z) (i : nat) (v : Z) : list Z :=
  match l, i with
  | [], _ => []
  | _ :: l', O => v :: l'
  | u :: l', S i' => u :: set_item l' i' v
  end.

(** ** Derived properties *)

Definition total_operating_hours (self : Facility) : Z :=
  Z.of_nat (List.length (hourly_usage self)).

Definition total_person_hours (self : Facility) : Z :=
  sum (hourly_usage self).

Definition max_possible_person_hours (self : Facility) : Z :=
  max_capacity self * total_operating_hours self.

Definition avg_utilization_pct (self : Facility) : result float :=
  if max_possible_person_hours self =? 0 then Ok 0%float
  else
    q <- int_truediv (total_person_hours self) (max_possible_person_hours self) ;;
    float_mul_int q 100.

Definition peak_usage (self : Facility) : Z :=
  match hourly_usage self with
  | [] => 0
  | _ => list_max (hourly_usage self)
  end.

Definition peak_utilization_pct (self : Facility) : result num :=
  if int_truthy (max_capacity self) then
    q <- int_truediv (peak_usage self) (max_capacity self) ;;
    r <- float_mul_int q 100 ;;
    Ok (Float r)
  else Ok (Int 0).

Definition peak_hour (self : Facility) : result string :=
  match hourly_usage self with
  | [] => Ok "N/A"%string
  | _ =>
      let idx := index (list_max (hourly_usage self)) (hourly_usage self) in
      match nth_error HOURS idx with
      | Some label => Ok label
      | None => Raise IndexError
      end
  end.

(** Hours where usage is below 20% of capacity. *)
Definition idle_hours (self : Facility) : result Z :=
  threshold <- int_mul_float (max_capacity self) 0.20 ;;
  Ok (count (fun u => int_lt_float u threshold) (hourly_usage self)).

(** Hours where usage exceeds 85% of capacity. *)
Definition overcrowded_hours (self : Facility) : result Z :=
  threshold <- int_mul_float (max_capacity self) 0.85 ;;
  Ok (count (fun u => int_gt_float u threshold) (hourly_usage self)).

Definition idle_capacity_pct (self : Facility) : result num :=
  if int_truthy (max_possible_person_hours self) then
    q <- int_truediv
           (max_possible_person_hours self - total_person_hours self)
           (max_possible_person_hours self) ;;
    r <- float_mul_int q 100 ;;
    Ok (Float r)
  else Ok (Int 0).

Definition daily_operating_cost (self : Facility) : result float :=
  float_mul_int (operating_cost_per_hour self) (total_operating_hours self).

Definition cost_per_person_hour (self : Facility) : result num :=
  if int_truthy (total_person_hours self) then
    c <- daily_operating_cost self ;;
    q <- float_div_int c (total_person_hours self) ;;
    Ok (Float q)
  else Ok (Int 0).

Definition build_dataset : list Facility := [
  {| name := "Gymnasium"; max_capacity := 60;
     hourly_usage := [8; 25; 35; 15; 10; 12; 18; 22; 30; 45; 50; 38; 28; 15; 10; 8; 20; 35];
     operating_cost_per_hour := 450 |};
  {| name := "Central Library"; max_capacity := 200;
     hourly_usage := [15; 30; 60; 90; 120; 140; 150; 165; 170; 180; 175; 160; 130; 100; 80; 60; 45; 25];
     operating_cost_per_hour := 800 |};
  {| name := "Computer Lab A"; max_capacity := 80;
     hourly_usage := [5; 10; 55; 70; 75; 72; 68; 65; 60; 55; 50; 45; 35; 25; 15; 10; 8; 5];
     operating_cost_per_hour := 600 |};
  {| name := "Computer Lab B"; max_capacity := 80;
     hourly_usage := [0; 5; 40; 60; 65; 70; 72; 68; 55; 40; 30; 25; 20; 15; 10; 5; 3; 0];
     operating_cost_per_hour := 600 |};
  {| name := "Study Room Block"; max_capacity := 120;
     hourly_usage := [10; 15; 25; 40; 50; 55; 60; 65; 70; 80; 90; 100; 105; 95; 85; 70; 55; 40];
     operating_cost_per_hour := 350 |};
  {| name := "Auditorium"; max_capacity := 500;
     hourly_usage := [0; 0; 50; 100; 350; 200; 80; 50; 30; 20; 15; 10; 50; 100; 300; 150; 50; 0];
     operating_cost_per_hour := 1200 |};
  {| name := "Sports Complex"; max_capacity := 150;
     hourly_usage := [20; 40; 15; 10; 8; 12; 15; 20; 25; 35; 50; 65; 80; 100; 120; 130; 110; 70];
     operating_cost_per_hour := 500 |}
].

(** ** Optimisation simulations *)

(** First loop of [_redistribute_usage]: every slot above [cap] is set to
    [cap] and its surplus is added to [excess]. *)
Fixpoint clamp_peaks (cap : Z) (usage : list Z) (excess : Z) : list Z * Z :=
  match usage with
  | [] => ([], excess)
  | u :: rest =>
      if u >? cap then
        let '(rest', excess') := clamp_peaks cap rest (excess + (u - cap)) in
        (cap :: rest', excess')
      else
        let '(rest', excess') := clamp_peaks cap rest excess in
        (u :: rest', excess')
  end.

(** [sorted(range(len(l)), key=lambda i: l[i])]: a stable sort of the
    indices by the value they hold. *)
Fixpoint insert_by_key (l : list Z) (i : nat) (sorted : list nat) : list nat :=
  match sorted with
  | [] => [i]
  | j :: sorted' =>
      if nth i l 0 <? nth j l 0 then i :: j :: sorted'
      else j :: insert_by_key l i sorted'
  end.

Definition sorted_indices (l : list Z) : list nat :=
  fold_left (fun acc i => insert_by_key l i acc) (seq 0 (List.length l)) [].

(** Second loop of [_redistribute_usage]: the excess is poured into the
    slots in the given order, each up to [cap]; the loop stops as soon as
    nothing is left.  Returns the usage and the excess that found no room. *)
Fixpoint spread_excess (cap : Z) (indices : list nat) (usage : list Z)
    (excess : Z) : list Z * Z :=
  match indices with
  | [] => (usage, excess)
  | idx :: rest =>
      if excess <=? 0 then (usage, excess)
      else
        let room := cap - nth idx usage 0 in
        let add := Z.min excess room in
        spread_excess cap rest (set_item usage idx (nth idx usage 0 + add))
          (excess - add)
  end.

(** [_redistribute_usage] once [cap] is known; the second component is the
    excess that is dropped. *)
Definition redistribute_with_cap (cap : Z) (usage : list Z) : list Z * Z :=
  let '(new_usage, excess) := clamp_peaks cap usage 0 in
  spread_excess cap (sorted_indices new_usage) new_usage excess.

(** [cap = int(facility.max_capacity * target_pct)]. *)
Definition redistribution_cap (facility : Facility) (target_pct : float)
  : result Z :=
  p <- int_mul_float (max_capacity facility) target_pct ;;
  int_of_float p.

Definition _redistribute_usage (facility : Facility) (target_pct : float)
  : result (list Z) :=
  cap <- redistribution_cap facility target_pct ;;
  Ok (fst (redistribute_with_cap cap (hourly_usage facility))).

(** One scenario dict of [run_optimizations], key by key. *)
Record Scenario : Set := {
  Scenario_name : string;
  Avg_Utilization_pct : num;
  Total_Person_Hours : Z;
  Idle_Hours_total : Z;
  Overcrowded_Hours : Z;
  Daily_Op_Cost : num;
  Cost_per_Person_Hr : num
}.

(** [sum(g(f) for f in fs)] for an int-valued property that may raise. *)
Fixpoint sum_over (g : Facility -> result Z) (fs : list Facility) (acc : Z)
  : result Z :=
  match fs with
  | [] => Ok acc
  | f :: fs' => v <- g f ;; sum_over g fs' (acc + v)
  end.

(** [sum(f.daily_operating_cost for f in fs)]: starts from the int [0]. *)
Fixpoint sum_costs (fs : list Facility) (acc : num) : result num :=
  match fs with
  | [] => Ok acc
  | f :: fs' =>
      c <- daily_operating_cost f ;;
      acc' <- num_add_float acc c ;;
      sum_costs fs' acc'
  end.

(** The aggregation block that follows every variant list of
    [run_optimizations] (for the base case the names are [total_ph],
    [total_max], ..., and the same expressions are evaluated in the same
    order).  [name] is the expression under the key ["Scenario"]. *)
Definition aggregate (name : result string) (fs : list Facility)
  : result Scenario :=
  let t_ph := sum (map total_person_hours fs) in
  let t_max := sum (map max_possible_person_hours fs) in
  t_cost <- sum_costs fs (Int 0) ;;
  t_idle <- sum_over idle_hours fs 0 ;;
  t_crowd <- sum_over overcrowded_hours fs 0 ;;
  util <- (if int_truthy t_max then
             q <- int_truediv t_ph t_max ;;
             r <- float_mul_int q 100 ;;
             Ok (Float r)
           else Ok (Int 0)) ;;
  n <- name ;;
  cost_per_ph <- (if int_truthy t_ph then num_div_int t_cost t_ph
                  else Ok (Int 0)) ;;
  Ok {| Scenario_name := n;
        Avg_Utilization_pct := round2 util;
        Total_Person_Hours := t_ph;
        Idle_Hours_total := t_idle;
        Overcrowded_Hours := t_crowd;
        Daily_Op_Cost := t_cost;
        Cost_per_Person_Hr := round2 cost_per_ph |}.

(** Loop bodies of the variant lists. *)

Definition redistributed (cap_pct : float) (f : Facility) : result Facility :=
  new_usage <- _redistribute_usage f cap_pct ;;
  Ok {| name := name f; max_capacity := max_capacity f;
        hourly_usage := new_usage;
        operating_cost_per_hour := operating_cost_per_hour f |}.

Definition redistribute_name (cap_pct : float) : result string :=
  p <- float_mul_int cap_pct 100 ;;
  n <- int_of_float p ;;
  Ok ("Redistribute (cap " ++ str_of_int n ++ "%)")%string.

(** [int(f.peak_usage * 0.3)]. *)
Definition extra_hour_usage (f : Facility) : result Z :=
  p <- int_mul_float (peak_usage f) 0.3 ;;
  int_of_float p.

Definition extended_facility (f : Facility) : result Facility :=
  a <- avg_utilization_pct f ;;
  if float_gt_int a 50 then
    e <- extra_hour_usage f ;;
    Ok {| name := name f; max_capacity := max_capacity f;
          hourly_usage := hourly_usage f ++ [e; e];
          operating_cost_per_hour := operating_cost_per_hour f |}
  else
    Ok {| name := name f; max_capacity := max_capacity f;
          hourly_usage := hourly_usage f;
          operating_cost_per_hour := operating_cost_per_hour f |}.

Definition trimmed_facility (f : Facility) : result Facility :=
  threshold <- int_mul_float (max_capacity f) 0.15 ;;
  let kept := filter (fun u => int_ge_float u threshold) (hourly_usage f) in
  let new_usage := match kept with [] => hourly_usage f | _ => kept end in
  Ok {| name := name f; max_capacity := max_capacity f;
        hourly_usage := new_usage;
        operating_cost_per_hour := operating_cost_per_hour f |}.

(** [int(f.peak_usage * 1.2)]. *)
Definition right_size (f : Facility) : result Z :=
  p <- int_mul_float (peak_usage f) 1.2 ;;
  int_of_float p.

Definition resized_facility (f : Facility) : result Facility :=
  a <- avg_utilization_pct f ;;
  new_cap <- (if float_lt_int a 40 then right_size f
              else Ok (max_capacity f)) ;;
  Ok {| name := name f; max_capacity := new_cap;
        hourly_usage := hourly_usage f;
        operating_cost_per_hour := operating_cost_per_hour f |}.

Definition combined_facility (f : Facility) : result Facility :=
  new_usage <- _redistribute_usage f 0.70 ;;
  threshold <- int_mul_float (max_capacity f) 0.15 ;;
  new_usage' <- for_each (fun u =>
                  if int_ge_float u threshold then Ok u
                  else int_of_float threshold) new_usage ;;
  a <- avg_utilization_pct f ;;
  new_cap <- (if float_ge_int a 40 then Ok (max_capacity f)
              else right_size f) ;;
  Ok {| name := name f; max_capacity := new_cap;
        hourly_usage := new_usage';
        operating_cost_per_hour := (operating_cost_per_hour f * 0.95)%float |}.

Definition run_optimizations (facilities : list Facility)
  : result (list Scenario) :=
  base <- aggregate (Ok "Base Case (Current)"%string) facilities ;;
  redis <- for_each (fun cap_pct =>
             new_facilities <- for_each (redistributed cap_pct) facilities ;;
             aggregate (redistribute_name cap_pct) new_facilities)
             [0.70; 0.60]%float ;;
  extended <- for_each extended_facility facilities ;;
  ext <- aggregate (Ok "Extended Hours (High-Demand)"%string) extended ;;
  trimmed <- for_each trimmed_facility facilities ;;
  trim <- aggregate (Ok "Close Idle Slots (<15%)"%string) trimmed ;;
  resized <- for_each resized_facility facilities ;;
  res <- aggregate (Ok "Capacity Right-Sizing"%string) resized ;;
  combined <- for_each combined_facility facilities ;;
  comb <- aggregate (Ok "Combined Optimized"%string) combined ;;
  Ok (base :: redis ++ [ext; trim; res; comb]).

End Facility.


(* ===================================================================== *)
(** * The report sheets: what they compute from the models *)
(* ===================================================================== *)

(** The workbook functions write cells through openpyxl; their computed
    contents are the expressions below, named after the local variable or
    the label they appear under. *)

Module PyText.

(** [needle in hay] on strings. *)
Fixpoint contains (needle hay : string) : bool :=
  String.prefix needle hay ||
  match hay with
  | EmptyString => false
  | String _ rest => contains needle rest
  end.

Definition two_digits (d : Z) : string :=
  if d <? 10 then ("0" ++ str_of_int d)%string else str_of_int d.

(** [f"{x:.2f}"] on a float: the exact value rounded to two decimals, ties
    to even. *)
Definition float_format_2f (x : float) : string :=
  match Prim2SF x with
  | S754_nan => "nan"
  | S754_infinity s => if s then "-inf" else "inf"
  | S754_zero s => if s then "-0.00" else "0.00"
  | S754_finite s m e =>
      let hundredths :=
        round_half_even (Zpos m * 100 * 2 ^ Z.max 0 e) (2 ^ Z.max 0 (- e)) in
      ((if s then "-" else "") ++ str_of_int (hundredths / 100) ++ "."
       ++ two_digits (hundredths mod 100))%string
  end.

(** [f"{v:.2f}"]: an int is converted to a float first. *)
Definition format_2f (v : num) : result string :=
  match v with
  | Int z => x <- float_of_int z ;; Ok (float_format_2f x)
  | Float x => Ok (float_format_2f x)
  end.

End PyText.

(** ** financial_model.py *)

Module MessReport.
Import Mess PyText.

(** A worksheet value of the profit and loss rows: the empty string, a
    number or a text. *)
Inductive cell : Set :=
| Blank
| Number (v : num)
| Text (s : string).

Definition row : Set := string * cell * cell.

(** [round(x / rev * 100, 2)]. *)
Definition pct_of_revenue (x rev : float) : result num :=
  q <- float_truediv x rev ;;
  p <- float_mul_int q 100 ;;
  Ok (round2 (Float p)).

(** A row [(label, amount, round(amount / rev * 100, 2))]; the amount
    expression is evaluated twice. *)
Definition amount_row (label : string) (amount : result float) (rev : float)
  : result row :=
  a <- amount ;;
  a' <- amount ;;
  p <- pct_of_revenue a' rev ;;
  Ok (label, Number (Float a), Number p).

Definition heading (label : string) : row := (label, Blank, Blank).

(** The list [rows] of [_sheet_financial_model]. *)
Definition financial_model_rows (base : MessAssumptions) : result (list row) :=
  rev <- total_revenue base ;;
  r5 <- amount_row "  Raw Food Cost (Students × Daily × Days)"
          (monthly_raw_food_cost base) rev ;;
  r6 <- amount_row "  Food Wastage Cost" (monthly_wastage_cost base) rev ;;
  r7 <- amount_row "  LPG / Fuel" (Ok (lpg_fuel_monthly base)) rev ;;
  r8 <- amount_row "  Water" (Ok (water_monthly base)) rev ;;
  r9 <- amount_row "  Packaging & Disposables"
          (Ok (packaging_disposables_monthly base)) rev ;;
  r10 <- amount_row "Total Variable Costs" (total_variable_costs base) rev ;;
  r13 <- amount_row "  Staff Salaries" (Ok (staff_salaries base)) rev ;;
  r14 <- amount_row "  Electricity" (Ok (electricity base)) rev ;;
  r15 <- amount_row "  Maintenance" (Ok (maintenance base)) rev ;;
  r16 <- amount_row "  Rent" (Ok (rent base)) rev ;;
  r17 <- amount_row "  Insurance & Misc" (Ok (insurance_misc base)) rev ;;
  r18 <- amount_row "Total Fixed Costs" (total_fixed_costs base) rev ;;
  r20 <- amount_row "TOTAL COST" (total_cost base) rev ;;
  p <- profit base ;;
  pm <- profit_margin base ;;
  pm' <- profit_margin base ;;
  txt <- format_2f pm' ;;
  Ok [ heading "REVENUE";
       ("  Total Students × Monthly Fee", Number (Float rev), Number (Float 100));
       heading "";
       heading "VARIABLE COSTS";
       r5; r6; r7; r8; r9; r10;
       heading "";
       heading "FIXED COSTS";
       r13; r14; r15; r16; r17; r18;
       heading "";
       r20;
       heading "";
       ("NET PROFIT / (LOSS)", Number (Float p), Number (round2 pm));
       ("Profit Margin", Text (txt ++ "%"), Blank) ]%string.

(** [int(base.total_cost / base.monthly_fee_per_student) + 1], the
    "Break-even Students" figure of the dashboard and of the insights. *)
Definition break_even_students (base : MessAssumptions) : result Z :=
  c <- total_cost base ;;
  q <- float_truediv c (monthly_fee_per_student base) ;;
  n <- int_of_float q ;;
  Ok (n + 1).

(** [[s for s in scenarios if "Combined" in s["Scenario"]][0]]. *)
Definition combined_scenario (scenarios : list Scenario) : result Scenario :=
  match filter (fun s => contains "Combined" (Scenario_name s)) scenarios with
  | [] => Raise IndexError
  | s :: _ => Ok s
  end.

(** [scenarios[0]]. *)
Definition base_case (scenarios : list Scenario) : result Scenario :=
  match scenarios with
  | [] => Raise IndexError
  | s :: _ => Ok s
  end.

(** [improvement = combined["Profit"] - base_case["Profit"]]. *)
Definition improvement (scenarios : list Scenario) : result float :=
  combined <- combined_scenario scenarios ;;
  base <- base_case scenarios ;;
  Ok (Profit combined - Profit base)%float.

End MessReport.

(** ** p-2/resource_utilization_model.py *)

Module FacilityReport.
Import Facility PyText.

(** [[s for s in scenarios if "Combined" in s["Scenario"]][0]]. *)
Definition combined_scenario (scenarios : list Scenario) : result Scenario :=
  match filter (fun s => contains "Combined" (Scenario_name s)) scenarios with
  | [] => Raise IndexError
  | s :: _ => Ok s
  end.

(** [scenarios[0]]. *)
Definition base_case (scenarios : list Scenario) : result Scenario :=
  match scenarios with
  | [] => Raise IndexError
  | s :: _ => Ok s
  end.

(** [idle_reduction = base_case["Idle Hours (total)"]
                      - combined["Idle Hours (total)"]]. *)
Definition idle_reduction (scenarios : list Scenario) : result Z :=
  combined <- combined_scenario scenarios ;;
  base <- base_case scenarios ;;
  Ok (Idle_Hours_total base - Idle_Hours_total combined).

(** [[f for f in facilities if f.name=='Auditorium'][0].avg_utilization_pct]. *)
Definition auditorium_utilization (facilities : list Facility) : result float :=
  match filter (fun f => String.eqb (name f) "Auditorium") facilities with
  | [] => Raise IndexError
  | f :: _ => avg_utilization_pct f
  end.

(** [max(items, key=key)]: the keys are computed in order and an item
    replaces the current maximum only when its key is strictly greater;
    [ValueError] on an empty sequence. *)
Fixpoint max_loop (key : Facility -> result Z) (items : list Facility)
    (maxitem : Facility) (maxval : Z) : result Facility :=
  match items with
  | [] => Ok maxitem
  | item :: rest =>
      val <- key item ;;
      if val >? maxval then max_loop key rest item val
      else max_loop key rest maxitem maxval
  end.

Definition py_max (key : Facility -> result Z) (items : list Facility)
  : result Facility :=
  match items with
  | [] => Raise ValueError
  | first :: rest => maxval <- key first ;; max_loop key rest first maxval
  end.

(** [most_idle = max(facilities, key=lambda f: f.idle_hours)]. *)
Definition most_idle (facilities : list Facility) : result Facility :=
  py_max idle_hours facilities.

(** [most_crowded = max(facilities, key=lambda f: f.overcrowded_hours)]. *)
Definition most_crowded (facilities : list Facility) : result Facility :=
  py_max overcrowded_hours facilities.

End FacilityReport.


(* ===================================================================== *)
(** * Properties of the Python number model *)
(* ===================================================================== *)

Section ResultFacts.
Context {A B : Type}.

Lemma bind_ok (c : result A) (k : A -> result B) (b : B) :
  bind c k = Ok b -> exists a, c = Ok a /\ k a = Ok b.
Proof. destruct c as [a|e]; simpl; [eauto | discriminate]. Qed.

Lemma bind_raise (c : result A) (k : A -> result B) (e : exn) :
  bind c k = Raise e -> c = Raise e \/ exists a, c = Ok a /\ k a = Raise e.
Proof. destruct c as [a|e']; simpl; [eauto | intros [= ->]; auto]. Qed.

End ResultFacts.

(** Inversion of a chain of binds that is known to succeed or to fail. *)
Ltac bind_inv H :=
  match type of H with
  | bind _ _ = Ok _ =>
      let a := fresh "v" in let H1 := fresh "E" in
      apply bind_ok in H; destruct H as (a & H1 & H); bind_inv H
  | _ => idtac
  end.

(** The int literals of the two files convert to floats exactly. *)
Lemma float_of_int_literals :
  float_of_int 0 = Ok 0%float /\ float_of_int 1 = Ok 1%float /\
  float_of_int 5 = Ok 5%float /\ float_of_int 10 = Ok 10%float /\
  float_of_int 15 = Ok 15%float /\ float_of_int 30 = Ok 30%float /\
  float_of_int 100 = Ok 100%float /\ float_of_int 200 = Ok 200%float /\
  float_of_int 300 = Ok 300%float.
Proof. repeat split; vm_compute; reflexivity. Qed.

Lemma float_mul_int_100 (q : float) : float_mul_int q 100 = Ok (q * 100)%float.
Proof. reflexivity. Qed.

Lemma float_div_int_100 (x : float) : float_div_int x 100 = Ok (x / 100)%float.
Proof. reflexivity. Qed.

(** Conversion of an int can only fail with [OverflowError]. *)
Lemma float_of_int_raise (z : Z) (e : exn) :
  float_of_int z = Raise e -> e = OverflowError.
Proof.
  unfold float_of_int.
  destruct (binary_normalize prec emax z 0 false); congruence.
Qed.

Lemma float_truediv_raise (x y : float) (e : exn) :
  float_truediv x y = Raise e -> e = ZeroDivisionError /\ float_truthy y = false.
Proof.
  unfold float_truediv, float_truthy.
  destruct (y =? 0)%float; [intros [= <-]; auto | discriminate].
Qed.

Lemma float_truediv_truthy (x y : float) :
  float_truthy y = true -> float_truediv x y = Ok (x / y)%float.
Proof.
  unfold float_truediv, float_truthy. now destruct (y =? 0)%float.
Qed.

(** Two floats that an IEEE comparison tells apart are different objects. *)
Lemma float_neq_by_eqb (x y : float) :
  (x =? x)%float = true -> (x =? y)%float = false -> x <> y.
Proof. intros Hx Hxy ->. congruence. Qed.

(* ===================================================================== *)
(** * Facts about binary64 rounding

    The primitive operations are specified by [SpecFloat]'s functions
    (through the axioms of [FloatAxioms]); the lemmas below are about those
    functions, at [prec = 53] and [emax = 1024]. *)
(* ===================================================================== *)

Module Binary64.

Local Abbreviation fexp := (SpecFloat.fexp prec emax).

Lemma fexp_eq (e : Z) : fexp e = Z.max (e - 53) (-1074).
Proof. reflexivity. Qed.

(** *** Number of binary digits *)

Lemma digits2_pos_bounds (p : positive) :
  2 ^ (Zpos (digits2_pos p) - 1) <= Zpos p < 2 ^ Zpos (digits2_pos p).
Proof.
  induction p as [p IH|p IH|]; simpl digits2_pos.
  - rewrite Pos2Z.inj_succ, Pos2Z.inj_xI.
    replace (Z.succ (Zpos (digits2_pos p)) - 1) with (Z.succ (Zpos (digits2_pos p) - 1)) by lia.
    rewrite !Z.pow_succ_r by lia. lia.
  - rewrite Pos2Z.inj_succ. change (Zpos p~0) with (2 * Zpos p).
    replace (Z.succ (Zpos (digits2_pos p)) - 1) with (Z.succ (Zpos (digits2_pos p) - 1)) by lia.
    rewrite !Z.pow_succ_r by lia. lia.
  - simpl. lia.
Qed.

Lemma Zdigits2_log2 (m : Z) : 0 < m -> Zdigits2 m = Z.log2 m + 1.
Proof.
  destruct m as [|p|p]; try lia. intros _. simpl Zdigits2.
  pose proof (digits2_pos_bounds p) as [Hl Hu].
  rewrite (Z.log2_unique (Zpos p) (Zpos (digits2_pos p) - 1)); try lia.
  split; [assumption|]. now replace (Z.succ (Zpos (digits2_pos p) - 1)) with (Zpos (digits2_pos p)) by lia.
Qed.

Lemma Zdigits2_0 : Zdigits2 0 = 0.
Proof. reflexivity. Qed.

Lemma Zdigits2_nonneg (m : Z) : 0 <= Zdigits2 m.
Proof. destruct m; simpl; lia. Qed.

Lemma Zdigits2_pos (m : Z) : 0 < m -> 0 < Zdigits2 m.
Proof. destruct m; simpl; lia. Qed.

Lemma Zdigits2_bounds (m : Z) :
  0 < m -> 2 ^ (Zdigits2 m - 1) <= m < 2 ^ Zdigits2 m.
Proof.
  destruct m as [|p|p]; try lia. intros _. apply digits2_pos_bounds.
Qed.

Lemma Zdigits2_unique (m k : Z) : 2 ^ (k - 1) <= m < 2 ^ k -> 0 < k -> Zdigits2 m = k.
Proof.
  intros [Hl Hu] Hk.
  assert (0 < m) by (pose proof (Z.pow_pos_nonneg 2 (k - 1)); lia).
  rewrite Zdigits2_log2 by assumption.
  rewrite (Z.log2_unique m (k - 1)); try lia.
  split; [assumption|]. now replace (Z.succ (k - 1)) with k by lia.
Qed.

Lemma Zdigits2_le (a b : Z) : 0 < a -> a <= b -> Zdigits2 a <= Zdigits2 b.
Proof.
  intros Ha Hab. rewrite !Zdigits2_log2 by lia.
  pose proof (Z.log2_le_mono a b Hab). lia.
Qed.

(** Digits of a quotient by a power of two. *)
Lemma Zdigits2_div_pow2 (m k : Z) :
  0 < m -> 0 <= k < Zdigits2 m -> Zdigits2 (m / 2 ^ k) = Zdigits2 m - k.
Proof.
  intros Hm Hk.
  pose proof (Zdigits2_bounds m Hm) as [Hl Hu].
  assert (Hp : 0 < 2 ^ k) by (apply Z.pow_pos_nonneg; lia).
  apply Zdigits2_unique; [|lia]. split.
  - apply Z.div_le_lower_bound; [assumption|].
    rewrite <- Z.pow_add_r by lia.
    now replace (k + (Zdigits2 m - k - 1)) with (Zdigits2 m - 1) by lia.
  - apply Z.div_lt_upper_bound; [assumption|].
    rewrite <- Z.pow_add_r by lia.
    now replace (k + (Zdigits2 m - k)) with (Zdigits2 m) by lia.
Qed.

Lemma div_pow2_small (m k : Z) : 0 <= m -> Zdigits2 m <= k -> m / 2 ^ k = 0.
Proof.
  intros Hm Hk. destruct (Z.eq_dec m 0) as [->|Hne].
  - apply Z.div_0_l. pose proof (Z.pow_pos_nonneg 2 k). pose proof (Zdigits2_nonneg 0). lia.
  - apply Z.div_small. split; [lia|].
    pose proof (Zdigits2_bounds m ltac:(lia)) as [_ Hu].
    eapply Z.lt_le_trans; [exact Hu|]. apply Z.pow_le_mono_r; lia.
Qed.

(** Adding one raises the digit count only at a power of two. *)
Lemma Zdigits2_succ (m : Z) :
  0 < m ->
  Zdigits2 (m + 1) = Zdigits2 m \/
  (Zdigits2 (m + 1) = Zdigits2 m + 1 /\ m + 1 = 2 ^ Zdigits2 m).
Proof.
  intros Hm. pose proof (Zdigits2_bounds m Hm) as [Hl Hu].
  pose proof (Zdigits2_pos m Hm) as Hd.
  destruct (Z.eq_dec (m + 1) (2 ^ Zdigits2 m)) as [E|NE].
  - right. split; [|assumption]. apply Zdigits2_unique; [|lia].
    replace (Zdigits2 m + 1 - 1) with (Zdigits2 m) by lia.
    rewrite Z.pow_add_r by lia. change (2 ^ 1) with 2. lia.
  - left. apply Zdigits2_unique; [|lia]. lia.
Qed.

(** *** Right shifts *)

Lemma shr_1_m (mrs : shr_record) :
  0 <= shr_m mrs -> shr_m (shr_1 mrs) = shr_m mrs / 2.
Proof.
  destruct mrs as [m r s]. cbn [shr_m]. intros Hm.
  destruct m as [|[p|p|]|p]; cbn [shr_1 shr_m]; try lia.
  - reflexivity.
  - rewrite Pos2Z.inj_xI. apply Z.div_unique with 1; lia.
  - change (Zpos p~0) with (2 * Zpos p). apply Z.div_unique with 0; lia.
  - reflexivity.
Qed.

Lemma iter_shr_1_m (p : positive) (mrs : shr_record) :
  0 <= shr_m mrs ->
  shr_m (iter_pos shr_1 p mrs) = shr_m mrs / 2 ^ Zpos p.
Proof.
  revert mrs. induction p as [p IH|p IH|]; intros mrs Hm; simpl iter_pos.
  - assert (H1 : 0 <= shr_m (shr_1 mrs)) by (rewrite shr_1_m by assumption; apply Z.div_pos; lia).
    assert (H2 : 0 <= shr_m (iter_pos shr_1 p (shr_1 mrs))) by (rewrite IH by assumption; apply Z.div_pos; [lia|apply Z.pow_pos_nonneg; lia]).
    rewrite IH, IH, shr_1_m by assumption.
    rewrite !Z.div_div by (try apply Z.pow_pos_nonneg; lia).
    f_equal. rewrite Pos2Z.inj_xI.
    replace (2 * Zpos p + 1) with (1 + Zpos p + Zpos p) by lia.
    rewrite !Z.pow_add_r by lia. change (2 ^ 1) with 2. lia.
  - assert (H2 : 0 <= shr_m (iter_pos shr_1 p mrs)) by (rewrite IH by assumption; apply Z.div_pos; [lia|apply Z.pow_pos_nonneg; lia]).
    rewrite IH, IH by assumption.
    rewrite !Z.div_div by (try apply Z.pow_pos_nonneg; lia).
    f_equal. change (Zpos p~0) with (2 * Zpos p).
    replace (2 * Zpos p) with (Zpos p + Zpos p) by lia.
    rewrite !Z.pow_add_r by lia. lia.
  - rewrite shr_1_m by assumption. reflexivity.
Qed.

Lemma shr_record_of_loc_m (m : Z) (l : location) : shr_m (shr_record_of_loc m l) = m.
Proof. destruct l as [|[| |]]; reflexivity. Qed.

(** [shr_fexp] divides the mantissa by [2 ^ n] and adds [n] to the exponent,
    where [n] is the (non-negative part of the) distance to the exponent of
    the format. *)
Lemma shr_fexp_spec (m e : Z) (l : location) :
  0 <= m ->
  let n := Z.max 0 (fexp (Zdigits2 m + e) - e) in
  shr_m (fst (shr_fexp prec emax m e l)) = m / 2 ^ n /\
  snd (shr_fexp prec emax m e l) = e + n.
Proof.
  intros Hm n. unfold shr_fexp, shr. subst n.
  destruct (fexp (Zdigits2 m + e) - e) as [|p|p] eqn:E; simpl fst; simpl snd.
  - rewrite shr_record_of_loc_m. simpl. rewrite Z.div_1_r. lia.
  - rewrite iter_shr_1_m by (rewrite shr_record_of_loc_m; assumption).
    rewrite shr_record_of_loc_m. rewrite Z.max_r by lia. auto.
  - rewrite shr_record_of_loc_m. rewrite Z.max_l by lia. simpl. rewrite Z.div_1_r. lia.
Qed.

Lemma round_nearest_even_bounds (m : Z) (l : location) :
  m <= round_nearest_even m l <= m + 1.
Proof.
  unfold round_nearest_even. destruct l as [|[| |]]; try lia. destruct (Z.even m); lia.
Qed.

(** *** Rounding a mantissa to the format *)

(** The result of [binary_round_aux] in terms of the truncated mantissa [q]
    and the rounded one [r]. *)
Lemma binary_round_aux_spec (s : bool) (M E : Z) (l : location) :
  0 <= M ->
  let n := Z.max 0 (fexp (Zdigits2 M + E) - E) in
  let q := M / 2 ^ n in
  let g := E + n in
  exists r, q <= r <= q + 1 /\
    let k := Z.max 0 (fexp (Zdigits2 r + g) - g) in
    binary_round_aux prec emax s M E l =
      match r / 2 ^ k with
      | Z0 => S754_zero s
      | Zpos m => if g + k <=? 971 then S754_finite s m (g + k)
                  else S754_infinity s
      | Zneg _ => S754_nan
      end.
Proof.
  intros HM n q g. unfold binary_round_aux.
  pose proof (shr_fexp_spec M E l HM) as [H1 H2].
  destruct (shr_fexp prec emax M E l) as [mrs' e'] eqn:E1.
  simpl fst in H1. simpl snd in H2. fold n in H1, H2. fold q in H1. fold g in H2.
  set (r := round_nearest_even (shr_m mrs') (loc_of_shr_record mrs')).
  assert (Hr : q <= r <= q + 1)
    by (unfold r; rewrite <- H1; apply round_nearest_even_bounds).
  assert (Hq : 0 <= q)
    by (apply Z.div_pos; [assumption | apply Z.pow_pos_nonneg; lia]).
  exists r. split; [assumption|]. cbv zeta.
  set (k := Z.max 0 (fexp (Zdigits2 r + g) - g)).
  pose proof (shr_fexp_spec r e' loc_Exact ltac:(lia)) as [H3 H4].
  destruct (shr_fexp prec emax r e' loc_Exact) as [mrs'' e''] eqn:E2.
  simpl fst in H3. simpl snd in H4. rewrite H2 in H3, H4. fold k in H3, H4.
  rewrite H3, H4. reflexivity.
Qed.

(** Whatever the inputs, the result carries the requested sign. *)
Variant signed_as (s : bool) : spec_float -> Prop :=
| signed_zero : signed_as s (S754_zero s)
| signed_finite m e : signed_as s (S754_finite s m e)
| signed_infinity : signed_as s (S754_infinity s).

Lemma binary_round_aux_sign (s : bool) (M E : Z) (l : location) :
  0 <= M -> signed_as s (binary_round_aux prec emax s M E l).
Proof.
  intros HM. destruct (binary_round_aux_spec s M E l HM) as (r & Hr & ->).
  set (n := Z.max 0 (fexp (Zdigits2 M + E) - E)) in *.
  assert (0 <= M / 2 ^ n)
    by (apply Z.div_pos; [assumption | apply Z.pow_pos_nonneg; lia]).
  set (k := Z.max 0 _).
  assert (0 <= r / 2 ^ k)
    by (apply Z.div_pos; [lia | apply Z.pow_pos_nonneg; lia]).
  destruct (r / 2 ^ k); try lia; [constructor|].
  destruct (_ <=? 971); constructor.
Qed.

(** When the exponent is not above the exponent of the format (the mantissa
    is "aligned"), the result is a valid float next to [q * 2 ^ g]. *)
Lemma binary_round_aux_aligned (s : bool) (M E : Z) (l : location) :
  0 < M -> E <= fexp (Zdigits2 M + E) ->
  let g := fexp (Zdigits2 M + E) in
  let q := M / 2 ^ (g - E) in
  (binary_round_aux prec emax s M E l = S754_zero s /\ q = 0) \/
  exists m e,
    binary_round_aux prec emax s M E l =
      (if e <=? 971 then S754_finite s m e else S754_infinity s) /\
    g <= e <= g + 1 /\
    q <= Zpos m * 2 ^ (e - g) <= q + 1 /\
    fexp (Zpos (digits2_pos m) + e) = e /\
    Zdigits2 M + E <= Zpos (digits2_pos m) + e.
Proof.
  intros HM Hal g q.
  destruct (binary_round_aux_spec s M E l ltac:(lia)) as (r & Hr & Hres).
  replace (Z.max 0 (fexp (Zdigits2 M + E) - E)) with (g - E) in * by (unfold g; lia).
  replace (E + (g - E)) with g in * by lia.
  fold q in Hr. cbv zeta in Hres.
  set (k := Z.max 0 (fexp (Zdigits2 r + g) - g)) in *.
  set (d := Zdigits2 M) in *.
  assert (Hq0 : 0 <= q)
    by (apply Z.div_pos; [lia | apply Z.pow_pos_nonneg; lia]).
  destruct (Z.eq_dec r 0) as [Hr0|Hr0].
  { left. subst r. rewrite Z.div_0_l in Hres
      by (pose proof (Z.pow_pos_nonneg 2 k); lia). split; [assumption | lia]. }
  right.
  assert (Hrpos : 0 < r) by lia.
  (* the digits of [r] and the exponent of the format at [r] *)
  assert (Hdr : fexp (Zdigits2 r + g) = g + k /\ k <= 1 /\ d + E <= Zdigits2 r + g
                /\ (k = 1 -> r = 2 * (r / 2)) /\ k < Zdigits2 r).
  { destruct (Z_lt_le_dec (g - E) d) as [Hn|Hn].
    - (* the truncated mantissa is not zero *)
      assert (Hdq : Zdigits2 q = d - (g - E))
        by (apply Zdigits2_div_pow2; [assumption | fold d; lia]).
      assert (Hqpos : 0 < q).
      { destruct (Z.eq_dec q 0) as [Hz|]; [|lia]. rewrite Hz in Hdq. simpl in Hdq. lia. }
      assert (Hcases : Zdigits2 r = Zdigits2 q \/
                       (Zdigits2 r = Zdigits2 q + 1 /\ r = 2 ^ Zdigits2 q)).
      { destruct (Z.eq_dec r q) as [->|]; [auto|].
        replace r with (q + 1) by lia. apply Zdigits2_succ. assumption. }
      unfold k, g in *. rewrite !fexp_eq in *.
      destruct Hcases as [Hd|[Hd Hp]]; rewrite Hd, Hdq.
      + repeat split; try lia.
      + repeat split; try lia.
        intros _. rewrite Hp. rewrite Hdq.
        replace (d - (Z.max (d + E - 53) (-1074) - E))
          with (Z.succ (d - (Z.max (d + E - 53) (-1074) - E) - 1)) by lia.
        rewrite Z.pow_succ_r by lia. rewrite Z.mul_comm, Z.div_mul by lia. lia.
    - (* everything was shifted out: the result is the smallest subnormal *)
      assert (q = 0) by (apply div_pow2_small; [lia | fold d; lia]).
      assert (r = 1) by lia. subst r.
      unfold k, g in *. rewrite !fexp_eq in *. simpl Zdigits2.
      repeat split; try lia. }
  destruct Hdr as (Hfe & Hk1 & Hmag & Heven & Hkd).
  assert (Hk0 : 0 <= k) by (unfold k; lia).
  assert (Hdiv : 0 < r / 2 ^ k).
  { assert (Zdigits2 (r / 2 ^ k) = Zdigits2 r - k)
      by (apply Zdigits2_div_pow2; lia).
    destruct (Z.eq_dec (r / 2 ^ k) 0) as [Hz|].
    - rewrite Hz in H. simpl in H. lia.
    - assert (0 <= r / 2 ^ k)
        by (apply Z.div_pos; [lia | apply Z.pow_pos_nonneg; lia]). lia. }
  destruct (r / 2 ^ k) as [|m|m] eqn:Em; try lia.
  exists m, (g + k). split; [exact Hres|].
  assert (Hexact : Zpos m * 2 ^ k = r).
  { destruct (Z.eq_dec k 0) as [Hz|Hz].
    - rewrite Hz in *. rewrite Z.pow_0_r, Z.div_1_r in Em. rewrite Z.pow_0_r. lia.
    - assert (k = 1) by lia. rewrite H in *. change (2 ^ 1) with 2 in *.
      rewrite <- Em. specialize (Heven eq_refl). lia. }
  replace (g + k - g) with k by lia. rewrite Hexact.
  assert (Hdm : Zpos (digits2_pos m) = Zdigits2 r - k).
  { change (Zpos (digits2_pos m)) with (Zdigits2 (Zpos m)). rewrite <- Em.
    apply Zdigits2_div_pow2; lia. }
  rewrite Hdm. replace (Zdigits2 r - k + (g + k)) with (Zdigits2 r + g) by lia.
  repeat split; try lia.
Qed.

Lemma finite_valid (s : bool) (m : positive) (e : Z) :
  fexp (Zpos (digits2_pos m) + e) = e -> e <= 971 ->
  valid_binary (S754_finite s m e) = true.
Proof.
  intros Hc He. unfold SpecFloat.valid_binary, bounded, canonical_mantissa.
  rewrite Hc, Z.eqb_refl. simpl. apply Z.leb_le. exact He.
Qed.

Lemma valid_finite_inv (s : bool) (m : positive) (e : Z) :
  valid_binary (S754_finite s m e) = true ->
  fexp (Zpos (digits2_pos m) + e) = e /\ e <= 971.
Proof.
  unfold SpecFloat.valid_binary, bounded, canonical_mantissa.
  intros H. apply andb_true_iff in H as [H1 H2].
  apply Z.eqb_eq in H1. apply Z.leb_le in H2. auto.
Qed.

Lemma binary_round_aux_valid (s : bool) (M E : Z) (l : location) :
  0 < M -> E <= fexp (Zdigits2 M + E) ->
  valid_binary (binary_round_aux prec emax s M E l) = true.
Proof.
  intros HM Hal.
  destruct (binary_round_aux_aligned s M E l HM Hal)
    as [[-> _]|(m & e & -> & _ & _ & Hc & _)]; [reflexivity|].
  destruct (e <=? 971) eqn:He; [|reflexivity].
  apply finite_valid; [assumption | now apply Z.leb_le].
Qed.

(** *** Left alignment and [binary_round] *)

Lemma iter_xO_pow2 (m d : positive) :
  Zpos (Pos.iter xO m d) = Zpos m * 2 ^ Zpos d.
Proof.
  induction d as [|d IH] using Pos.peano_ind.
  - simpl. lia.
  - rewrite Pos.iter_succ, Pos2Z.inj_succ, Z.pow_succ_r by lia.
    change (Zpos (Pos.iter xO m d)~0) with (2 * Zpos (Pos.iter xO m d)).
    rewrite IH. lia.
Qed.

Lemma shl_align_spec (mx : positive) (ex ex' : Z) :
  snd (shl_align mx ex ex') = Z.min ex ex' /\
  Zpos (fst (shl_align mx ex ex')) = Zpos mx * 2 ^ (ex - Z.min ex ex').
Proof.
  unfold shl_align. destruct (ex' - ex) as [|d|d] eqn:E; simpl fst; simpl snd.
  - replace (Z.min ex ex') with ex by lia. rewrite Z.sub_diag. simpl. lia.
  - replace (Z.min ex ex') with ex by lia. rewrite Z.sub_diag. simpl. lia.
  - replace (Z.min ex ex') with ex' by lia. rewrite iter_xO_pow2.
    replace (ex - ex') with (Zpos d) by lia. auto.
Qed.

Lemma Zdigits2_mul_pow2 (m k : Z) :
  0 < m -> 0 <= k -> Zdigits2 (m * 2 ^ k) = Zdigits2 m + k.
Proof.
  intros Hm Hk. pose proof (Zdigits2_bounds m Hm) as [Hl Hu].
  pose proof (Zdigits2_pos m Hm).
  assert (0 < 2 ^ k) by (apply Z.pow_pos_nonneg; lia).
  apply Zdigits2_unique; [|lia]. split.
  - replace (Zdigits2 m + k - 1) with (Zdigits2 m - 1 + k) by lia.
    rewrite Z.pow_add_r by lia. apply Z.mul_le_mono_nonneg_r; lia.
  - rewrite Z.pow_add_r by lia. apply Z.mul_lt_mono_pos_r; lia.
Qed.

(** [binary_round] rounds an aligned copy of its mantissa. *)
Lemma binary_round_aligned (s : bool) (mx : positive) (ex : Z) :
  exists M E,
    binary_round prec emax s mx ex = binary_round_aux prec emax s M E loc_Exact /\
    0 < M /\ E <= fexp (Zdigits2 M + E) /\
    Zdigits2 M + E = Zpos (digits2_pos mx) + ex.
Proof.
  unfold binary_round.
  pose proof (shl_align_spec mx ex (fexp (Zpos (digits2_pos mx) + ex))) as [H1 H2].
  destruct (shl_align mx ex (fexp (Zpos (digits2_pos mx) + ex))) as [mz ez].
  simpl fst in H2. simpl snd in H1.
  exists (Zpos mz), ez. split; [reflexivity|]. split; [lia|].
  assert (Hd : Zdigits2 (Zpos mz) + ez = Zpos (digits2_pos mx) + ex).
  { rewrite H2, H1, Zdigits2_mul_pow2 by lia. simpl Zdigits2. lia. }
  split; [|exact Hd]. rewrite Hd, H1. lia.
Qed.

Lemma binary_normalize_valid (z e : Z) (b : bool) :
  valid_binary (binary_normalize prec emax z e b) = true.
Proof.
  destruct z as [|p|p]; simpl; [reflexivity| |];
    destruct (binary_round_aligned false p e) as (M & E & H & HM & Hal & _);
    destruct (binary_round_aligned true p e) as (M' & E' & H' & HM' & Hal' & _);
    [rewrite H | rewrite H']; now apply binary_round_aux_valid.
Qed.

(** *** [float(z)] *)

Lemma float_of_int_Prim2SF (z : Z) (x : float) :
  float_of_int z = Ok x -> Prim2SF x = binary_normalize prec emax z 0 false.
Proof.
  unfold float_of_int. intros H.
  assert (x = SF2Prim (binary_normalize prec emax z 0 false))
    by (destruct (binary_normalize prec emax z 0 false); congruence).
  subst x. apply Prim2SF_SF2Prim, binary_normalize_valid.
Qed.

(** A float is [normal_from s m e] when it is the finite number with sign
    [s], a full 53-bit mantissa [m] and exponent [e]. *)
Definition normal (x : float) (s : bool) (m : positive) (e : Z) : Prop :=
  Prim2SF x = S754_finite s m e /\ Zpos (digits2_pos m) = 53 /\ e <= 971.

Lemma float_of_int_nonzero (z : Z) (x : float) :
  z <> 0 -> float_of_int z = Ok x ->
  exists m e, normal x (z <? 0) m e /\ -52 <= e.
Proof.
  intros Hz H. pose proof (float_of_int_Prim2SF z x H) as HP.
  unfold float_of_int in H.
  assert (Hgen : forall s p, binary_normalize prec emax z 0 false = binary_round prec emax s p 0 ->
            exists m e, normal x s m e /\ -52 <= e).
  { intros s p Hb. rewrite Hb in HP, H.
    destruct (binary_round_aligned s p 0) as (M & E & HR & HM & Hal & Hd).
    rewrite HR in HP, H.
    destruct (binary_round_aux_aligned s M E loc_Exact HM Hal)
      as [[_ Hq]|(m & e & Hres & _ & _ & Hc & Hmag)].
    - exfalso. pose proof (Zdigits2_pos M HM).
      assert (Hn : fexp (Zdigits2 M + E) - E < Zdigits2 M).
      { rewrite fexp_eq. pose proof (Zdigits2_pos (Zpos p) eq_refl). simpl Zdigits2 in *. lia. }
      pose proof (Zdigits2_div_pow2 M (fexp (Zdigits2 M + E) - E) HM ltac:(lia)) as Hdq.
      rewrite Hq in Hdq. simpl in Hdq. lia.
    - rewrite Hres in HP, H. destruct (e <=? 971) eqn:He; [|discriminate].
      apply Z.leb_le in He. exists m, e.
      pose proof (Zdigits2_pos (Zpos p) eq_refl). simpl Zdigits2 in *.
      rewrite fexp_eq in Hc. unfold normal. repeat split; try assumption; lia. }
  destruct z as [|p|p]; [congruence| |]; simpl in Hgen; eapply Hgen; reflexivity.
Qed.

Lemma float_of_int_0 (x : float) : float_of_int 0 = Ok x -> Prim2SF x = S754_zero false.
Proof. intros [= <-]. reflexivity. Qed.

(** Ints below [2 ^ 1023] in magnitude always convert. *)
Lemma float_of_int_ok (z : Z) : Z.abs z < 2 ^ 1023 -> exists x, float_of_int z = Ok x.
Proof.
  intros Hz. unfold float_of_int.
  assert (Hgen : forall s p, Zpos p < 2 ^ 1023 ->
            exists x, match binary_round prec emax s p 0 with
                      | S754_infinity _ => Raise OverflowError
                      | s' => Ok (SF2Prim s')
                      end = Ok x).
  { intros s p Hp.
    destruct (binary_round_aligned s p 0) as (M & E & -> & HM & Hal & Hd).
    destruct (binary_round_aux_aligned s M E loc_Exact HM Hal)
      as [[-> _]|(m & e & -> & He & _)]; [eauto|].
    assert (Zpos (digits2_pos p) <= 1023).
    { destruct (Z_le_gt_dec (Zpos (digits2_pos p)) 1023) as [|Hgt]; [assumption|].
      pose proof (digits2_pos_bounds p) as [Hl _].
      assert (2 ^ 1023 <= 2 ^ (Zpos (digits2_pos p) - 1)) by (apply Z.pow_le_mono_r; lia).
      lia. }
    rewrite Hd, fexp_eq in He.
    destruct (e <=? 971) eqn:Ee; [eauto|]. apply Z.leb_gt in Ee. lia. }
  destruct z as [|p|p]; simpl binary_normalize; [eauto| |]; apply Hgen; lia.
Qed.

(** *** Products of normal floats *)

Lemma normal_mantissa_bounds (x : float) (s : bool) (m : positive) (e : Z) :
  normal x s m e -> 2 ^ 52 <= Zpos m < 2 ^ 53.
Proof.
  intros (_ & Hd & _). pose proof (digits2_pos_bounds m) as H.
  rewrite Hd in H. exact H.
Qed.

(** The product of two positive normal floats whose exact product is in
    the normal range: the result lies next to the truncated 53-bit mantissa
    [q] at exponent [g]. *)
Lemma mul_normal (x c : float) (mx mc : positive) (ex ec : Z) :
  normal x false mx ex -> normal c false mc ec -> -1126 <= ex + ec ->
  let M := Zpos mx * Zpos mc in
  let d := Zdigits2 M in
  let g := d + (ex + ec) - 53 in
  let q := M / 2 ^ (d - 53) in
  105 <= d <= 106 /\
  exists m e,
    Prim2SF (x * c)%float =
      (if e <=? 971 then S754_finite false m e else S754_infinity false) /\
    g <= e <= g + 1 /\
    q <= Zpos m * 2 ^ (e - g) <= q + 1 /\
    Zpos (digits2_pos m) = 53.
Proof.
  intros Hx Hc Hlow M d g q.
  pose proof (normal_mantissa_bounds _ _ _ _ Hx) as Bx.
  pose proof (normal_mantissa_bounds _ _ _ _ Hc) as Bc.
  destruct Hx as (Px & _ & _). destruct Hc as (Pc & _ & _).
  assert (HM : 2 ^ 104 <= M < 2 ^ 106).
  { unfold M. change (2 ^ 104) with (2 ^ 52 * 2 ^ 52).
    change (2 ^ 106) with (2 ^ 53 * 2 ^ 53). split.
    - apply Z.mul_le_mono_nonneg; lia.
    - apply Z.mul_lt_mono_nonneg; lia. }
  assert (Hd : 105 <= d <= 106).
  { unfold d. split.
    - change 105 with (Zdigits2 (2 ^ 104)). apply Zdigits2_le; lia.
    - change 106 with (Zdigits2 (2 ^ 106 - 1)). apply Zdigits2_le; lia. }
  split; [exact Hd|].
  rewrite mul_spec, Px, Pc. unfold SF64mul, SFmul. simpl xorb.
  rewrite Pos2Z.inj_mul. fold M.
  assert (Hfe : fexp (Zdigits2 M + (ex + ec)) = g)
    by (rewrite fexp_eq; fold d; unfold g; lia).
  destruct (binary_round_aux_aligned false M (ex + ec) loc_Exact ltac:(lia)
              ltac:(rewrite Hfe; unfold g; lia))
    as [[_ Hq]|(m & e & Hres & He & Hsw & Hcan & Hmag)].
  - exfalso. rewrite Hfe in Hq. replace (g - (ex + ec)) with (d - 53) in Hq by (unfold g; lia).
    assert (1 <= M / 2 ^ (d - 53)); [|lia].
    apply Z.div_le_lower_bound; [apply Z.pow_pos_nonneg; lia|].
    rewrite Z.mul_1_r. pose proof (Zdigits2_bounds M ltac:(lia)) as [Hl _]. fold d in Hl.
    eapply Z.le_trans; [|exact Hl]. apply Z.pow_le_mono_r; lia.
  - rewrite Hfe in He, Hsw.
    replace (g - (ex + ec)) with (d - 53) in Hsw by (unfold g; lia).
    exists m, e. repeat split; try tauto; try lia.
    fold d in Hmag. rewrite fexp_eq in Hcan. lia.
Qed.

(** *** The idle and overcrowded thresholds

    For a normal [x >= 1], [x * 0.20] rounds to at most [x / 2] and
    [x * 0.85] to at least [x / 2].  Values are compared after scaling by
    [2 ^ -(ex - 3)], which makes all of them integers. *)

Lemma Prim2SF_0_20 : normal 0.20 false 7205759403792794 (-55).
Proof. repeat split; vm_compute; congruence. Qed.

Lemma Prim2SF_0_85 : normal 0.85 false 7656119366529843 (-53).
Proof. repeat split; vm_compute; congruence. Qed.

Lemma mul_0_20_upper (x : float) (mx : positive) (ex : Z) :
  normal x false mx ex -> -52 <= ex ->
  exists m e,
    Prim2SF (x * 0.20)%float = S754_finite false m e /\
    ex - 3 <= e /\ Zpos m * 2 ^ (e - (ex - 3)) <= 4 * Zpos mx.
Proof.
  intros Hx Hex.
  pose proof (normal_mantissa_bounds _ _ _ _ Hx) as Bx.
  assert (Hex' : ex <= 971) by apply Hx.
  destruct (mul_normal x 0.20 mx _ ex _ Hx Prim2SF_0_20 ltac:(lia))
    as (Hd & m & e & Hres & He & Hsw & _).
  cbv zeta in *. set (M := Zpos mx * 7205759403792794) in *.
  set (d := Zdigits2 M) in *.
  exists m, e.
  replace (e <=? 971) with true in Hres by (symmetry; apply Z.leb_le; lia).
  split; [exact Hres|]. split; [lia|].
  assert (Hq : M / 2 ^ (d - 53) < Zpos mx * 2 ^ (107 - d)).
  { apply Z.div_lt_upper_bound; [apply Z.pow_pos_nonneg; lia|].
    rewrite (Z.mul_comm (Zpos mx)), Z.mul_assoc, <- Z.pow_add_r by lia.
    replace (d - 53 + (107 - d)) with 54 by lia. unfold M. lia. }
  replace (e - (ex - 3)) with (e - (d + (ex + -55) - 53) + (d - 105)) by lia.
  rewrite Z.pow_add_r by lia.
  assert (Hpow : 2 ^ (107 - d) * 2 ^ (d - 105) = 4).
  { rewrite <- Z.pow_add_r by lia. now replace (107 - d + (d - 105)) with 2 by lia. }
  assert (0 < 2 ^ (d - 105)) by (apply Z.pow_pos_nonneg; lia).
  nia.
Qed.

Lemma mul_0_85_lower (x : float) (mx : positive) (ex : Z) :
  normal x false mx ex -> -52 <= ex ->
  Prim2SF (x * 0.85)%float = S754_infinity false \/
  exists m e,
    Prim2SF (x * 0.85)%float = S754_finite false m e /\
    ex - 3 <= e /\ 4 * Zpos mx <= Zpos m * 2 ^ (e - (ex - 3)).
Proof.
  intros Hx Hex.
  pose proof (normal_mantissa_bounds _ _ _ _ Hx) as Bx.
  destruct (mul_normal x 0.85 mx _ ex _ Hx Prim2SF_0_85 ltac:(lia))
    as (Hd & m & e & Hres & He & Hsw & _).
  cbv zeta in *. set (M := Zpos mx * 7656119366529843) in *.
  set (d := Zdigits2 M) in *.
  destruct (e <=? 971); [right | left; exact Hres].
  exists m, e. split; [exact Hres|]. split; [lia|].
  assert (Hq : Zpos mx <= M / 2 ^ (d - 53) * 2 ^ (d - 105)).
  { pose proof (Zdigits2_bounds M ltac:(unfold M; lia)) as [Hl _].
    fold d in Hl. clearbody d.
    destruct (Z.eq_dec d 105) as [E|NE].
    - rewrite E. change (2 ^ (105 - 105)) with 1. rewrite Z.mul_1_r.
      apply Z.div_le_lower_bound; [reflexivity|]. unfold M. lia.
    - assert (E : d = 106) by lia. rewrite E in *.
      change (2 ^ (106 - 105)) with 2.
      assert (2 ^ 52 <= M / 2 ^ (106 - 53)); [|lia].
      apply Z.div_le_lower_bound; [reflexivity|]. exact Hl. }
  replace (e - (ex - 3)) with (e - (d + (ex + -53) - 53) + (d - 105) + 2) by lia.
  rewrite !Z.pow_add_r by lia. change (2 ^ 2) with 4.
  assert (0 < 2 ^ (d - 105)) by (apply Z.pow_pos_nonneg; lia).
  nia.
Qed.

(** Comparison of an int with a positive finite float, at a common scale. *)
Lemma compare_scaled (u : Z) (m : positive) (e b : Z) :
  b <= e -> -55 <= b ->
  (u * 2 ^ Z.max 0 (- e) ?= Zpos m * 2 ^ Z.max 0 e) =
  (u * 2 ^ 55 ?= Zpos m * 2 ^ (e - b) * 2 ^ (b + 55)).
Proof.
  intros Hb Hb'.
  rewrite <- Z.mul_assoc, <- Z.pow_add_r by lia.
  replace (e - b + (b + 55)) with (Z.max 0 e + (55 - Z.max 0 (- e))) by lia.
  replace 55 with (Z.max 0 (- e) + (55 - Z.max 0 (- e))) at 1 by lia.
  rewrite !Z.pow_add_r by lia. rewrite !Z.mul_assoc.
  apply Zmult_compare_compat_r, Z.lt_gt, Z.pow_pos_nonneg; lia.
Qed.

(** No int is both below 20% and above 85% of a non-negative capacity. *)
Lemma thresholds_disjoint (z u : Z) (x : float) :
  0 <= z -> float_of_int z = Ok x ->
  int_lt_float u (x * 0.20)%float = true ->
  int_gt_float u (x * 0.85)%float = true -> False.
Proof.
  intros Hz Hx. unfold int_lt_float, int_gt_float, compare_int_float.
  destruct (Z.eq_dec z 0) as [->|Hnz].
  - apply float_of_int_0 in Hx.
    rewrite !mul_spec, Hx. simpl. destruct (u ?= 0); discriminate.
  - destruct (float_of_int_nonzero z x Hnz Hx) as (mx & ex & Hn & Hex).
    replace (z <? 0) with false in Hn by (symmetry; apply Z.ltb_ge; lia).
    destruct (mul_0_20_upper x mx ex Hn Hex) as (m1 & e1 & -> & He1 & H1).
    destruct (mul_0_85_lower x mx ex Hn Hex) as [->|(m2 & e2 & -> & He2 & H2)];
      [discriminate|].
    simpl cond_Zopp.
    rewrite (compare_scaled u m1 e1 (ex - 3)), (compare_scaled u m2 e2 (ex - 3)) by lia.
    assert (0 < 2 ^ (ex - 3 + 55)) by (apply Z.pow_pos_nonneg; lia).
    destruct (u * 2 ^ 55 ?= Zpos m1 * 2 ^ (e1 - (ex - 3)) * 2 ^ (ex - 3 + 55)) eqn:C1;
      try discriminate. intros _.
    destruct (u * 2 ^ 55 ?= Zpos m2 * 2 ^ (e2 - (ex - 3)) * 2 ^ (ex - 3 + 55)) eqn:C2;
      try discriminate. intros _.
    rewrite Z.compare_lt_iff in C1. rewrite Z.compare_gt_iff in C2.
    assert (Zpos m1 * 2 ^ (e1 - (ex - 3)) * 2 ^ (ex - 3 + 55)
            <= Zpos m2 * 2 ^ (e2 - (ex - 3)) * 2 ^ (ex - 3 + 55))
      by (apply Z.mul_le_mono_nonneg_r; lia).
    lia.
Qed.

(** *** Signs *)

(** A float that is neither NaN nor positive: a negative number, a negative
    infinity or a zero of either sign has [negative_or_zero]; [negative]
    excludes the zeros. *)
Variant negative : spec_float -> Prop :=
| negative_finite m e : negative (S754_finite true m e)
| negative_infinity : negative (S754_infinity true).

Lemma negative_ltb_0 (x : float) : negative (Prim2SF x) -> (x <? 0)%float = true.
Proof.
  intros H. rewrite ltb_spec. change (Prim2SF 0) with (S754_zero false).
  inversion H; reflexivity.
Qed.

Lemma ltb_0_negative (x : float) : (x <? 0)%float = true -> negative (Prim2SF x).
Proof.
  rewrite ltb_spec. change (Prim2SF 0) with (S754_zero false).
  destruct (Prim2SF x) as [[|]|[|]| |[|] m e]; try discriminate; constructor.
Qed.

(** A mantissa far enough above the underflow threshold never rounds to
    zero. *)
Lemma binary_round_nonzero (s : bool) (mx : positive) (ex : Z) :
  -1074 < Zpos (digits2_pos mx) + ex ->
  exists m e, binary_round prec emax s mx ex =
              (if e <=? 971 then S754_finite s m e else S754_infinity s) /\
              Zpos (digits2_pos mx) + ex <= Zpos (digits2_pos m) + e.
Proof.
  intros Hmag.
  destruct (binary_round_aligned s mx ex) as (M & E & -> & HM & Hal & Hd).
  destruct (binary_round_aux_aligned s M E loc_Exact HM Hal)
    as [[_ Hq]|(m & e & Hres & _ & _ & _ & Hm)].
  - exfalso. pose proof (Zdigits2_pos M HM).
    assert (Hn : fexp (Zdigits2 M + E) - E < Zdigits2 M) by (rewrite fexp_eq; lia).
    pose proof (Zdigits2_div_pow2 M (fexp (Zdigits2 M + E) - E) HM ltac:(lia)) as Hdq.
    rewrite Hq in Hdq. simpl in Hdq. lia.
  - exists m, e. split; [exact Hres | lia].
Qed.

Lemma valid_finite_bounds (s : bool) (m : positive) (e : Z) :
  valid_binary (S754_finite s m e) = true ->
  -1074 <= e <= 971 /\ Zpos m < 2 ^ 53 /\ (-1074 < e -> 2 ^ 52 <= Zpos m).
Proof.
  intros H. apply valid_finite_inv in H as [Hc He]. rewrite fexp_eq in Hc.
  pose proof (digits2_pos_bounds m) as [Hl Hu].
  assert (Hd : Zpos (digits2_pos m) <= 53) by lia.
  split; [lia|]. split.
  - eapply Z.lt_le_trans; [exact Hu|]. apply Z.pow_le_mono_r; lia.
  - intros Hn. replace (Zpos (digits2_pos m)) with 53 in Hl by lia. exact Hl.
Qed.

(** Among valid floats a smaller exponent means a smaller magnitude. *)
Lemma valid_exponent_lt (s1 s2 : bool) (m1 m2 : positive) (e1 e2 : Z) :
  valid_binary (S754_finite s1 m1 e1) = true ->
  valid_binary (S754_finite s2 m2 e2) = true ->
  e1 < e2 -> Zpos m1 < Zpos m2 * 2 ^ (e2 - e1).
Proof.
  intros H1 H2 He.
  apply valid_finite_bounds in H1 as (B1 & U1 & _).
  apply valid_finite_bounds in H2 as (B2 & _ & L2).
  specialize (L2 ltac:(lia)).
  assert (2 ^ 1 <= 2 ^ (e2 - e1)) by (apply Z.pow_le_mono_r; lia).
  change (2 ^ 1) with 2 in *. change (2 ^ 53) with (2 ^ 52 * 2) in U1. nia.
Qed.

(** A difference [w - r] with [w < r] is negative: subtraction cannot
    underflow to zero. *)

Lemma sub_negative (w r : float) :
  (w <? r)%float = true -> negative (Prim2SF (w - r)%float).
Proof.
  rewrite ltb_spec, sub_spec.
  pose proof (Prim2SF_valid w) as Vw. pose proof (Prim2SF_valid r) as Vr.
  destruct (Prim2SF w) as [sw|sw| |sw mw ew], (Prim2SF r) as [sr|sr| |sr mr er];
    unfold SFltb, SF64sub; simpl SFcompare; simpl SFsub; try discriminate;
    try (destruct sw; try discriminate); try (destruct sr; try discriminate);
    intros Hlt; try constructor.
  all: change (IntDef.Z.min ew er) with (Z.min ew er).
  all: pose proof (valid_finite_bounds _ _ _ Vw) as (Bw & _ & _).
  all: pose proof (valid_finite_bounds _ _ _ Vr) as (Br & _ & _).
  all: pose proof (shl_align_spec mw ew (Z.min ew er)) as [_ Aw].
  all: pose proof (shl_align_spec mr er (Z.min ew er)) as [_ Ar].
  all: replace (Z.min ew (Z.min ew er)) with (Z.min ew er) in Aw by lia.
  all: replace (Z.min er (Z.min ew er)) with (Z.min ew er) in Ar by lia.
  all: rewrite Aw, Ar; cbn [cond_Zopp].
  all: match goal with
       | |- negative (binary_normalize _ _ ?D ?ez _) =>
           assert (HD : D < 0); [| destruct D as [|p|p] eqn:ED; try lia;
             simpl binary_normalize;
             destruct (binary_round_nonzero true p ez
                         ltac:(pose proof (Zdigits2_pos (Zpos p) eq_refl);
                               simpl Zdigits2 in *; lia))
               as (m & e & -> & _);
             destruct (e <=? 971); constructor]
       end.
  - (* both negative: the larger magnitude is the smaller number *)
    change (PosDef.Pos.compare_cont Eq mw mr) with (Pos.compare mw mr) in Hlt.
    destruct (ew ?= er) eqn:C; try discriminate.
    + apply Z.compare_eq in C. subst er. rewrite Z.min_id, Z.sub_diag.
      simpl Z.pow. destruct (Pos.compare mw mr) eqn:Cm; try discriminate.
      rewrite Pos.compare_gt_iff in Cm. lia.
    + rewrite Z.compare_gt_iff in C. rewrite Z.min_r by lia. rewrite Z.sub_diag.
      pose proof (valid_exponent_lt _ _ _ _ _ _ Vr Vw C). simpl Z.pow. lia.
  - (* negative minus positive *)
    assert (0 < 2 ^ (ew - Z.min ew er)) by (apply Z.pow_pos_nonneg; lia).
    assert (0 < 2 ^ (er - Z.min ew er)) by (apply Z.pow_pos_nonneg; lia).
    nia.
  - (* both positive *)
    change (PosDef.Pos.compare_cont Eq mw mr) with (Pos.compare mw mr) in Hlt.
    destruct (ew ?= er) eqn:C; try discriminate.
    + apply Z.compare_eq in C. subst er. rewrite Z.min_id, Z.sub_diag.
      simpl Z.pow. destruct (Pos.compare mw mr) eqn:Cm; try discriminate.
      rewrite Pos.compare_lt_iff in Cm. lia.
    + rewrite Z.compare_lt_iff in C. rewrite Z.min_l by lia. rewrite Z.sub_diag.
      pose proof (valid_exponent_lt _ _ _ _ _ _ Vw Vr C). simpl Z.pow. lia.
Qed.
(** *** Magnitudes *)

(** [magnitude_ge k x]: [x] is infinite, or finite with [|x| >= 2 ^ (k - 1)]
    ([k] bounds the position of its leading bit from below). *)
Definition magnitude_ge (k : Z) (x : spec_float) : Prop :=
  match x with
  | S754_finite _ m e => k <= Zpos (digits2_pos m) + e
  | S754_infinity _ => True
  | _ => False
  end.

Lemma Zdigits2_ge_pow2 (m j : Z) : 0 <= j -> 2 ^ j <= m -> j + 1 <= Zdigits2 m.
Proof.
  intros Hj Hm. assert (0 < 2 ^ j) by (apply Z.pow_pos_nonneg; lia).
  replace (j + 1) with (Zdigits2 (2 ^ j)).
  - apply Zdigits2_le; lia.
  - apply Zdigits2_unique; [|lia]. replace (j + 1 - 1) with j by lia.
    split; [lia|]. apply Z.pow_lt_mono_r; lia.
Qed.

(** The difference [w - r] for [w] below a positive normal [r] is negative
    and keeps at least the magnitude of the last place of [r]. *)
Lemma sub_negative_magnitude (w r : float) (mr : positive) (er : Z) :
  normal r false mr er -> -1074 < er -> (w <? r)%float = true ->
  negative (Prim2SF (w - r)%float) /\ magnitude_ge er (Prim2SF (w - r)%float).
Proof.
  intros Hr Her Hlt. split; [now apply sub_negative|].
  pose proof (normal_mantissa_bounds _ _ _ _ Hr) as Br.
  destruct Hr as (Pr & Hdr & Her').
  rewrite ltb_spec in Hlt. rewrite sub_spec.
  pose proof (Prim2SF_valid w) as Vw. pose proof (Prim2SF_valid r) as Vr.
  rewrite Pr in *.
  destruct (Prim2SF w) as [sw|sw| |sw mw ew];
    unfold SFltb, SF64sub in *; simpl SFcompare in Hlt; simpl SFsub;
    try discriminate.
  - (* a zero *) destruct sw; cbn [magnitude_ge negb]; rewrite Hdr; lia.
  - (* an infinity *) destruct sw; [exact I | discriminate].
  - (* a finite number *)
    change (IntDef.Z.min ew er) with (Z.min ew er).
    pose proof (valid_finite_bounds _ _ _ Vw) as (Bw & Uw & _).
    pose proof (shl_align_spec mw ew (Z.min ew er)) as [_ Aw].
    pose proof (shl_align_spec mr er (Z.min ew er)) as [_ Ar].
    replace (Z.min ew (Z.min ew er)) with (Z.min ew er) in Aw by lia.
    replace (Z.min er (Z.min ew er)) with (Z.min ew er) in Ar by lia.
    rewrite Aw, Ar.
    assert (Hgoal : forall D ez j, 0 <= j -> 2 ^ j <= - D -> er <= j + 1 + ez ->
              exists p, D = Zneg p /\ er <= Zdigits2 (Zpos p) + ez).
    { intros D ez j Hj Hle Hmag.
      assert (0 < 2 ^ j) by (apply Z.pow_pos_nonneg; lia).
      destruct D as [|p|p] eqn:ED; try lia. exists p. split; [reflexivity|].
      pose proof (Zdigits2_ge_pow2 (Zpos p) j Hj ltac:(lia)). lia. }
    assert (HD : exists p,
              cond_Zopp sw (Zpos mw * 2 ^ (ew - Z.min ew er))
              - Zpos mr * 2 ^ (er - Z.min ew er) = Zneg p /\
              er <= Zdigits2 (Zpos p) + Z.min ew er).
    { cbn [cond_Zopp]. destruct sw; cbn [cond_Zopp].
      - (* [w] negative: the magnitudes add up *)
        assert (Hpw : 0 < 2 ^ (ew - Z.min ew er)) by (apply Z.pow_pos_nonneg; lia).
        assert (Hpr : 0 < 2 ^ (er - Z.min ew er)) by (apply Z.pow_pos_nonneg; lia).
        apply (Hgoal _ _ (52 + (er - Z.min ew er))); try lia.
        rewrite Z.pow_add_r by lia.
        assert (2 ^ 52 * 2 ^ (er - Z.min ew er) <= Zpos mr * 2 ^ (er - Z.min ew er))
          by (apply Z.mul_le_mono_nonneg_r; lia).
        nia.
      - (* [w] positive and below [r] *)
        change (PosDef.Pos.compare_cont Eq mw mr) with (Pos.compare mw mr) in Hlt.
        destruct (ew ?= er) eqn:C; try discriminate.
        + apply Z.compare_eq in C. subst ew.
          rewrite Z.min_id, Z.sub_diag. simpl (2 ^ 0). rewrite !Z.mul_1_r.
          destruct (Pos.compare mw mr) eqn:Cm; try discriminate.
          rewrite Pos.compare_lt_iff in Cm.
          apply (Hgoal _ _ 0); [lia | change (2 ^ 0) with 1; lia | lia].
        + rewrite Z.compare_lt_iff in C.
          rewrite Z.min_l by lia. rewrite Z.sub_diag.
          simpl (2 ^ 0). rewrite Z.mul_1_r.
          destruct (Z.eq_dec (er - ew) 1) as [E1|N1].
          * pose proof (valid_exponent_lt _ _ _ _ _ _ Vw Vr C).
            apply (Hgoal _ _ 0); [lia | change (2 ^ 0) with 1; lia | lia].
          * apply (Hgoal _ _ (52 + (er - ew - 1))); try lia.
            replace (er - ew) with (1 + (er - ew - 1)) at 2 by lia.
            set (n := er - ew - 1).
            assert (1 <= n) by (unfold n; lia).
            rewrite !Z.pow_add_r by lia. change (2 ^ 1) with 2.
            assert (2 <= 2 ^ n).
            { change 2 with (2 ^ 1) at 1. apply Z.pow_le_mono_r; lia. }
            assert (2 ^ 52 * 2 ^ n <= Zpos mr * 2 ^ n)
              by (apply Z.mul_le_mono_nonneg_r; lia).
            change (2 ^ 53) with (2 ^ 52 * 2) in Uw. lia. }
    destruct HD as (p & -> & Hmag). simpl binary_normalize.
    destruct (binary_round_nonzero true p (Z.min ew er)
                ltac:(pose proof (Zdigits2_pos (Zpos p) eq_refl);
                      simpl Zdigits2 in *; lia))
      as (m & e & -> & Hm).
    destruct (e <=? 971); cbn [magnitude_ge]; [|exact I]. simpl Zdigits2 in Hmag. lia.
Qed.

(** A mantissa far enough above the underflow threshold never rounds to
    zero, whatever the location of the discarded part. *)
Lemma binary_round_aux_nonzero (s : bool) (M E : Z) (l : location) :
  0 < M -> E <= fexp (Zdigits2 M + E) -> -1074 < Zdigits2 M + E ->
  exists m e, binary_round_aux prec emax s M E l =
              (if e <=? 971 then S754_finite s m e else S754_infinity s) /\
              Zdigits2 M + E <= Zpos (digits2_pos m) + e.
Proof.
  intros HM Hal Hmag.
  destruct (binary_round_aux_aligned s M E l HM Hal)
    as [[_ Hq]|(m & e & Hres & _ & _ & _ & Hm)].
  - exfalso. pose proof (Zdigits2_pos M HM).
    assert (Hn : fexp (Zdigits2 M + E) - E < Zdigits2 M) by (rewrite fexp_eq; lia).
    pose proof (Zdigits2_div_pow2 M (fexp (Zdigits2 M + E) - E) HM ltac:(lia)) as Hdq.
    rewrite Hq in Hdq. simpl in Hdq. lia.
  - exists m, e. split; [exact Hres | lia].
Qed.

Lemma valid_digits (s : bool) (m : positive) (e : Z) :
  valid_binary (S754_finite s m e) = true ->
  1 <= Zpos (digits2_pos m) <= 53 /\ -1074 <= e /\
  (Zpos (digits2_pos m) = 53 \/ e = -1074).
Proof.
  intros H. apply valid_finite_inv in H as [Hc He]. rewrite fexp_eq in Hc. lia.
Qed.

(** The product of two finite non-zero floats carries the product sign and
    at least the sum of the magnitudes minus one, unless it underflows. *)
Lemma mul_sign_magnitude (x y : float) (sx sy : bool) (mx my : positive)
    (ex ey : Z) :
  Prim2SF x = S754_finite sx mx ex -> Prim2SF y = S754_finite sy my ey ->
  let k := Zpos (digits2_pos mx) + ex + (Zpos (digits2_pos my) + ey) - 1 in
  -1074 < k ->
  exists m e,
    Prim2SF (x * y)%float =
      (if e <=? 971 then S754_finite (xorb sx sy) m e
       else S754_infinity (xorb sx sy)) /\
    k <= Zpos (digits2_pos m) + e.
Proof.
  intros Px Py k Hk.
  pose proof (Prim2SF_valid x) as Vx. pose proof (Prim2SF_valid y) as Vy.
  rewrite Px in Vx. rewrite Py in Vy.
  apply valid_digits in Vx as (Dx & Ex & Cx). apply valid_digits in Vy as (Dy & Ey & Cy).
  rewrite mul_spec, Px, Py. unfold SF64mul, SFmul. rewrite Pos2Z.inj_mul.
  set (M := Zpos mx * Zpos my).
  assert (HM : 0 < M) by (unfold M; lia).
  assert (Hd : Zpos (digits2_pos mx) + Zpos (digits2_pos my) - 1 <= Zdigits2 M).
  { unfold M. rewrite Zdigits2_log2 by lia.
    change (Zpos (digits2_pos mx)) with (Zdigits2 (Zpos mx)).
    change (Zpos (digits2_pos my)) with (Zdigits2 (Zpos my)).
    rewrite !Zdigits2_log2 by lia.
    pose proof (Z.log2_mul_below (Zpos mx) (Zpos my) ltac:(lia) ltac:(lia)). lia. }
  destruct (binary_round_aux_nonzero (xorb sx sy) M (ex + ey) loc_Exact HM)
    as (m & e & Hres & Hm).
  - rewrite fexp_eq. lia.
  - unfold k in Hk. lia.
  - exists m, e. split; [exact Hres | unfold k; lia].
Qed.

(** The quotient of two finite non-zero floats carries the quotient sign
    and at least the difference of the magnitudes, unless it underflows. *)
Lemma div_sign_magnitude (x y : float) (sx sy : bool) (mx my : positive)
    (ex ey : Z) :
  Prim2SF x = S754_finite sx mx ex -> Prim2SF y = S754_finite sy my ey ->
  let mu := Zpos (digits2_pos mx) + ex - (Zpos (digits2_pos my) + ey) in
  -1021 <= mu ->
  exists m e,
    Prim2SF (x / y)%float =
      (if e <=? 971 then S754_finite (xorb sx sy) m e
       else S754_infinity (xorb sx sy)) /\
    mu <= Zpos (digits2_pos m) + e.
Proof.
  intros Px Py mu Hmu.
  pose proof (Prim2SF_valid x) as Vx. pose proof (Prim2SF_valid y) as Vy.
  rewrite Px in Vx. rewrite Py in Vy.
  apply valid_digits in Vx as (Dx & Ex & Cx). apply valid_digits in Vy as (Dy & Ey & Cy).
  rewrite div_spec, Px, Py. unfold SF64div, SFdiv, SFdiv_core_binary.
  cbn [Zdigits2]. fold mu.
  set (dx := Zpos (digits2_pos mx)) in *. set (dy := Zpos (digits2_pos my)) in *.
  replace (dx + ex - (dy + ey)) with mu by (unfold mu; lia).
  assert (He' : IntDef.Z.min (fexp mu) (ex - ey) = mu - 53).
  { change (IntDef.Z.min (fexp mu) (ex - ey)) with (Z.min (fexp mu) (ex - ey)).
    rewrite fexp_eq. unfold mu. lia. }
  rewrite He'.
  replace (ex - ey - (mu - 53)) with (53 - dx + dy) by (unfold mu; lia).
  destruct (53 - dx + dy) as [|sh|sh] eqn:Esh; try lia.
  change (IntDef.Z.shiftl (Zpos mx) (Zpos sh)) with (Z.shiftl (Zpos mx) (Zpos sh)).
  change (IntDef.Z.div_eucl (Z.shiftl (Zpos mx) (Zpos sh)) (Zpos my))
    with (Z.div_eucl (Z.shiftl (Zpos mx) (Zpos sh)) (Zpos my)).
  rewrite Z.shiftl_mul_pow2 by lia. rewrite <- Esh.
  set (M' := Zpos mx * 2 ^ (53 - dx + dy)).
  assert (Hq : fst (Z.div_eucl M' (Zpos my)) = M' / Zpos my) by reflexivity.
  destruct (Z.div_eucl M' (Zpos my)) as [q r]. cbn [fst] in Hq. subst q.
  pose proof (digits2_pos_bounds mx) as [Lx _]. fold dx in Lx.
  pose proof (digits2_pos_bounds my) as [_ Uy]. fold dy in Uy.
  assert (HM' : 2 ^ (52 + dy) <= M').
  { unfold M'. replace (52 + dy) with (dx - 1 + (53 - dx + dy)) by lia.
    rewrite Z.pow_add_r by lia. apply Z.mul_le_mono_nonneg_r; [|exact Lx].
    apply Z.pow_nonneg. lia. }
  assert (Hq52 : 2 ^ 52 <= M' / Zpos my).
  { apply Z.div_le_lower_bound; [lia|].
    rewrite Z.pow_add_r in HM' by lia.
    assert (Zpos my * 2 ^ 52 <= 2 ^ dy * 2 ^ 52)
      by (apply Z.mul_le_mono_nonneg_r; lia).
    lia. }
  set (q := M' / Zpos my) in *.
  pose proof (Zdigits2_ge_pow2 q 52 ltac:(lia) Hq52) as Hdq.
  destruct (binary_round_aux_nonzero (xorb sx sy) q (mu - 53)
              (new_location (Zpos my) r) ltac:(lia))
    as (m & e & Hres & Hm).
  - rewrite fexp_eq. lia.
  - lia.
  - exists m, e. split; [exact Hres | lia].
Qed.

Lemma leb_1_magnitude (x : float) :
  (1 <=? x)%float = true ->
  Prim2SF x = S754_infinity false \/
  exists m e, Prim2SF x = S754_finite false m e /\ 1 <= Zpos (digits2_pos m) + e.
Proof.
  rewrite leb_spec. change (Prim2SF 1) with (S754_finite false 4503599627370496 (-52)).
  pose proof (Prim2SF_valid x) as V.
  destruct (Prim2SF x) as [s|[|]| |[|] m e]; unfold SFleb, SFcompare;
    try discriminate; auto.
  apply valid_digits in V as (D & E & C).
  change (PosDef.Pos.compare_cont Eq 4503599627370496 m)
    with (Pos.compare 4503599627370496 m).
  intros H. right. exists m, e. split; [reflexivity|].
  destruct (Z.compare_spec (-52) e) as [<-|Hlt|Hgt]; try discriminate; [|lia].
  assert (Hm : (4503599627370496 <= m)%positive).
  { destruct (Pos.compare_spec 4503599627370496 m); try discriminate; lia. }
  pose proof (Zdigits2_ge_pow2 (Zpos m) 52 ltac:(lia) ltac:(change (2 ^ 52) with 4503599627370496; lia)).
  simpl Zdigits2 in *. lia.
Qed.

(** The wastage cost of a negative wastage rate: for a raw cost of at least
    one unit, [raw * ((w - k) / 100)] is negative whenever [w < k], [k]
    being a positive normal float of exponent [-60] or more. *)
Lemma negative_rate_cost (raw w k : float) (mk : positive) (ek : Z) :
  normal k false mk ek -> -60 <= ek ->
  (1 <=? raw)%float = true -> (w <? k)%float = true ->
  (raw * ((w - k) / 100) <? 0)%float = true.
Proof.
  intros Hk Hek Hraw Hlt. apply negative_ltb_0.
  destruct (sub_negative_magnitude w k mk ek Hk ltac:(lia) Hlt) as [Hneg Hmag].
  assert (Hrate : Prim2SF ((w - k) / 100)%float = S754_infinity true \/
                  exists m e, Prim2SF ((w - k) / 100)%float = S754_finite true m e /\
                              ek - 7 <= Zpos (digits2_pos m) + e).
  { inversion Hneg as [m e Hw|Hw].
    - symmetry in Hw. rewrite Hw in Hmag. cbn [magnitude_ge] in Hmag.
      destruct (div_sign_magnitude (w - k) 100 true false m 7036874417766400 e (-46)
                  Hw eq_refl) as (m' & e' & Hres & Hm').
      + change (Zpos (digits2_pos 7036874417766400)) with 53. lia.
      + rewrite Hres. cbn [xorb].
        change (Zpos (digits2_pos 7036874417766400)) with 53 in Hm'.
        destruct (e' <=? 971); [right; exists m', e'; split; [reflexivity | lia] | auto].
    - left. rewrite div_spec, <- Hw. reflexivity. }
  destruct (leb_1_magnitude raw Hraw) as [Praw|(mr & er & Praw & Hr)];
    destruct Hrate as [Prate|(m & e & Prate & Hm)].
  - rewrite mul_spec, Praw, Prate. constructor.
  - rewrite mul_spec, Praw, Prate. constructor.
  - rewrite mul_spec, Praw, Prate. constructor.
  - destruct (mul_sign_magnitude _ _ _ _ _ _ _ _ Praw Prate ltac:(lia))
      as (m' & e' & -> & _).
    cbn [xorb]. destruct (e' <=? 971); constructor.
Qed.

(** *** Truncation to an int *)

(** A float that is not negative: a zero or a positive finite number. *)
Variant finite_nonneg : spec_float -> Prop :=
| finite_nonneg_zero s : finite_nonneg (S754_zero s)
| finite_nonneg_pos m e : finite_nonneg (S754_finite false m e).

(** [int(p) <= p < int(p) + 1] for a non-negative [p]. *)
Lemma int_of_float_floor (p : float) (n : Z) :
  finite_nonneg (Prim2SF p) -> int_of_float p = Ok n ->
  0 <= n /\ int_le_float n p = true /\ int_gt_float (n + 1) p = true.
Proof.
  unfold int_of_float, int_le_float, int_gt_float, compare_int_float.
  intros H. inversion H as [s Hs|m e Hs]; intros [= <-].
  - repeat split; reflexivity.
  - cbn [cond_Zopp]. 
    destruct (Z_le_gt_dec 0 e) as [He|He].
    + rewrite Z.shiftl_mul_pow2 by lia.
      replace (Z.max 0 (- e)) with 0 by lia. replace (Z.max 0 e) with e by lia.
      rewrite !Z.mul_1_r. assert (0 < 2 ^ e) by (apply Z.pow_pos_nonneg; lia).
      rewrite Z.compare_refl. split; [nia|]. split; [reflexivity|].
      destruct (_ ?= _) eqn:C; try reflexivity.
      * apply Z.compare_eq in C. lia.
      * rewrite Z.compare_lt_iff in C. lia.
    + assert (Hsh : Z.shiftl (Zpos m) e = Zpos m / 2 ^ (- e)).
      { rewrite <- (Z.opp_involutive e) at 1.
        rewrite Z.shiftl_opp_r, Z.shiftr_div_pow2 by lia. reflexivity. }
      rewrite Hsh.
      replace (Z.max 0 (- e)) with (- e) by lia. replace (Z.max 0 e) with 0 by lia.
      rewrite !Z.mul_1_r.
      assert (Hp : 0 < 2 ^ (- e)) by (apply Z.pow_pos_nonneg; lia).
      pose proof (Z.div_mod (Zpos m) (2 ^ (- e)) ltac:(lia)) as Hdm.
      pose proof (Z.mod_pos_bound (Zpos m) (2 ^ (- e)) Hp) as Hb.
      assert (0 <= Zpos m / 2 ^ (- e)) by (apply Z.div_pos; lia).
      split; [assumption|]. split.
      * destruct (_ ?= _) eqn:C; try reflexivity.
        rewrite Z.compare_gt_iff in C. nia.
      * destruct (_ ?= _) eqn:C; try reflexivity.
        -- apply Z.compare_eq in C. nia.
        -- rewrite Z.compare_lt_iff in C. nia.
Qed.

Lemma int_le_float_mono (u n : Z) (p : float) :
  u <= n -> int_le_float n p = true -> int_le_float u p = true.
Proof.
  unfold int_le_float, compare_int_float. intros Hle.
  destruct (Prim2SF p) as [s|s| |s m e]; try discriminate.
  - destruct (n ?= 0) eqn:C; try discriminate; intros _.
    + apply Z.compare_eq in C. destruct (u ?= 0) eqn:C'; try reflexivity.
      rewrite Z.compare_gt_iff in C'. lia.
    + rewrite Z.compare_lt_iff in C. destruct (u ?= 0) eqn:C'; try reflexivity.
      rewrite Z.compare_gt_iff in C'. lia.
  - destruct s; auto.
  - assert (Hp : 0 < 2 ^ Z.max 0 (- e)) by (apply Z.pow_pos_nonneg; lia).
    set (rhs := cond_Zopp s (Zpos m) * 2 ^ Z.max 0 e).
    destruct (n * 2 ^ Z.max 0 (- e) ?= rhs) eqn:C; try discriminate; intros _;
      destruct (u * 2 ^ Z.max 0 (- e) ?= rhs) eqn:C'; try reflexivity;
      rewrite Z.compare_gt_iff in C';
      (apply Z.compare_eq in C || rewrite Z.compare_lt_iff in C); nia.
Qed.

(** The product of a converted non-negative int and a non-negative float
    is not negative, whenever it is finite. *)
Lemma mul_nonneg (z : Z) (x pct : float) (n : Z) :
  0 <= z -> float_of_int z = Ok x -> (0 <=? pct)%float = true ->
  int_of_float (x * pct)%float = Ok n -> finite_nonneg (Prim2SF (x * pct)%float).
Proof.
  intros Hz Hx Hpct. unfold int_of_float. rewrite mul_spec.
  rewrite leb_spec in Hpct. change (Prim2SF 0) with (S754_zero false) in Hpct.
  assert (Hxs : Prim2SF x = S754_zero false \/ exists m e, Prim2SF x = S754_finite false m e).
  { destruct (Z.eq_dec z 0) as [->|Hnz].
    - left. now apply float_of_int_0.
    - right. destruct (float_of_int_nonzero z x Hnz Hx) as (m & e & (Hn & _) & _).
      replace (z <? 0) with false in Hn by (symmetry; apply Z.ltb_ge; lia). eauto. }
  destruct Hxs as [->|(m & e & ->)];
    destruct (Prim2SF pct) as [s|[|]| |[|] m' e']; try discriminate;
    unfold SF64mul; cbn [SFmul xorb]; try discriminate; try (intros _; constructor).
  pose proof (binary_round_aux_sign false (Zpos (m * m')) (e + e') loc_Exact ltac:(lia)) as Hs.
  inversion Hs as [H|m'' e'' H|H]; try discriminate; intros _; constructor.
Qed.

(** Multiplying a converted int of magnitude below [2 ^ 1023] by a normal
    float smaller than one cannot overflow. *)
Lemma mul_fraction_finite (z : Z) (x c : float) (mc : positive) (ec : Z) :
  0 <= z -> float_of_int z = Ok x -> normal c false mc ec ->
  -1074 <= ec <= -53 -> (ec = -53 -> Zpos mc < 2 ^ 53 - 1) ->
  exists n, int_of_float (x * c)%float = Ok n.
Proof.
  intros Hz Hx Hc Hec Hmc. unfold int_of_float.
  destruct (Z.eq_dec z 0) as [->|Hnz].
  - apply float_of_int_0 in Hx. rewrite mul_spec, Hx.
    destruct Hc as (-> & _). cbn. eauto.
  - destruct (float_of_int_nonzero z x Hnz Hx) as (mx & ex & Hn & Hex).
    replace (z <? 0) with false in Hn by (symmetry; apply Z.ltb_ge; lia).
    pose proof (normal_mantissa_bounds _ _ _ _ Hn) as Bx.
    assert (Hex' : ex <= 971) by apply Hn.
    destruct (mul_normal x c mx mc ex ec Hn Hc ltac:(lia))
      as (Hd & m & e & Hres & He & Hsw & Hdm).
    cbv zeta in *. set (M := Zpos mx * Zpos mc) in *. set (d := Zdigits2 M) in *.
    assert (Hfin : e <= 971).
    { destruct (Z.eq_dec d 105) as [E|NE]; [lia|].
      assert (E : d = 106) by lia. clearbody d. subst d.
      destruct (Z.eq_dec ec (-53)) as [->|]; [|lia]. specialize (Hmc eq_refl).
      destruct (Z.eq_dec e (106 + (ex + -53) - 53)) as [|Hne]; [lia|].
      exfalso. replace (e - (106 + (ex + -53) - 53)) with 1 in Hsw by lia.
      change (2 ^ 1) with 2 in Hsw.
      pose proof (digits2_pos_bounds m) as [Hl _]. rewrite Hdm in Hl.
      assert (M / 2 ^ (106 - 53) < 2 ^ 53 - 1); [|change (2 ^ (53 - 1)) with (2 ^ 52) in Hl; lia].
      apply Z.div_lt_upper_bound; [reflexivity|]. unfold M.
      change (2 ^ (106 - 53)) with (2 ^ 53).
      assert (Zpos mx * Zpos mc < 2 ^ 53 * Zpos mc) by (apply Z.mul_lt_mono_pos_r; lia).
      assert (2 ^ 53 * Zpos mc <= 2 ^ 53 * (2 ^ 53 - 1 - 1)) by (apply Z.mul_le_mono_nonneg_l; lia).
      lia. }
    rewrite Hres. replace (e <=? 971) with true by (symmetry; apply Z.leb_le; lia).
    eauto.
Qed.

(** *** Exact quotients *)

(** [m / m] on ints is exactly [1.0]. *)
Lemma int_truediv_self (m : Z) : m <> 0 -> int_truediv m m = Ok 1%float.
Proof.
  intros Hm. unfold int_truediv.
  destruct (Z.eqb_spec m 0) as [|_]; [contradiction|].
  assert (H : forall s p, SF64div (S754_finite s p 0) (S754_finite s p 0)
                          = S754_finite false 4503599627370496 (-52)).
  { intros s p. unfold SF64div, SFdiv, SFdiv_core_binary.
    replace (Zdigits2 (Z.pos p) + 0 - (Zdigits2 (Z.pos p) + 0)) with 0 by lia.
    change (0 - 0 - IntDef.Z.min (fexp 0) (0 - 0)) with 53.
    change (IntDef.Z.min (fexp 0) (0 - 0)) with (-53).
    cbv iota.
    change (IntDef.Z.shiftl (Z.pos p) 53) with (Z.shiftl (Z.pos p) 53).
    change (IntDef.Z.div_eucl (Z.shiftl (Z.pos p) 53) (Z.pos p))
      with (Z.div_eucl (Z.shiftl (Z.pos p) 53) (Z.pos p)).
    rewrite Z.shiftl_mul_pow2 by lia.
    pose proof (Z.div_mul (2 ^ 53) (Z.pos p) ltac:(lia)) as Eq.
    pose proof (Z.mod_mul (2 ^ 53) (Z.pos p) ltac:(lia)) as Er.
    rewrite (Z.mul_comm (Z.pos p)). unfold Z.div, Z.modulo in Eq, Er.
    destruct (Z.div_eucl (2 ^ 53 * Z.pos p) (Z.pos p)) as [q r].
    subst q r.
    destruct s; unfold new_location, new_location_even, new_location_odd;
      destruct (Z.even (Z.pos p)); reflexivity. }
  destruct m as [|p|p]; [contradiction| |]; simpl Z2SF; rewrite H; reflexivity.
Qed.

End Binary64.

(* ===================================================================== *)
(** * The mess model: derived metrics *)
(* ===================================================================== *)

Module MessFacts.
Import Mess.

(** Every derived property is a function of the two int conversions
    [float(total_students)] and [float(days_in_month)]. *)
Ltac unfold_properties :=
  unfold profit_margin, profit, total_cost, total_fixed_costs,
    total_variable_costs, monthly_wastage_cost, monthly_raw_food_cost,
    total_revenue, int_mul_float, float_mul_int in *.

Ltac by_conversions a :=
  unfold_properties;
  destruct (float_of_int (total_students a)) as [xs|es] eqn:Es;
  destruct (float_of_int (days_in_month a)) as [xd|ed] eqn:Ed;
  cbn [bind] in *.

Lemma total_revenue_ok (a : MessAssumptions) (r : float) :
  total_revenue a = Ok r ->
  exists s, float_of_int (total_students a) = Ok s /\
            r = (s * monthly_fee_per_student a)%float.
Proof. by_conversions a; intros [= <-]; eauto. Qed.

Lemma profit_ok (a : MessAssumptions) (p : float) :
  profit a = Ok p ->
  exists s d, float_of_int (total_students a) = Ok s /\
              float_of_int (days_in_month a) = Ok d.
Proof. by_conversions a; intros [= <-]; eauto. Qed.

(** C4.  [profit_margin] is [(profit / total_revenue) * 100] when the
    revenue is non-zero and the int [0] when it is zero; it never raises
    [ZeroDivisionError], and it returns a value unless the student count or
    the number of days does not fit in a float (an [OverflowError] of the
    conversion, only for ints of magnitude [2 ^ 1023] or more). *)
Theorem profit_margin_guarded (a : MessAssumptions) :
  (forall r p, total_revenue a = Ok r -> profit a = Ok p ->
     float_truthy r = true ->
     profit_margin a = Ok (Float (p / r * 100)%float)) /\
  (forall r, total_revenue a = Ok r -> (r =? 0)%float = true ->
     profit_margin a = Ok (Int 0)) /\
  profit_margin a <> Raise ZeroDivisionError /\
  (forall e, profit_margin a = Raise e ->
     e = OverflowError /\
     (float_of_int (total_students a) = Raise OverflowError \/
      float_of_int (days_in_month a) = Raise OverflowError)) /\
  (Z.abs (total_students a) < 2 ^ 1023 -> Z.abs (days_in_month a) < 2 ^ 1023 ->
     exists v, profit_margin a = Ok v).
Proof.
  assert (Hraise : forall e, profit_margin a = Raise e ->
     e = OverflowError /\
     (float_of_int (total_students a) = Raise OverflowError \/
      float_of_int (days_in_month a) = Raise OverflowError)).
  { intros e. by_conversions a.
    - destruct (float_truthy _) eqn:T; [|discriminate].
      unfold float_truediv. unfold float_truthy in T.
      destruct (_ =? 0)%float; discriminate.
    - destruct (float_truthy _); [|discriminate].
      intros [= <-]. pose proof (float_of_int_raise _ _ Ed) as ->. auto.
    - intros [= <-]. pose proof (float_of_int_raise _ _ Es) as ->. auto.
    - intros [= <-]. pose proof (float_of_int_raise _ _ Es) as ->. auto. }
  split; [|split; [|split; [|split]]].
  - intros r p Hr Hp T. unfold profit_margin. rewrite Hr. cbn [bind].
    rewrite T, Hp. cbn [bind].
    rewrite float_truediv_truthy by assumption. reflexivity.
  - intros r Hr Z. unfold profit_margin. rewrite Hr. cbn [bind].
    unfold float_truthy. rewrite Z. reflexivity.
  - intros H. apply Hraise in H as [H _]. discriminate.
  - exact Hraise.
  - intros Hs Hd.
    destruct (Binary64.float_of_int_ok _ Hs) as (s & Es).
    destruct (Binary64.float_of_int_ok _ Hd) as (d & Ed).
    destruct (profit_margin a) as [v|e] eqn:E; [eauto|].
    destruct (Hraise e eq_refl) as (_ & [E'|E']); congruence.
Qed.

Lemma profit_margin_guarded_witness :
  profit_margin defaults = Ok (Float (514400 / 2925000 * 100)%float) /\
  profit_margin {| total_students := 0; monthly_fee_per_student := 4500;
                   days_in_month := 30; daily_food_cost_per_student := 90;
                   food_wastage_pct := 12; lpg_fuel_monthly := 55000;
                   water_monthly := 18000;
                   packaging_disposables_monthly := 12000;
                   staff_salaries := 220000; electricity := 45000;
                   maintenance := 20000; rent := 60000;
                   insurance_misc := 15000 |} = Ok (Int 0).
Proof.
  split.
  - apply (proj1 (profit_margin_guarded defaults)); reflexivity.
  - apply (proj1 (proj2 (profit_margin_guarded _)) 0%float); reflexivity.
Defined.

(** C9.  The end-to-end example: the default assumptions (650 students,
    fee 4500, daily food cost 90, 30 days, 12% wastage, ...) give raw food
    cost 1,755,000, wastage cost 210,600, revenue 2,925,000, variable costs
    2,050,600, fixed costs 360,000, total cost 2,410,600, profit 514,400 and
    a margin of 17.586..., which is 17.59 to two decimals. *)
Theorem default_mess_example :
  let a := {| total_students := 650; monthly_fee_per_student := 4500;
              days_in_month := 30; daily_food_cost_per_student := 90;
              food_wastage_pct := 12; lpg_fuel_monthly := 55000;
              water_monthly := 18000;
              packaging_disposables_monthly := 12000;
              staff_salaries := 220000; electricity := 45000;
              maintenance := 20000; rent := 60000;
              insurance_misc := 15000 |} in
  monthly_raw_food_cost a = Ok 1755000%float /\
  monthly_wastage_cost a = Ok 210600%float /\
  total_revenue a = Ok 2925000%float /\
  total_variable_costs a = Ok 2050600%float /\
  total_fixed_costs a = Ok 360000%float /\
  total_cost a = Ok 2410600%float /\
  profit a = Ok 514400%float /\
  exists pm, profit_margin a = Ok (Float pm) /\
             (17.585 <? pm)%float = true /\ (pm <? 17.595)%float = true /\
             round2 (Float pm) = Float 17.59.
Proof.
  cbv zeta. repeat split; try (vm_compute; reflexivity).
  exists 17.586324786324788%float. repeat split; vm_compute; reflexivity.
Qed.

(* --------------------------------------------------------------------- *)
(** ** The scenario generator *)

(** The derived metrics of the specification (section 4.1), written from its
    formulas; [0] stands for the margin when the revenue is zero. *)
Record DerivedMetrics : Set := {
  dm_monthly_raw_food_cost : float;
  dm_monthly_wastage_cost : float;
  dm_total_variable_costs : float;
  dm_total_fixed_costs : float;
  dm_total_revenue : float;
  dm_total_cost : float;
  dm_profit : float;
  dm_profit_margin_pct : num
}.

Definition deriveMessMetrics (a : MessAssumptions) : result DerivedMetrics :=
  students <- float_of_int (total_students a) ;;
  days <- float_of_int (days_in_month a) ;;
  let raw := (students * daily_food_cost_per_student a * days)%float in
  let wastage := (raw * (food_wastage_pct a / 100))%float in
  let variable := (raw + wastage + lpg_fuel_monthly a + water_monthly a
                   + packaging_disposables_monthly a)%float in
  let fixed := (staff_salaries a + electricity a + maintenance a + rent a
                + insurance_misc a)%float in
  let revenue := (students * monthly_fee_per_student a)%float in
  let cost := (variable + fixed)%float in
  let profit := (revenue - cost)%float in
  Ok {| dm_monthly_raw_food_cost := raw;
        dm_monthly_wastage_cost := wastage;
        dm_total_variable_costs := variable;
        dm_total_fixed_costs := fixed;
        dm_total_revenue := revenue;
        dm_total_cost := cost;
        dm_profit := profit;
        dm_profit_margin_pct :=
          if (revenue =? 0)%float then Int 0
          else Float (profit / revenue * 100)%float |}.

(** The metrics deriver of the code computes the metrics of the
    specification. *)
Lemma properties_refine_spec (a : MessAssumptions) (d : DerivedMetrics) :
  deriveMessMetrics a = Ok d ->
  monthly_raw_food_cost a = Ok (dm_monthly_raw_food_cost d) /\
  monthly_wastage_cost a = Ok (dm_monthly_wastage_cost d) /\
  total_variable_costs a = Ok (dm_total_variable_costs d) /\
  total_fixed_costs a = Ok (dm_total_fixed_costs d) /\
  total_revenue a = Ok (dm_total_revenue d) /\
  total_cost a = Ok (dm_total_cost d) /\
  profit a = Ok (dm_profit d) /\
  profit_margin a = Ok (dm_profit_margin_pct d).
Proof.
  unfold deriveMessMetrics. by_conversions a; try discriminate.
  intros [= <-]. cbn. repeat split.
  unfold float_truthy, float_truediv.
  destruct (_ =? 0)%float; reflexivity.
Qed.

(** What a snapshot holds, in terms of the metrics of the specification:
    every amount as derived, the margin rounded to two decimals. *)
Definition rounded_snapshot (name : string) (d : DerivedMetrics) : Scenario :=
  {| Scenario_name := name;
     Revenue := dm_total_revenue d;
     Variable_Costs := dm_total_variable_costs d;
     Fixed_Costs := dm_total_fixed_costs d;
     Total_Cost := dm_total_cost d;
     Profit := dm_profit d;
     Profit_Margin_pct := round2 (dm_profit_margin_pct d) |}.

Lemma _snap_spec (name : string) (a : MessAssumptions) :
  _snap name a = (d <- deriveMessMetrics a ;; Ok (rounded_snapshot name d)).
Proof.
  unfold _snap, deriveMessMetrics. by_conversions a; try reflexivity.
  unfold float_truthy, float_truediv.
  destruct (_ =? 0)%float; reflexivity.
Qed.

Lemma deriveMessMetrics_ok (a : MessAssumptions) :
  Z.abs (total_students a) < 2 ^ 1023 -> Z.abs (days_in_month a) < 2 ^ 1023 ->
  exists d, deriveMessMetrics a = Ok d.
Proof.
  intros Hs Hd. unfold deriveMessMetrics.
  destruct (Binary64.float_of_int_ok _ Hs) as (s & ->).
  destruct (Binary64.float_of_int_ok _ Hd) as (d & ->). cbn. eauto.
Qed.

(** *** The variant objects as updates of the base *)

Definition reset_days (a : MessAssumptions) : MessAssumptions :=
  {| total_students := total_students a;
     monthly_fee_per_student := monthly_fee_per_student a;
     days_in_month := default_days_in_month;
     daily_food_cost_per_student := daily_food_cost_per_student a;
     food_wastage_pct := food_wastage_pct a;
     lpg_fuel_monthly := lpg_fuel_monthly a;
     water_monthly := water_monthly a;
     packaging_disposables_monthly := packaging_disposables_monthly a;
     staff_salaries := staff_salaries a;
     electricity := electricity a;
     maintenance := maintenance a;
     rent := rent a;
     insurance_misc := insurance_misc a |}.

Definition with_wastage (w : float) (a : MessAssumptions) : MessAssumptions :=
  {| total_students := total_students a;
     monthly_fee_per_student := monthly_fee_per_student a;
     days_in_month := days_in_month a;
     daily_food_cost_per_student := daily_food_cost_per_student a;
     food_wastage_pct := w;
     lpg_fuel_monthly := lpg_fuel_monthly a;
     water_monthly := water_monthly a;
     packaging_disposables_monthly := packaging_disposables_monthly a;
     staff_salaries := staff_salaries a;
     electricity := electricity a;
     maintenance := maintenance a;
     rent := rent a;
     insurance_misc := insurance_misc a |}.

Definition with_fee (fee : float) (a : MessAssumptions) : MessAssumptions :=
  {| total_students := total_students a;
     monthly_fee_per_student := fee;
     days_in_month := days_in_month a;
     daily_food_cost_per_student := daily_food_cost_per_student a;
     food_wastage_pct := food_wastage_pct a;
     lpg_fuel_monthly := lpg_fuel_monthly a;
     water_monthly := water_monthly a;
     packaging_disposables_monthly := packaging_disposables_monthly a;
     staff_salaries := staff_salaries a;
     electricity := electricity a;
     maintenance := maintenance a;
     rent := rent a;
     insurance_misc := insurance_misc a |}.

(** LPG, water, electricity and maintenance scaled by [factor]. *)
Definition with_efficiency (factor : float) (a : MessAssumptions)
  : MessAssumptions :=
  {| total_students := total_students a;
     monthly_fee_per_student := monthly_fee_per_student a;
     days_in_month := days_in_month a;
     daily_food_cost_per_student := daily_food_cost_per_student a;
     food_wastage_pct := food_wastage_pct a;
     lpg_fuel_monthly := (lpg_fuel_monthly a * factor)%float;
     water_monthly := (water_monthly a * factor)%float;
     packaging_disposables_monthly := packaging_disposables_monthly a;
     staff_salaries := staff_salaries a;
     electricity := (electricity a * factor)%float;
     maintenance := (maintenance a * factor)%float;
     rent := rent a;
     insurance_misc := insurance_misc a |}.

Lemma efficiency_factor_values :
  efficiency_factor 2 = Ok (1 - 2 / 100)%float /\
  efficiency_factor 5 = Ok (1 - 5 / 100)%float /\
  efficiency_factor 8 = Ok (1 - 8 / 100)%float.
Proof. repeat split; vm_compute; reflexivity. Qed.

(** The ten variants of the generator: each is the base with
    [days_in_month] reset to the default and the scenario's overrides. *)
Lemma variants_eq (base : MessAssumptions) :
  variants base =
  [ Ok (with_wastage (food_wastage_pct base - 5) (reset_days base));
    Ok (with_wastage (food_wastage_pct base - 10) (reset_days base));
    Ok (with_wastage (food_wastage_pct base - 15) (reset_days base));
    Ok (with_efficiency (1 - 2 / 100) (reset_days base));
    Ok (with_efficiency (1 - 5 / 100) (reset_days base));
    Ok (with_efficiency (1 - 8 / 100) (reset_days base));
    Ok (with_fee (monthly_fee_per_student base + 100) (reset_days base));
    Ok (with_fee (monthly_fee_per_student base + 200) (reset_days base));
    Ok (with_fee (monthly_fee_per_student base + 300) (reset_days base));
    Ok (with_wastage (food_wastage_pct base - 10)
         (with_fee (monthly_fee_per_student base + 200)
            (with_efficiency 0.95 (reset_days base)))) ].
Proof. reflexivity. Qed.

(** The generator in terms of the metrics of the specification. *)
Definition snapshot_of (name : string) (v : result MessAssumptions)
  : result Scenario :=
  m <- v ;; d <- deriveMessMetrics m ;; Ok (rounded_snapshot name d).

Lemma run_optimizations_eq (base : MessAssumptions) :
  run_optimizations base =
  (s0 <- snapshot_of "Base Case (Current)" (Ok base) ;;
   rest <- for_each (fun nv => snapshot_of (fst nv) (snd nv))
             (combine
                [wastage_name 5; wastage_name 10; wastage_name 15;
                 efficiency_name 2; efficiency_name 5; efficiency_name 8;
                 pricing_name 100; pricing_name 200; pricing_name 300;
                 "Combined Optimized Scenario"%string]
                (variants base)) ;;
   Ok (s0 :: rest)).
Proof.
  unfold run_optimizations, snapshot_of. rewrite variants_eq.
  cbn [bind for_each combine fst snd]. rewrite !_snap_spec.
  change (wastage_variant base 5) with (nth 0 (variants base) (Raise ValueError)).
  change (wastage_variant base 10) with (nth 1 (variants base) (Raise ValueError)).
  change (wastage_variant base 15) with (nth 2 (variants base) (Raise ValueError)).
  change (efficiency_variant base 2) with (nth 3 (variants base) (Raise ValueError)).
  change (efficiency_variant base 5) with (nth 4 (variants base) (Raise ValueError)).
  change (efficiency_variant base 8) with (nth 5 (variants base) (Raise ValueError)).
  change (pricing_variant base 100) with (nth 6 (variants base) (Raise ValueError)).
  change (pricing_variant base 200) with (nth 7 (variants base) (Raise ValueError)).
  change (pricing_variant base 300) with (nth 8 (variants base) (Raise ValueError)).
  change (combined_variant base) with (nth 9 (variants base) (Raise ValueError)).
  rewrite variants_eq. cbn [nth bind]. rewrite !_snap_spec.
  repeat (match goal with
          | |- context [deriveMessMetrics ?m] =>
              destruct (deriveMessMetrics m); cbn [bind app]
          end);
  reflexivity.
Qed.

(** The generator returns its eleven scenarios whenever the student count
    and the number of days fit in a float. *)
Lemma run_optimizations_ok (base : MessAssumptions) :
  Z.abs (total_students base) < 2 ^ 1023 ->
  Z.abs (days_in_month base) < 2 ^ 1023 ->
  exists l, run_optimizations base = Ok l /\ List.length l = 11%nat.
Proof.
  intros Hs Hd. rewrite run_optimizations_eq, variants_eq. unfold snapshot_of.
  cbn [bind for_each combine fst snd].
  destruct (deriveMessMetrics_ok base Hs Hd) as (d0 & ->). cbn [bind].
  repeat (match goal with
          | |- context [deriveMessMetrics ?m] =>
              let H := fresh in
              destruct (deriveMessMetrics_ok m Hs ltac:(vm_compute; reflexivity))
                as (? & H);
              rewrite H; clear H; cbn [bind]
          end).
  eexists. split; reflexivity.
Qed.

(** *** Fields kept by the variants *)

(** Every variant agrees with the base on the six fields that no scenario
    overrides, and has [days_in_month] set to the dataclass default. *)
Lemma variants_frame (base : MessAssumptions) :
  Forall (fun v => exists m, v = Ok m /\
            total_students m = total_students base /\
            daily_food_cost_per_student m = daily_food_cost_per_student base /\
            packaging_disposables_monthly m = packaging_disposables_monthly base /\
            staff_salaries m = staff_salaries base /\
            rent m = rent base /\
            insurance_misc m = insurance_misc base /\
            days_in_month m = default_days_in_month)
         (variants base).
Proof.
  rewrite variants_eq.
  repeat (constructor; [eexists; split; [reflexivity|]; cbn; repeat split|]).
  constructor.
Qed.

(** The default assumptions in a month of 31 days. *)
Definition defaults_31_days : MessAssumptions :=
  {| total_students := 650; monthly_fee_per_student := 4500;
     days_in_month := 31; daily_food_cost_per_student := 90;
     food_wastage_pct := 12; lpg_fuel_monthly := 55000;
     water_monthly := 18000; packaging_disposables_monthly := 12000;
     staff_salaries := 220000; electricity := 45000;
     maintenance := 20000; rent := 60000; insurance_misc := 15000 |}.

(** C6.  The variants do not keep the base's [days_in_month]: for a base
    of 31 days every one of the ten variants has 30 days (the constructor
    calls leave the field out), so the fee-increase scenario reports
    variable costs of 2,050,600 against 2,116,120 for the base case although
    a fee increase overrides no cost field. *)
Theorem variants_drop_days_in_month :
  days_in_month defaults_31_days = 31 /\
  Forall (fun v => exists m, v = Ok m /\ days_in_month m = 30)
         (variants defaults_31_days) /\
  exists l s0 s7,
    run_optimizations defaults_31_days = Ok l /\
    nth_error l 0 = Some s0 /\ nth_error l 7 = Some s7 /\
    Scenario_name s7 = pricing_name 100 /\
    Variable_Costs s0 = 2116120%float /\
    Variable_Costs s7 = 2050600%float.
Proof.
  split; [reflexivity|]. split.
  - rewrite variants_eq.
    repeat (constructor; [eexists; split; reflexivity|]). constructor.
  - assert (E : exists l, run_optimizations defaults_31_days = Ok l)
      by (destruct (run_optimizations_ok defaults_31_days) as (l & H & _);
          [vm_compute; reflexivity | vm_compute; reflexivity | eauto]).
    destruct E as (l & E). exists l.
    assert (E' := E). vm_compute in E'. injection E' as <-.
    do 2 eexists. split; [exact E|]. repeat split.
Qed.

(** *** Wastage reduction without a floor *)

(** A mess without students whose wastage is 2%. *)
Definition empty_mess : MessAssumptions :=
  {| total_students := 0; monthly_fee_per_student := 4500;
     days_in_month := 30; daily_food_cost_per_student := 90;
     food_wastage_pct := 2; lpg_fuel_monthly := 55000;
     water_monthly := 18000; packaging_disposables_monthly := 12000;
     staff_salaries := 220000; electricity := 45000;
     maintenance := 20000; rent := 60000; insurance_misc := 15000 |}.

(** C7 (as stated) fails for a base whose raw food cost is zero: the
    5-point variant of [empty_mess] has wastage -3%, and its wastage cost
    is a zero, not a negative cost. *)
Lemma zero_raw_cost_wastage_not_negative :
  (food_wastage_pct empty_mess <? 5)%float = true /\
  exists m c,
    wastage_variant empty_mess 5 = Ok m /\
    food_wastage_pct m = (-3)%float /\
    monthly_wastage_cost m = Ok c /\
    (c <? 0)%float = false /\ (c =? 0)%float = true.
Proof.
  split; [reflexivity|]. do 2 eexists.
  split; [reflexivity|]. split; [reflexivity|].
  split; [vm_compute; reflexivity|]. split; reflexivity.
Qed.

Lemma reduction_floats :
  Binary64.normal 5 false 5629499534213120 (-50) /\
  Binary64.normal 10 false 5629499534213120 (-49) /\
  Binary64.normal 15 false 8444249301319680 (-49).
Proof. repeat split; vm_compute; congruence. Qed.

(** C7 (amended).  The three wastage variants hold exactly
    [food_wastage_pct - k] for [k] = 5, 10, 15, with no lower clamp.  When
    the base wastage is below [k] the variant's wastage is negative, its
    wastage cost is the raw food cost times that negative rate, and this
    cost is negative whenever the raw food cost is at least one unit. *)
Theorem wastage_variants_unclamped (base : MessAssumptions) (k : Z) :
  In k [5; 10; 15] ->
  exists (kf : float) (m : MessAssumptions),
    float_of_int k = Ok kf /\
    wastage_variant base k = Ok m /\
    m = with_wastage (food_wastage_pct base - kf) (reset_days base) /\
    ((food_wastage_pct base <? kf)%float = true ->
       (food_wastage_pct m <? 0)%float = true /\
       forall raw, monthly_raw_food_cost m = Ok raw ->
         monthly_wastage_cost m = Ok (raw * (food_wastage_pct m / 100))%float /\
         ((1 <=? raw)%float = true ->
            (raw * (food_wastage_pct m / 100) <? 0)%float = true)).
Proof.
  destruct reduction_floats as (N5 & N10 & N15).
  assert (Hgen : forall (kf : float) mk ek,
            Binary64.normal kf false mk ek -> -60 <= ek ->
            let m := with_wastage (food_wastage_pct base - kf) (reset_days base) in
            (food_wastage_pct base <? kf)%float = true ->
            (food_wastage_pct m <? 0)%float = true /\
            forall raw, monthly_raw_food_cost m = Ok raw ->
              monthly_wastage_cost m = Ok (raw * (food_wastage_pct m / 100))%float /\
              ((1 <=? raw)%float = true ->
                 (raw * (food_wastage_pct m / 100) <? 0)%float = true)).
  { intros kf mk ek Hn Hek m Hlt. split.
    - apply Binary64.negative_ltb_0, Binary64.sub_negative, Hlt.
    - intros raw Hraw. split.
      + unfold monthly_wastage_cost. rewrite Hraw. reflexivity.
      + intros H1. apply (Binary64.negative_rate_cost _ _ _ _ _ Hn Hek H1 Hlt). }
  intros [<-|[<-|[<-|[]]]].
  - exists 5%float. eexists. split; [reflexivity|]. split; [reflexivity|].
    split; [reflexivity|]. apply (Hgen _ _ _ N5). lia.
  - exists 10%float. eexists. split; [reflexivity|]. split; [reflexivity|].
    split; [reflexivity|]. apply (Hgen _ _ _ N10). lia.
  - exists 15%float. eexists. split; [reflexivity|]. split; [reflexivity|].
    split; [reflexivity|]. apply (Hgen _ _ _ N15). lia.
Qed.

(** The default mess with 2% wastage: the 5-point variant has wastage -3%
    and a wastage cost of -52,650. *)
Lemma wastage_variants_unclamped_witness :
  exists m,
    wastage_variant (with_wastage 2 defaults) 5 = Ok m /\
    food_wastage_pct m = (-3)%float /\
    monthly_wastage_cost m = Ok (-52650)%float /\
    (-52650 <? 0)%float = true.
Proof.
  destruct (wastage_variants_unclamped (with_wastage 2 defaults) 5)
    as (kf & m & Hk & Hm & Em & Hneg).
  - simpl. auto.
  - injection Hk as <-. exists m. split; [exact Hm|].
    destruct (Hneg ltac:(reflexivity)) as (_ & Hcost).
    destruct (Hcost 1755000%float ltac:(rewrite Em; reflexivity)) as (Hc & Hlt).
    subst m. split; [reflexivity|]. split; [exact Hc|].
    apply (Hlt ltac:(reflexivity)).
Defined.

End MessFacts.

(* ===================================================================== *)
(** * The facility model: derived metrics *)
(* ===================================================================== *)

Module FacilityFacts.
Import Facility.

(** Three facilities of [build_dataset], for the worked examples. *)
Definition gymnasium : Facility :=
  {| name := "Gymnasium"; max_capacity := 60;
     hourly_usage := [8; 25; 35; 15; 10; 12; 18; 22; 30; 45; 50; 38; 28; 15;
                      10; 8; 20; 35];
     operating_cost_per_hour := 450 |}.

Definition central_library : Facility :=
  {| name := "Central Library"; max_capacity := 200;
     hourly_usage := [15; 30; 60; 90; 120; 140; 150; 165; 170; 180; 175; 160;
                      130; 100; 80; 60; 45; 25];
     operating_cost_per_hour := 800 |}.

Definition computer_lab_a : Facility :=
  {| name := "Computer Lab A"; max_capacity := 80;
     hourly_usage := [5; 10; 55; 70; 75; 72; 68; 65; 60; 55; 50; 45; 35; 25;
                      15; 10; 8; 5];
     operating_cost_per_hour := 600 |}.

Lemma named_facilities_in_dataset :
  nth_error build_dataset 0 = Some gymnasium /\
  nth_error build_dataset 1 = Some central_library /\
  nth_error build_dataset 2 = Some computer_lab_a.
Proof. repeat split. Qed.

(** ** Sums, maxima and positions *)

Lemma fold_left_add_acc (l : list Z) (a : Z) :
  fold_left Z.add l a = a + fold_left Z.add l 0.
Proof.
  revert a. induction l as [|u l IH]; intros a; simpl; [lia|].
  rewrite (IH (a + u)), (IH u). lia.
Qed.

Lemma sum_nil : sum [] = 0.
Proof. reflexivity. Qed.

Lemma sum_cons (u : Z) (l : list Z) : sum (u :: l) = u + sum l.
Proof. unfold sum. simpl. apply fold_left_add_acc. Qed.

Lemma sum_app (l1 l2 : list Z) : sum (l1 ++ l2) = sum l1 + sum l2.
Proof.
  induction l1 as [|u l1 IH]; [reflexivity|].
  change ((u :: l1) ++ l2) with (u :: (l1 ++ l2)).
  rewrite !sum_cons, IH. lia.
Qed.

Lemma sum_zero (l : list Z) : Forall (fun u => 0 <= u) l -> sum l = 0 -> Forall (fun u => u = 0) l.
Proof.
  induction 1 as [|u l Hu Hl IH]; intros Hs; constructor; rewrite sum_cons in Hs.
  - assert (0 <= sum l); [|lia]. clear -Hl.
    induction Hl; [rewrite sum_nil | rewrite sum_cons]; lia.
  - apply IH. assert (0 <= sum l); [|lia]. clear -Hl.
    induction Hl; [rewrite sum_nil | rewrite sum_cons]; lia.
Qed.

Lemma fold_left_max_spec (l : list Z) (a : Z) :
  a <= fold_left Z.max l a /\
  Forall (fun u => u <= fold_left Z.max l a) l /\
  (fold_left Z.max l a = a \/ In (fold_left Z.max l a) l).
Proof.
  revert a. induction l as [|u l IH]; intros a; simpl.
  - split; [lia|]. split; [constructor | auto].
  - destruct (IH (Z.max a u)) as (H1 & H2 & H3). split; [|split].
    + lia.
    + constructor; [lia | assumption].
    + destruct H3 as [H3|H3]; [|auto].
      rewrite H3. destruct (Z.max_spec a u) as [[_ E]|[_ E]]; rewrite E; auto.
Qed.

(** [list_max] is an element of a non-empty list and bounds all of them. *)
Lemma list_max_spec (l : list Z) :
  l <> [] -> In (list_max l) l /\ Forall (fun u => u <= list_max l) l.
Proof.
  destruct l as [|u l]; [congruence|]. intros _. unfold list_max.
  destruct (fold_left_max_spec l u) as (H1 & H2 & H3). split.
  - destruct H3 as [->|H3]; [left; reflexivity | right; assumption].
  - constructor; assumption.
Qed.

(** [index v l] is the first position of [v]. *)
Lemma index_spec (v : Z) (l : list Z) :
  In v l ->
  (index v l < List.length l)%nat /\ nth (index v l) l 0 = v /\
  forall j, (j < index v l)%nat -> nth j l 0 <> v.
Proof.
  induction l as [|u l IH]; simpl; [tauto|]. intros Hin.
  destruct (Z.eqb_spec u v) as [->|Hne].
  - repeat split; [lia | intros; lia].
  - destruct Hin as [->|Hin]; [congruence|].
    destruct (IH Hin) as (H1 & H2 & H3). repeat split; [lia | assumption |].
    intros [|j] Hj; [assumption | apply H3; lia].
Qed.

Lemma count_le_length (p : Z -> bool) (l : list Z) :
  0 <= count p l <= Z.of_nat (List.length l).
Proof.
  unfold count. pose proof (filter_length_le p l). lia.
Qed.

(** Two predicates that never hold together count at most every slot once. *)
Lemma count_disjoint (p q : Z -> bool) (l : list Z) :
  (forall u, p u = true -> q u = true -> False) ->
  count p l + count q l <= Z.of_nat (List.length l).
Proof.
  intros Hd. unfold count. induction l as [|u l IH]; simpl; [lia|].
  specialize (Hd u). destruct (p u), (q u); simpl List.length; try lia.
  all: exfalso; auto.
Qed.

(** ** Hour labels *)

Lemma HOURS_length : List.length HOURS = 18%nat.
Proof. reflexivity. Qed.

Lemma HOURS_nth (i : nat) :
  (i < 18)%nat ->
  nth_error HOURS i = Some (str_of_int (Z.of_nat (6 + i)) ++ ":00")%string.
Proof.
  intros Hi. do 18 (destruct i as [|i]; [reflexivity|]). lia.
Qed.

(** C10.  [peak_hour] is the sentinel on an empty usage list; on a
    non-empty one it takes the first position of the maximum and returns its
    label ["{6 + idx}:00"] when that position is below 18, but raises
    [IndexError] when it is 18 or more, which happens for some facility with
    more than 18 slots. *)
Theorem peak_hour_partial :
  (forall f, hourly_usage f = [] -> peak_hour f = Ok "N/A"%string) /\
  (forall f, hourly_usage f <> [] ->
     let usage := hourly_usage f in
     let idx := index (list_max usage) usage in
     (idx < List.length usage)%nat /\
     nth idx usage 0 = list_max usage /\
     (forall u, In u usage -> u <= nth idx usage 0) /\
     (forall j, (j < idx)%nat -> nth j usage 0 < nth idx usage 0) /\
     ((idx < 18)%nat ->
        nth_error HOURS idx = Some (str_of_int (Z.of_nat (6 + idx)) ++ ":00")%string /\
        peak_hour f = Ok (str_of_int (Z.of_nat (6 + idx)) ++ ":00")%string) /\
     ((18 <= idx)%nat -> peak_hour f = Raise IndexError)) /\
  (exists f, (18 < List.length (hourly_usage f))%nat /\
             index (list_max (hourly_usage f)) (hourly_usage f) = 18%nat /\
             peak_hour f = Raise IndexError).
Proof.
  split; [|split].
  - intros f E. unfold peak_hour. rewrite E. reflexivity.
  - intros [n c usage cost] Hne. cbn [hourly_usage] in *.
    set (idx := index (list_max usage) usage).
    destruct (list_max_spec usage Hne) as (Hin & Hmax).
    destruct (index_spec _ _ Hin) as (H1 & H2 & H3). fold idx in H1, H2, H3.
    rewrite Forall_forall in Hmax.
    assert (Hph : peak_hour {| name := n; max_capacity := c;
                               hourly_usage := usage;
                               operating_cost_per_hour := cost |} =
                  match nth_error HOURS idx with
                  | Some label => Ok label
                  | None => Raise IndexError
                  end).
    { unfold peak_hour. cbn [hourly_usage]. fold idx.
      destruct usage; [congruence | reflexivity]. }
    split; [assumption|]. split; [assumption|]. split; [|split; [|split]].
    + intros u Hu. rewrite H2. auto.
    + intros j Hj. rewrite H2.
      assert (nth j usage 0 <= list_max usage)
        by (apply Hmax, nth_In; lia).
      specialize (H3 j Hj). lia.
    + intros Hlt. split; [now apply HOURS_nth|].
      rewrite Hph, HOURS_nth by assumption. reflexivity.
    + intros Hge. rewrite Hph.
      destruct (nth_error HOURS idx) eqn:E; [|reflexivity].
      assert (idx < List.length HOURS)%nat by (apply nth_error_Some; congruence).
      rewrite HOURS_length in H. lia.
  - exists {| name := "Night Canteen"; max_capacity := 40;
              hourly_usage := repeat 5 18 ++ [30];
              operating_cost_per_hour := 100 |}.
    split; [simpl; lia|]. split; reflexivity.
Qed.

Lemma peak_hour_partial_witness :
  peak_hour gymnasium = Ok "16:00"%string.
Proof.
  refine (proj2 (proj1 (proj2 (proj2 (proj2 (proj2
    (proj1 (proj2 peak_hour_partial) _ _))))) _)).
  - discriminate.
  - simpl. lia.
Defined.

(** ** Idle and overcrowded hours *)

(** C5.  For a facility of non-negative capacity no slot is both idle
    (usage below 20% of capacity) and overcrowded (usage above 85%), so the
    two counts add up to at most the number of slots.  Both properties
    return unless the capacity does not fit in a float. *)
Theorem idle_overcrowded_disjoint (f : Facility) :
  0 <= max_capacity f ->
  (exists i o,
     idle_hours f = Ok i /\ overcrowded_hours f = Ok o /\
     0 <= i /\ 0 <= o /\ i + o <= Z.of_nat (List.length (hourly_usage f))) \/
  (2 ^ 1023 <= max_capacity f /\
   idle_hours f = Raise OverflowError /\
   overcrowded_hours f = Raise OverflowError).
Proof.
  intros Hc. unfold idle_hours, overcrowded_hours, int_mul_float.
  destruct (float_of_int (max_capacity f)) as [x|e] eqn:E; cbn [bind].
  - left. do 2 eexists. split; [reflexivity|]. split; [reflexivity|].
    split; [apply count_le_length|]. split; [apply count_le_length|].
    apply count_disjoint. intros u. apply (Binary64.thresholds_disjoint _ _ _ Hc E).
  - right. pose proof (float_of_int_raise _ _ E) as ->. split; [|auto].
    destruct (Z_lt_le_dec (max_capacity f) (2 ^ 1023)) as [Hlt|]; [|assumption].
    destruct (Binary64.float_of_int_ok (max_capacity f)) as (x & Hx); [lia | congruence].
Qed.

Lemma idle_overcrowded_disjoint_witness :
  exists i o,
    idle_hours central_library = Ok i /\
    overcrowded_hours central_library = Ok o /\
    i = 3 /\ o = 2 /\ i + o <= 18.
Proof.
  destruct (idle_overcrowded_disjoint central_library)
    as [(i & o & Hi & Ho & _ & _ & Hle)|(Hbig & _)].
  - simpl. lia.
  - exists i, o. vm_compute in Hi, Ho.
    injection Hi as <-. injection Ho as <-.
    repeat split; try reflexivity. lia.
  - exfalso. simpl in Hbig. lia.
Defined.

(** The capacity has to be non-negative: a (meaningless) negative capacity
    puts the 20% threshold above the 85% one. *)
Remark negative_capacity_counts_twice :
  let f := {| name := "x"; max_capacity := -10; hourly_usage := [-5];
              operating_cost_per_hour := 0 |} in
  idle_hours f = Ok 1 /\ overcrowded_hours f = Ok 1.
Proof. split; vm_compute; reflexivity. Qed.

(** ** Zero denominators *)

(** C2 (as stated) fails: a facility with positive capacity and an all-zero
    usage has zero person-hours, yet its idle capacity is 100%, not 0. *)
Lemma idle_capacity_of_unused_facility :
  let f := {| name := "Seminar Hall"; max_capacity := 60;
              hourly_usage := [0; 0; 0]; operating_cost_per_hour := 450 |} in
  total_person_hours f = 0 /\
  cost_per_person_hour f = Ok (Int 0) /\
  idle_capacity_pct f = Ok (Float 100) /\
  idle_capacity_pct f <> Ok (Int 0) /\
  (100 =? 0)%float = false.
Proof. cbv zeta. repeat split; try (vm_compute; reflexivity). discriminate. Qed.

(** C2 (amended).  Each guard tests its own denominator:
    [cost_per_person_hour] is [0] when [total_person_hours] is zero, and
    [idle_capacity_pct] is [0] when [max_possible_person_hours] is zero;
    with zero person-hours and a non-zero maximum the idle capacity is
    exactly 100. *)
Theorem zero_denominator_guards (f : Facility) :
  (total_person_hours f = 0 -> cost_per_person_hour f = Ok (Int 0)) /\
  (max_possible_person_hours f = 0 -> idle_capacity_pct f = Ok (Int 0)) /\
  (total_person_hours f = 0 -> max_possible_person_hours f <> 0 ->
     idle_capacity_pct f = Ok (Float 100)).
Proof.
  unfold cost_per_person_hour, idle_capacity_pct, int_truthy.
  split; [|split].
  - intros ->. reflexivity.
  - intros ->. reflexivity.
  - intros -> Hne. rewrite Z.sub_0_r.
    destruct (Z.eqb_spec (max_possible_person_hours f) 0) as [|_]; [contradiction|].
    cbn [negb]. rewrite Binary64.int_truediv_self by assumption. reflexivity.
Qed.

Lemma zero_denominator_guards_witness :
  cost_per_person_hour {| name := "Seminar Hall"; max_capacity := 60;
                          hourly_usage := [0; 0; 0];
                          operating_cost_per_hour := 450 |} = Ok (Int 0) /\
  idle_capacity_pct {| name := "Closed Lab"; max_capacity := 60;
                       hourly_usage := []; operating_cost_per_hour := 450 |}
    = Ok (Int 0) /\
  idle_capacity_pct {| name := "Seminar Hall"; max_capacity := 60;
                       hourly_usage := [0; 0; 0];
                       operating_cost_per_hour := 450 |} = Ok (Float 100).
Proof.
  split; [|split].
  - apply (proj1 (zero_denominator_guards _)). reflexivity.
  - apply (proj1 (proj2 (zero_denominator_guards _))). reflexivity.
  - apply (proj2 (proj2 (zero_denominator_guards _))); [reflexivity | discriminate].
Defined.


(** ** Redistribution of peaks *)

Lemma set_item_length (l : list Z) (i : nat) (v : Z) :
  List.length (set_item l i v) = List.length l.
Proof.
  revert i. induction l as [|u l IH]; intros [|i]; simpl; auto.
Qed.

Lemma set_item_sum (l : list Z) (i : nat) (v : Z) :
  (i < List.length l)%nat -> sum (set_item l i v) = sum l - nth i l 0 + v.
Proof.
  revert i. induction l as [|u l IH]; intros [|i] Hi; simpl in *; try lia.
  - rewrite !sum_cons. lia.
  - rewrite !sum_cons, IH by lia. lia.
Qed.

Lemma set_item_Forall (P : Z -> Prop) (l : list Z) (i : nat) (v : Z) :
  Forall P l -> P v -> Forall P (set_item l i v).
Proof.
  intros Hl Hv. revert i. induction Hl as [|u l Hu Hl IH]; intros [|i]; simpl;
    auto.
Qed.

Lemma set_item_nth (l : list Z) (i j : nat) (v : Z) :
  (i < List.length l)%nat ->
  nth j (set_item l i v) 0 = if Nat.eqb i j then v else nth j l 0.
Proof.
  revert i j. induction l as [|u l IH]; intros [|i] [|j] Hi; simpl in *;
    try lia; auto.
  apply IH. lia.
Qed.

(** The first loop is a pointwise minimum with [cap]; the excess grows by
    what the slots lose. *)
Lemma clamp_peaks_spec (cap : Z) (l : list Z) (e0 : Z) :
  fst (clamp_peaks cap l e0) = map (Z.min cap) l /\
  sum (fst (clamp_peaks cap l e0)) + snd (clamp_peaks cap l e0) = sum l + e0 /\
  e0 <= snd (clamp_peaks cap l e0).
Proof.
  revert e0. induction l as [|u l IH]; intros e0; simpl.
  - repeat split; try reflexivity; lia.
  - destruct (Z.gtb_spec u cap) as [Hgt|Hle].
    + specialize (IH (e0 + (u - cap))).
      destruct (clamp_peaks cap l (e0 + (u - cap))) as [l' e'].
      simpl in *. destruct IH as (-> & H2 & H3).
      rewrite !sum_cons. rewrite Z.min_l by lia. repeat split; lia.
    + specialize (IH e0). destruct (clamp_peaks cap l e0) as [l' e'].
      simpl in *. destruct IH as (-> & H2 & H3).
      rewrite !sum_cons. rewrite Z.min_r by lia. repeat split; lia.
Qed.

Lemma Forall_min_cap (cap : Z) (l : list Z) :
  Forall (fun u => u <= cap) (map (Z.min cap) l).
Proof. induction l; simpl; constructor; [lia | assumption]. Qed.

(** [sorted_indices l] lists exactly the positions of [l] ... *)
Lemma insert_by_key_In (l : list Z) (i j : nat) (sorted : list nat) :
  In j (insert_by_key l i sorted) <-> j = i \/ In j sorted.
Proof.
  induction sorted as [|k sorted IH]; simpl.
  - intuition.
  - destruct (nth i l 0 <? nth k l 0); simpl; rewrite ?IH; intuition.
Qed.

Lemma fold_insert_In (l : list Z) (idxs acc : list nat) (j : nat) :
  In j (fold_left (fun acc i => insert_by_key l i acc) idxs acc) <->
  In j idxs \/ In j acc.
Proof.
  revert acc. induction idxs as [|i idxs IH]; intros acc; simpl.
  - intuition.
  - rewrite IH, insert_by_key_In. intuition.
Qed.

Lemma sorted_indices_In (l : list Z) (j : nat) :
  In j (sorted_indices l) <-> (j < List.length l)%nat.
Proof.
  unfold sorted_indices. rewrite fold_insert_In, in_seq. simpl. intuition lia.
Qed.

(** ... in ascending order of the usage they hold. *)
Definition ascending (l : list Z) (idxs : list nat) : Prop :=
  forall a b, (a < b < List.length idxs)%nat ->
              nth (nth a idxs O) l 0 <= nth (nth b idxs O) l 0.

Lemma ascending_cons (l : list Z) (i : nat) (idxs : list nat) :
  ascending l (i :: idxs) <->
  (forall j, In j idxs -> nth i l 0 <= nth j l 0) /\ ascending l idxs.
Proof.
  unfold ascending. split.
  - intros H. split.
    + intros j Hj. destruct (In_nth _ _ O Hj) as (b & Hb & <-).
      apply (H O (S b)). simpl. lia.
    + intros a b Hab. apply (H (S a) (S b)). simpl. lia.
  - intros [H1 H2] [|a] [|b] Hab; simpl in *; try lia.
    + apply H1, nth_In. lia.
    + apply H2. lia.
Qed.

Lemma insert_by_key_ascending (l : list Z) (i : nat) (sorted : list nat) :
  ascending l sorted -> ascending l (insert_by_key l i sorted).
Proof.
  induction sorted as [|k sorted IH]; intros Hs; simpl.
  - apply ascending_cons. split; [intros j []|]. intros a b Hab. simpl in Hab. lia.
  - apply ascending_cons in Hs as [Hk Hs].
    destruct (Z.ltb_spec (nth i l 0) (nth k l 0)) as [Hlt|Hge].
    + apply ascending_cons. split.
      * intros j [<-|Hj]; [lia|]. specialize (Hk j Hj). lia.
      * apply ascending_cons. auto.
    + apply ascending_cons. split; [|auto].
      intros j Hj. apply insert_by_key_In in Hj as [->|Hj]; auto.
Qed.

Lemma sorted_indices_ascending (l : list Z) : ascending l (sorted_indices l).
Proof.
  unfold sorted_indices.
  assert (H : forall idxs acc, ascending l acc ->
            ascending l (fold_left (fun acc i => insert_by_key l i acc) idxs acc)).
  { induction idxs as [|i idxs IH]; intros acc Hacc; simpl; [assumption|].
    apply IH, insert_by_key_ascending, Hacc. }
  apply H. intros a b Hab. simpl in Hab. lia.
Qed.

(** The second loop keeps every slot at or below [cap], only raises slots,
    moves excess into the slots one for one, and leaves excess over only
    when every slot it visited is full. *)
Lemma spread_excess_spec (cap : Z) (idxs : list nat) :
  forall (l : list Z) (e : Z),
  Forall (fun i => (i < List.length l)%nat) idxs ->
  Forall (fun u => u <= cap) l -> 0 <= e ->
  let r := spread_excess cap idxs l e in
  List.length (fst r) = List.length l /\
  Forall (fun u => u <= cap) (fst r) /\
  sum (fst r) + snd r = sum l + e /\
  0 <= snd r <= e /\
  (forall i, nth i l 0 <= nth i (fst r) 0) /\
  (0 < snd r -> forall i, In i idxs -> nth i (fst r) 0 = cap).
Proof.
  induction idxs as [|idx idxs IH]; intros l e Hidx Hl He; simpl.
  - split; [|split; [|split; [|split; [|split]]]]; auto; try lia.
    all: intros _ i [].
  - destruct (Z.leb_spec e 0) as [Hz|Hpos]; simpl.
    + split; [|split; [|split; [|split; [|split]]]]; auto; try lia.
    + inversion Hidx as [|? ? Hi Hrest]; subst.
      assert (Hu : nth idx l 0 <= cap)
        by (rewrite Forall_forall in Hl; apply Hl, nth_In; assumption).
      set (add := Z.min e (cap - nth idx l 0)).
      set (l1 := set_item l idx (nth idx l 0 + add)).
      assert (Hlen1 : List.length l1 = List.length l) by apply set_item_length.
      assert (Hl1 : Forall (fun u => u <= cap) l1)
        by (apply set_item_Forall; [assumption | unfold add; lia]).
      assert (Hrest1 : Forall (fun i => (i < List.length l1)%nat) idxs)
        by (rewrite Hlen1; assumption).
      destruct (IH l1 (e - add) Hrest1 Hl1 ltac:(unfold add; lia))
        as (H1 & H2 & H3 & H4 & H5 & H6).
      assert (Hnth1 : forall i, nth i l 0 <= nth i l1 0).
      { intros i. unfold l1. rewrite set_item_nth by assumption.
        destruct (Nat.eqb_spec idx i) as [->|]; unfold add; lia. }
      split; [|split; [|split; [|split; [|split]]]].
      * lia.
      * assumption.
      * assert (sum l1 = sum l - nth idx l 0 + (nth idx l 0 + add))
          by (apply set_item_sum; assumption).
        lia.
      * unfold add in *. lia.
      * intros i. specialize (H5 i). specialize (Hnth1 i). lia.
      * intros Hleft i [<-|Hin]; [|auto].
        assert (nth idx l1 0 = cap).
        { unfold l1. rewrite set_item_nth, Nat.eqb_refl by assumption.
          unfold add in *. lia. }
        specialize (H5 idx).
        assert (nth idx (fst (spread_excess cap idxs l1 (e - add))) 0 <= cap).
        { rewrite Forall_forall in H2.
          apply H2, nth_In. rewrite H1, Hlen1. assumption. }
        lia.
Qed.

(** [_redistribute_usage] for a known [cap]. *)
Lemma redistribute_with_cap_spec (cap : Z) (usage : list Z) :
  let new_usage := fst (redistribute_with_cap cap usage) in
  let dropped := snd (redistribute_with_cap cap usage) in
  List.length new_usage = List.length usage /\
  Forall (fun u => u <= cap) new_usage /\
  0 <= dropped /\
  sum new_usage + dropped = sum usage /\
  (0 < dropped -> Forall (fun u => u = cap) new_usage).
Proof.
  unfold redistribute_with_cap.
  destruct (clamp_peaks_spec cap usage 0) as (Hc1 & Hc2 & Hc3).
  destruct (clamp_peaks cap usage 0) as [clamped excess]. simpl in Hc1, Hc2, Hc3.
  assert (Hidx : Forall (fun i => (i < List.length clamped)%nat) (sorted_indices clamped))
    by (apply Forall_forall; intros i; apply sorted_indices_In).
  assert (Hcl : Forall (fun u => u <= cap) clamped)
    by (rewrite Hc1; apply Forall_min_cap).
  destruct (spread_excess_spec cap _ clamped excess Hidx Hcl Hc3)
    as (H1 & H2 & H3 & H4 & H5 & H6).
  cbv zeta. split; [|split; [|split; [|split]]]; try lia.
  - rewrite H1, Hc1. apply length_map.
  - assumption.
  - intros Hd. apply Forall_forall. intros u Hu.
    destruct (In_nth _ _ 0 Hu) as (i & Hi & <-).
    apply H6; [assumption|]. apply sorted_indices_In. lia.
Qed.

Lemma Prim2SF_0_70 : Binary64.normal 0.70 false 6305039478318694 (-53).
Proof. repeat split; vm_compute; congruence. Qed.

Lemma Prim2SF_0_60 : Binary64.normal 0.60 false 5404319552844595 (-53).
Proof. repeat split; vm_compute; congruence. Qed.

Lemma Prim2SF_0_3 : Binary64.normal 0.3 false 5404319552844595 (-54).
Proof. repeat split; vm_compute; congruence. Qed.

(** C1.  Whenever the cap [int(max_capacity * target_pct)] is defined,
    redistribution returns a list of the same length whose total is the
    input total minus the excess that found no room: it never exceeds the
    input total and equals it exactly when nothing was dropped (excess is
    dropped only when every slot is full); no slot exceeds the cap, nor,
    for a non-negative capacity and fraction, the product
    [max_capacity * target_pct].  For the generator's fractions 0.70 and
    0.60 the cap is defined for every capacity in [0, 2 ^ 1023). *)
Theorem redistribution_preserves_or_reduces :
  (forall (f : Facility) (target_pct : float) (cap : Z),
     redistribution_cap f target_pct = Ok cap ->
     exists new_usage dropped,
       _redistribute_usage f target_pct = Ok new_usage /\
       redistribute_with_cap cap (hourly_usage f) = (new_usage, dropped) /\
       List.length new_usage = List.length (hourly_usage f) /\
       0 <= dropped /\
       sum new_usage = sum (hourly_usage f) - dropped /\
       sum new_usage <= sum (hourly_usage f) /\
       (sum new_usage = sum (hourly_usage f) <-> dropped = 0) /\
       (0 < dropped -> Forall (fun u => u = cap) new_usage) /\
       Forall (fun u => u <= cap) new_usage /\
       (0 <= max_capacity f -> (0 <=? target_pct)%float = true ->
        exists p, int_mul_float (max_capacity f) target_pct = Ok p /\
                  Forall (fun u => int_le_float u p = true) new_usage)) /\
  (forall f : Facility, 0 <= max_capacity f < 2 ^ 1023 ->
     (exists cap, redistribution_cap f 0.70 = Ok cap) /\
     (exists cap, redistribution_cap f 0.60 = Ok cap)).
Proof.
  split.
  - intros f target_pct cap Hcap.
    pose proof (redistribute_with_cap_spec cap (hourly_usage f)) as H.
    cbv zeta in H. destruct H as (H1 & H2 & H3 & H4 & H5).
    destruct (redistribute_with_cap cap (hourly_usage f)) as [new_usage dropped] eqn:E.
    cbn [fst snd] in *. exists new_usage, dropped.
    split; [unfold _redistribute_usage; rewrite Hcap; cbn [bind]; rewrite E; reflexivity|].
    split; [reflexivity|]. split; [assumption|]. split; [assumption|].
    split; [lia|]. split; [lia|]. split; [lia|]. split; [assumption|].
    split; [assumption|].
    intros Hc Hpct. unfold redistribution_cap, int_mul_float in *.
    destruct (float_of_int (max_capacity f)) as [x|e] eqn:Ex; [|discriminate].
    cbn [bind] in *. eexists. split; [reflexivity|].
    pose proof (Binary64.mul_nonneg _ _ _ _ Hc Ex Hpct Hcap) as Hnn.
    destruct (Binary64.int_of_float_floor _ _ Hnn Hcap) as (_ & Hle & _).
    eapply Forall_impl; [|exact H2]. cbv beta. intros u Hu.
    eapply Binary64.int_le_float_mono; eassumption.
  - intros f Hc.
    destruct (Binary64.float_of_int_ok (max_capacity f) ltac:(lia)) as (x & Ex).
    unfold redistribution_cap, int_mul_float. rewrite Ex. cbn [bind]. split.
    + apply (Binary64.mul_fraction_finite _ _ _ _ _ (proj1 Hc) Ex Prim2SF_0_70);
        [lia | intros _; reflexivity].
    + apply (Binary64.mul_fraction_finite _ _ _ _ _ (proj1 Hc) Ex Prim2SF_0_60);
        [lia | intros _; reflexivity].
Qed.

Lemma redistribution_preserves_or_reduces_witness :
  exists new_usage dropped,
    _redistribute_usage gymnasium 0.70 = Ok new_usage /\
    new_usage = [19; 25; 35; 15; 10; 12; 18; 22; 30; 42; 42; 38; 28; 15; 10;
                 8; 20; 35] /\
    dropped = 0 /\ sum new_usage = 424 /\ Forall (fun u => u <= 42) new_usage.
Proof.
  destruct (proj1 redistribution_preserves_or_reduces gymnasium 0.70%float 42)
    as (new_usage & dropped & H1 & H2 & _ & _ & H3 & _ & _ & _ & H4 & _).
  - vm_compute. reflexivity.
  - exists new_usage, dropped. vm_compute in H2. injection H2 as <- <-.
    split; [exact H1|]. split; [reflexivity|]. split; [reflexivity|].
    split; [reflexivity | exact H4].
Defined.

(** ** Extended hours *)

(** C8 (as stated) fails on the repository's own data: Computer Lab A has
    an average utilization above 50% and a peak of 75, 30% of which is 22.5;
    the two appended slots hold 22. *)
Lemma extended_slots_are_truncated :
  let f := computer_lab_a in
  In f build_dataset /\
  (exists a, avg_utilization_pct f = Ok a /\ float_gt_int a 50 = true) /\
  peak_usage f = 75 /\
  int_mul_float (peak_usage f) 0.3 = Ok 22.5%float /\
  (exists nf, extended_facility f = Ok nf /\
              hourly_usage nf = hourly_usage f ++ [22; 22]) /\
  int_eq_float 22 22.5 = false.
Proof.
  cbv zeta. split; [simpl; auto|].
  split; [eexists; split; vm_compute; reflexivity|].
  split; [reflexivity|]. split; [vm_compute; reflexivity|].
  split; [eexists; split; vm_compute; reflexivity|]. vm_compute. reflexivity.
Qed.

(** C8 (amended).  A facility whose average utilization exceeds 50 gets
    exactly two more slots, each holding [int(peak_usage * 0.3)], 30% of the
    peak truncated to an int; a facility at or below 50 is passed through
    unchanged.  Name, capacity and cost are kept in both cases. *)
Theorem extended_hours_spec (f : Facility) (a : float) :
  avg_utilization_pct f = Ok a ->
  (float_gt_int a 50 = true ->
     extended_facility f =
       (e <- extra_hour_usage f ;;
        Ok {| name := name f; max_capacity := max_capacity f;
              hourly_usage := hourly_usage f ++ [e; e];
              operating_cost_per_hour := operating_cost_per_hour f |})) /\
  (float_gt_int a 50 = false -> extended_facility f = Ok f) /\
  (0 <= peak_usage f < 2 ^ 1023 ->
     exists p e,
       int_mul_float (peak_usage f) 0.3 = Ok p /\
       extra_hour_usage f = Ok e /\
       0 <= e /\ int_le_float e p = true /\ int_gt_float (e + 1) p = true).
Proof.
  intros Ha. unfold extended_facility. rewrite Ha. cbn [bind].
  split; [|split].
  - intros ->. reflexivity.
  - intros ->. destruct f; reflexivity.
  - intros Hp. unfold extra_hour_usage, int_mul_float.
    destruct (Binary64.float_of_int_ok (peak_usage f) ltac:(lia)) as (x & Ex).
    rewrite Ex. cbn [bind].
    destruct (Binary64.mul_fraction_finite _ _ _ _ _ (proj1 Hp) Ex Prim2SF_0_3
                ltac:(lia) ltac:(lia)) as (e & He).
    exists (x * 0.3)%float, e. split; [reflexivity|]. split; [exact He|].
    apply Binary64.int_of_float_floor; [|exact He].
    apply (Binary64.mul_nonneg _ x 0.3%float _ (proj1 Hp) Ex eq_refl He).
Qed.

Lemma extended_hours_spec_witness :
  extended_facility central_library =
  Ok {| name := "Central Library"; max_capacity := 200;
        hourly_usage := [15; 30; 60; 90; 120; 140; 150; 165; 170; 180; 175;
                         160; 130; 100; 80; 60; 45; 25; 54; 54];
        operating_cost_per_hour := 800 |}.
Proof.
  rewrite (proj1 (extended_hours_spec central_library 52.638888888888893%float
                    ltac:(vm_compute; reflexivity)) ltac:(vm_compute; reflexivity)).
  vm_compute. reflexivity.
Defined.

(** ** The scenario generator *)

(** The aggregate metrics of the specification (section 4.2): numerators
    and denominators are summed over the facilities before dividing, and a
    ratio is [0] when its denominator is. *)
Record AggregateMetrics : Set := {
  am_total_person_hours : Z;
  am_max_possible_person_hours : Z;
  am_avg_utilization_pct : num;
  am_idle_hours : Z;
  am_overcrowded_hours : Z;
  am_daily_operating_cost : num;
  am_cost_per_person_hour : num
}.

Definition deriveAggregateMetrics (fs : list Facility) : result AggregateMetrics :=
  let person_hours := sum (map total_person_hours fs) in
  let max_possible := sum (map max_possible_person_hours fs) in
  cost <- sum_costs fs (Int 0) ;;
  idle <- sum_over idle_hours fs 0 ;;
  overcrowded <- sum_over overcrowded_hours fs 0 ;;
  utilization <- (if max_possible =? 0 then Ok (Int 0)
                  else q <- int_truediv person_hours max_possible ;;
                       r <- float_mul_int q 100 ;;
                       Ok (Float r)) ;;
  cost_per_ph <- (if person_hours =? 0 then Ok (Int 0)
                  else num_div_int cost person_hours) ;;
  Ok {| am_total_person_hours := person_hours;
        am_max_possible_person_hours := max_possible;
        am_avg_utilization_pct := utilization;
        am_idle_hours := idle;
        am_overcrowded_hours := overcrowded;
        am_daily_operating_cost := cost;
        am_cost_per_person_hour := cost_per_ph |}.

(** What a scenario dict holds, in terms of those metrics: the two ratios
    are rounded to two decimals. *)
Definition rounded_scenario (name : string) (d : AggregateMetrics) : Scenario :=
  {| Scenario_name := name;
     Avg_Utilization_pct := round2 (am_avg_utilization_pct d);
     Total_Person_Hours := am_total_person_hours d;
     Idle_Hours_total := am_idle_hours d;
     Overcrowded_Hours := am_overcrowded_hours d;
     Daily_Op_Cost := am_daily_operating_cost d;
     Cost_per_Person_Hr := round2 (am_cost_per_person_hour d) |}.

Lemma aggregate_spec (name : string) (fs : list Facility) :
  aggregate (Ok name) fs =
  (d <- deriveAggregateMetrics fs ;; Ok (rounded_scenario name d)).
Proof.
  unfold aggregate, deriveAggregateMetrics, int_truthy.
  destruct (sum_costs fs (Int 0)); cbn [bind]; [|reflexivity].
  destruct (sum_over idle_hours fs 0); cbn [bind]; [|reflexivity].
  destruct (sum_over overcrowded_hours fs 0); cbn [bind]; [|reflexivity].
  destruct (sum (map max_possible_person_hours fs) =? 0); cbn [negb bind].
  - destruct (sum (map total_person_hours fs) =? 0); cbn [negb bind];
      [reflexivity|]. destruct (num_div_int _ _); reflexivity.
  - destruct (int_truediv _ _); cbn [bind]; [|reflexivity].
    destruct (float_mul_int _ _); cbn [bind]; [|reflexivity].
    destruct (sum (map total_person_hours fs) =? 0); cbn [negb bind];
      [reflexivity|]. destruct (num_div_int _ _); reflexivity.
Qed.

(** The first scenario of the facility generator. *)
Lemma run_optimizations_head (fs : list Facility) (l : list Scenario) :
  run_optimizations fs = Ok l ->
  exists d, deriveAggregateMetrics fs = Ok d /\
            nth_error l 0 = Some (rounded_scenario "Base Case (Current)" d).
Proof.
  unfold run_optimizations. rewrite aggregate_spec. intros H.
  destruct (deriveAggregateMetrics fs) as [d|e]; [|discriminate].
  cbn [bind] in H. exists d. split; [reflexivity|].
  repeat (match type of H with
          | bind ?c _ = Ok _ => destruct c; cbn [bind] in H; [|discriminate]
          end).
  injection H as <-. reflexivity.
Qed.

Lemma run_optimizations_dataset :
  exists l, run_optimizations build_dataset = Ok l /\ List.length l = 7%nat.
Proof. vm_compute. eexists. split; reflexivity. Qed.

End FacilityFacts.

(* ===================================================================== *)
(** * The base case of both generators *)
(* ===================================================================== *)

Module BaseCase.

(** C3 (as stated) fails: scenario 0 of the mess generator holds the margin
    rounded to two decimals (17.59 for the default assumptions), which is
    not the derived margin (17.586...); likewise the facility generator
    reports 33.71 for a utilization of 33.706... *)
Lemma base_scenario_is_rounded :
  (exists l s0 d,
     Mess.run_optimizations Mess.defaults = Ok l /\
     nth_error l 0 = Some s0 /\
     MessFacts.deriveMessMetrics Mess.defaults = Ok d /\
     Mess.Profit_Margin_pct s0 = Float 17.59 /\
     MessFacts.dm_profit_margin_pct d = Float 17.586324786324788 /\
     Mess.Profit_Margin_pct s0 <> MessFacts.dm_profit_margin_pct d) /\
  (exists l s0 d,
     Facility.run_optimizations Facility.build_dataset = Ok l /\
     nth_error l 0 = Some s0 /\
     FacilityFacts.deriveAggregateMetrics Facility.build_dataset = Ok d /\
     Facility.Avg_Utilization_pct s0 = Float 33.71 /\
     FacilityFacts.am_avg_utilization_pct d = Float 33.706816059757237 /\
     Facility.Avg_Utilization_pct s0 <> FacilityFacts.am_avg_utilization_pct d).
Proof.
  split.
  - do 3 eexists. split; [vm_compute; reflexivity|].
    split; [reflexivity|]. split; [vm_compute; reflexivity|].
    split; [reflexivity|]. split; [reflexivity|].
    cbn. intros [= H]; revert H; apply float_neq_by_eqb; reflexivity.
  - do 3 eexists. split; [vm_compute; reflexivity|].
    split; [reflexivity|]. split; [vm_compute; reflexivity|].
    split; [reflexivity|]. split; [reflexivity|].
    cbn. intros [= H]; revert H; apply float_neq_by_eqb; reflexivity.
Qed.

(** C3 (amended).  In both generators the scenario at index 0 is the
    derived-metrics snapshot of the unmodified input under the name
    "Base Case (Current)", every amount and count exactly as derived and the
    ratios (profit margin; average utilization and cost per person-hour)
    rounded to two decimals.  The mess generator returns its list whenever
    the two int fields fit in a float; the facility generator returns its
    seven scenarios on the repository's dataset. *)
Theorem scenario_0_is_rounded_base_case :
  (forall base l,
     Mess.run_optimizations base = Ok l ->
     exists d, MessFacts.deriveMessMetrics base = Ok d /\
               nth_error l 0 =
                 Some (MessFacts.rounded_snapshot "Base Case (Current)" d)) /\
  (forall base,
     Z.abs (Mess.total_students base) < 2 ^ 1023 ->
     Z.abs (Mess.days_in_month base) < 2 ^ 1023 ->
     exists l, Mess.run_optimizations base = Ok l /\ List.length l = 11%nat) /\
  (forall fs l,
     Facility.run_optimizations fs = Ok l ->
     exists d, FacilityFacts.deriveAggregateMetrics fs = Ok d /\
               nth_error l 0 =
                 Some (FacilityFacts.rounded_scenario "Base Case (Current)" d)) /\
  (exists l, Facility.run_optimizations Facility.build_dataset = Ok l /\
             List.length l = 7%nat).
Proof.
  split; [|split; [|split]].
  - intros base l H. rewrite MessFacts.run_optimizations_eq in H.
    unfold MessFacts.snapshot_of in H at 1. cbn [bind] in H.
    destruct (MessFacts.deriveMessMetrics base) as [d|e]; [|discriminate].
    cbn [bind] in H. exists d. split; [reflexivity|].
    destruct (for_each _ _); cbn [bind] in H; [|discriminate].
    injection H as <-. reflexivity.
  - exact MessFacts.run_optimizations_ok.
  - exact FacilityFacts.run_optimizations_head.
  - exact FacilityFacts.run_optimizations_dataset.
Qed.

Lemma scenario_0_is_rounded_base_case_witness :
  exists l d,
    Mess.run_optimizations Mess.defaults = Ok l /\
    MessFacts.deriveMessMetrics Mess.defaults = Ok d /\
    nth_error l 0 = Some (MessFacts.rounded_snapshot "Base Case (Current)" d) /\
    Mess.Profit (MessFacts.rounded_snapshot "Base Case (Current)" d)
      = 514400%float.
Proof.
  destruct (proj1 (proj2 scenario_0_is_rounded_base_case) Mess.defaults)
    as (l & Hl & _); [vm_compute; reflexivity | vm_compute; reflexivity |].
  destruct (proj1 scenario_0_is_rounded_base_case Mess.defaults l Hl)
    as (d & Hd & H0).
  exists l, d. split; [exact Hl|]. split; [exact Hd|]. split; [exact H0|].
  vm_compute in Hd. injection Hd as <-. reflexivity.
Defined.

End BaseCase.

(* ===================================================================== *)
(** * Rounding to nearest *)
(* ===================================================================== *)

Module Nearest.
Import Binary64.

Local Abbreviation fexp := (SpecFloat.fexp prec emax).

Lemma iter_pos_nat {A : Type} (f : A -> A) (p : positive) (x : A) :
  iter_pos f p x = Nat.iter (Pos.to_nat p) f x.
Proof.
  revert x. induction p as [p IH|p IH|]; intros x; simpl iter_pos.
  - rewrite !IH, Pos2Nat.inj_xI.
    replace (S (2 * Pos.to_nat p)) with (Pos.to_nat p + (Pos.to_nat p + 1))%nat by lia.
    rewrite !Nat.iter_add. reflexivity.
  - rewrite !IH, Pos2Nat.inj_xO.
    replace (2 * Pos.to_nat p)%nat with (Pos.to_nat p + Pos.to_nat p)%nat by lia.
    rewrite Nat.iter_add. reflexivity.
  - reflexivity.
Qed.

Lemma shr_1_flags (mrs : shr_record) :
  0 <= shr_m mrs ->
  shr_r (shr_1 mrs) = Z.odd (shr_m mrs) /\
  shr_s (shr_1 mrs) = shr_r mrs || shr_s mrs.
Proof.
  destruct mrs as [m r s]. cbn [shr_m shr_r shr_s]. intros Hm.
  destruct m as [|[p|p|]|p]; cbn [shr_1 shr_r shr_s]; try lia; split; reflexivity.
Qed.

Lemma mod_pow2_succ (m k : Z) :
  0 <= k -> m mod 2 ^ (k + 1) = m mod 2 ^ k + 2 ^ k * ((m / 2 ^ k) mod 2).
Proof.
  intros Hk. rewrite Z.pow_add_r by lia. change (2 ^ 1) with 2.
  apply Z.rem_mul_r; [|lia]. pose proof (Z.pow_pos_nonneg 2 k); lia.
Qed.

Lemma shr_nat_flags (m : Z) (k : nat) :
  0 <= m ->
  let mrs := Nat.iter (S k) shr_1 (Build_shr_record m false false) in
  shr_m mrs = m / 2 ^ (Z.of_nat k + 1) /\
  shr_r mrs = Z.odd (m / 2 ^ Z.of_nat k) /\
  shr_s mrs = negb (m mod 2 ^ Z.of_nat k =? 0).
Proof.
  intros Hm. induction k as [|k IH].
  - cbn [Nat.iter]. cbn [Z.of_nat]. change (2 ^ 0) with 1.
    rewrite Z.div_1_r, Z.mod_1_r. change (0 + 1) with 1. change (2 ^ 1) with 2.
    pose proof (shr_1_m (Build_shr_record m false false) Hm) as H1.
    pose proof (shr_1_flags (Build_shr_record m false false) Hm) as [H2 H3].
    change (Nat.iter 1 shr_1 (Build_shr_record m false false)) with (shr_1 (Build_shr_record m false false)).
    cbn [shr_m shr_r shr_s] in *. rewrite H1, H2, H3. auto.
  - cbv zeta in *. set (mrs := Nat.iter (S k) shr_1 _) in *.
    change (Nat.iter (S (S k)) shr_1 (Build_shr_record m false false))
      with (shr_1 mrs).
    destruct IH as (I1 & I2 & I3).
    assert (Hp : 0 < 2 ^ (Z.of_nat k + 1)) by (apply Z.pow_pos_nonneg; lia).
    assert (H0 : 0 <= shr_m mrs) by (rewrite I1; apply Z.div_pos; lia).
    pose proof (shr_1_m mrs H0) as H1.
    pose proof (shr_1_flags mrs H0) as [H2 H3].
    rewrite H1, H2, H3, I1, I2, I3.
    replace (Z.of_nat (S k)) with (Z.of_nat k + 1) by lia.
    split; [|split].
    + rewrite Z.div_div by lia. f_equal.
      rewrite (Z.pow_add_r 2 (Z.of_nat k + 1) 1) by lia. reflexivity.
    + reflexivity.
    + rewrite mod_pow2_succ by lia.
      assert (Hk : 0 < 2 ^ Z.of_nat k) by (apply Z.pow_pos_nonneg; lia).
      pose proof (Z.mod_pos_bound m (2 ^ Z.of_nat k) Hk) as Hb.
      pose proof (Zmod_odd (m / 2 ^ Z.of_nat k)) as Ho.
      destruct (Z.odd (m / 2 ^ Z.of_nat k)); rewrite Ho;
        destruct (Z.eqb_spec (m mod 2 ^ Z.of_nat k) 0) as [E'|E'];
        match goal with |- context [?a =? 0] =>
          destruct (Z.eqb_spec a 0) as [E''|E'']
        end; try reflexivity; exfalso; nia.
Qed.

(** The rounding of [shr_fexp] followed by [round_nearest_even] is
    [round_half_even]. *)
Lemma round_shr (m : Z) (p : positive) :
  0 <= m ->
  let mrs := iter_pos shr_1 p (Build_shr_record m false false) in
  round_nearest_even (shr_m mrs) (loc_of_shr_record mrs) =
  round_half_even m (2 ^ Zpos p).
Proof.
  intros Hm mrs. unfold mrs. rewrite iter_pos_nat.
  destruct (Pos2Nat.is_succ p) as (k & Ek). rewrite Ek.
  destruct (shr_nat_flags m k Hm) as (H1 & H2 & H3). cbv zeta in H1, H2, H3.
  assert (Ep : Zpos p = Z.of_nat k + 1) by lia. rewrite Ep. clear Ek Ep.
  destruct (Nat.iter (S k) shr_1 _) as [m' r s]. cbn [shr_m shr_r shr_s] in *.
  subst m' r s. unfold round_half_even.
  rewrite mod_pow2_succ by lia.
  assert (Hk : 0 < 2 ^ Z.of_nat k) by (apply Z.pow_pos_nonneg; lia).
  pose proof (Z.mod_pos_bound m (2 ^ Z.of_nat k) Hk) as Hb.
  rewrite (Z.pow_add_r 2 (Z.of_nat k) 1) by lia. change (2 ^ 1) with 2.
  pose proof (Zmod_odd (m / 2 ^ Z.of_nat k)) as Ho.
  destruct (Z.odd (m / 2 ^ Z.of_nat k)); rewrite Ho;
    destruct (Z.eqb_spec (m mod 2 ^ Z.of_nat k) 0) as [E'|E'];
    cbn [negb loc_of_shr_record round_nearest_even];
    match goal with |- context [?a ?= ?b] => destruct (Z.compare_spec a b) end;
    try reflexivity; exfalso; nia.
Qed.

Lemma round_half_even_1 (m : Z) : round_half_even m 1 = m.
Proof. unfold round_half_even. rewrite Z.mod_1_r, Z.div_1_r. reflexivity. Qed.

(** [binary_round_aux] on an exact mantissa rounds to nearest, ties to
    even. *)
Lemma binary_round_aux_nearest (s : bool) (M E : Z) :
  0 <= M ->
  let n := Z.max 0 (fexp (Zdigits2 M + E) - E) in
  let r := round_half_even M (2 ^ n) in
  let g := E + n in
  let k := Z.max 0 (fexp (Zdigits2 r + g) - g) in
  binary_round_aux prec emax s M E loc_Exact =
    match r / 2 ^ k with
    | Z0 => S754_zero s
    | Zpos m => if g + k <=? 971 then S754_finite s m (g + k)
                else S754_infinity s
    | Zneg _ => S754_nan
    end.
Proof.
  intros HM n r g k. unfold binary_round_aux.
  assert (H1 : round_nearest_even
                 (shr_m (fst (shr_fexp prec emax M E loc_Exact)))
                 (loc_of_shr_record (fst (shr_fexp prec emax M E loc_Exact))) = r
               /\ snd (shr_fexp prec emax M E loc_Exact) = g).
  { unfold shr_fexp, shr, r, g, n.
    destruct (fexp (Zdigits2 M + E) - E) as [|p|p] eqn:En; cbn [fst snd].
    - cbn [shr_record_of_loc loc_of_shr_record shr_m round_nearest_even Z.max].
      change (2 ^ 0) with 1. rewrite round_half_even_1. split; [reflexivity | lia].
    - rewrite Z.max_r by lia. split; [|reflexivity].
      apply (round_shr M p HM).
    - rewrite Z.max_l by lia.
      cbn [shr_record_of_loc loc_of_shr_record shr_m round_nearest_even].
      change (2 ^ 0) with 1. rewrite round_half_even_1. split; [reflexivity | lia]. }
  destruct (shr_fexp prec emax M E loc_Exact) as [mrs' e'].
  cbn [fst snd] in H1. destruct H1 as [H1 H2]. rewrite H1, H2.
  assert (Hr : 0 <= r).
  { unfold r, round_half_even.
    assert (0 < 2 ^ n) by (apply Z.pow_pos_nonneg; unfold n; lia).
    assert (0 <= M / 2 ^ n) by (apply Z.div_pos; lia).
    destruct (_ ?= _); [destruct (Z.even _)| |]; lia. }
  pose proof (shr_fexp_spec r g loc_Exact Hr) as [H3 H4].
  destruct (shr_fexp prec emax r g loc_Exact) as [mrs'' e''].
  cbn [fst snd] in H3, H4. fold k in H3, H4. rewrite H3, H4. reflexivity.
Qed.

(** Facts on [round_half_even]. *)
Lemma round_half_even_ge (n d t : Z) :
  0 < d -> t * d <= n -> t <= round_half_even n d.
Proof.
  intros Hd H. assert (t <= n / d) by (apply Z.div_le_lower_bound; lia).
  unfold round_half_even. destruct (_ ?= _); [destruct (Z.even _)| |]; lia.
Qed.

Lemma round_half_even_le (n d t : Z) :
  0 < d -> n <= t * d -> round_half_even n d <= t.
Proof.
  intros Hd H. unfold round_half_even.
  pose proof (Z.div_mod n d ltac:(lia)) as Hdm.
  pose proof (Z.mod_pos_bound n d Hd) as Hb.
  assert (n / d <= t) by (apply Z.div_le_upper_bound; lia).
  destruct (Z.eq_dec (n mod d) 0) as [E|E].
  - rewrite E. destruct (Z.compare_spec (2 * 0) d); lia.
  - assert (n / d < t) by nia.
    destruct (_ ?= _); [destruct (Z.even _)| |]; lia.
Qed.

Lemma round_half_even_near (n d t : Z) :
  0 < d -> 2 * Z.abs (n - t * d) < d -> round_half_even n d = t.
Proof.
  intros Hd H. unfold round_half_even.
  destruct (Z_le_gt_dec (t * d) n) as [Hle|Hgt].
  - assert (Eq : n / d = t) by (symmetry; apply (Z.div_unique n d t (n - t * d)); lia).
    assert (Er : n mod d = n - t * d) by (symmetry; apply (Z.mod_unique n d t (n - t * d)); lia).
    rewrite Eq, Er. destruct (Z.compare_spec (2 * (n - t * d)) d); lia.
  - assert (Eq : n / d = t - 1)
      by (symmetry; apply (Z.div_unique n d (t - 1) (n - (t - 1) * d)); lia).
    assert (Er : n mod d = n - (t - 1) * d)
      by (symmetry; apply (Z.mod_unique n d (t - 1) (n - (t - 1) * d)); lia).
    rewrite Eq, Er. destruct (Z.compare_spec (2 * (n - (t - 1) * d)) d); lia.
Qed.


(** Ints below [2 ^ 53] convert exactly. *)
Lemma float_of_int_exact (z : Z) (x : float) :
  0 < z < 2 ^ 53 -> float_of_int z = Ok x ->
  exists mx ex, normal x false mx ex /\ -52 <= ex <= 0 /\
                Zpos mx = z * 2 ^ (- ex).
Proof.
  intros Hz Hx. pose proof (float_of_int_Prim2SF z x Hx) as HP.
  destruct z as [|p|p]; try lia. cbn [binary_normalize] in HP.
  unfold binary_round in HP.
  pose proof (shl_align_spec p 0 (fexp (Zpos (digits2_pos p) + 0))) as [H1 H2].
  destruct (shl_align p 0 (fexp (Zpos (digits2_pos p) + 0))) as [mz ez].
  cbn [fst snd] in H1, H2.
  pose proof (digits2_pos_bounds p) as [Hl Hu].
  pose proof (Zdigits2_pos (Zpos p) eq_refl) as Hdpos. cbn [Zdigits2] in Hdpos.
  set (dp := Zpos (digits2_pos p)) in *.
  assert (Hdp : dp <= 53).
  { destruct (Z_le_gt_dec dp 53) as [|Hgt]; [assumption|].
    assert (2 ^ 53 <= 2 ^ (dp - 1)) by (apply Z.pow_le_mono_r; lia). lia. }
  rewrite fexp_eq in H1, H2.
  assert (Eez : ez = dp - 53) by lia.
  replace (0 - Z.min 0 (Z.max (dp + 0 - 53) (-1074))) with (53 - dp) in H2 by lia.
  assert (Hdz : Zdigits2 (Zpos mz) = 53).
  { rewrite H2. rewrite Zdigits2_mul_pow2 by lia. cbn [Zdigits2]. fold dp. lia. }
  rewrite (binary_round_aux_nearest false (Zpos mz) ez ltac:(lia)) in HP.
  cbv zeta in HP. rewrite Hdz in HP. rewrite fexp_eq in HP.
  replace (Z.max 0 (Z.max (53 + ez - 53) (-1074) - ez)) with 0 in HP by lia.
  change (2 ^ 0) with 1 in HP. rewrite round_half_even_1, Hdz in HP.
  replace (ez + 0) with ez in HP by lia. rewrite fexp_eq in HP.
  replace (Z.max 0 (Z.max (53 + ez - 53) (-1074) - ez)) with 0 in HP by lia.
  change (2 ^ 0) with 1 in HP. rewrite Z.div_1_r in HP.
  replace (ez + 0 <=? 971) with true in HP by (symmetry; apply Z.leb_le; lia).
  replace (ez + 0) with ez in HP by lia.
  exists mz, ez. split; [|split; [lia|]].
  - split; [exact HP|]. split; [exact Hdz | lia].
  - rewrite H2. f_equal. f_equal. lia.
Qed.

(** The product of two positive normal floats, away from the overflow and
    underflow thresholds, is the exact product rounded to nearest (ties to
    even) at 53 bits. *)
Lemma mul_nearest (x c : float) (mx mc : positive) (ex ec : Z) :
  normal x false mx ex -> normal c false mc ec ->
  -1126 <= ex + ec <= 900 ->
  let M := Zpos mx * Zpos mc in
  let d := Zdigits2 M in
  let g := d + (ex + ec) - 53 in
  105 <= d <= 106 /\
  exists m e,
    Prim2SF (x * c)%float = S754_finite false m e /\
    g <= e <= g + 1 /\
    Zpos m * 2 ^ (e - g) = round_half_even M (2 ^ (d - 53)).
Proof.
  intros Hx Hc Hrange M d g.
  destruct (mul_normal x c mx mc ex ec Hx Hc ltac:(lia))
    as (Hd & m & e & Hres & He & Hsw & Hdm).
  cbv zeta in Hd, Hres, He, Hsw. fold M in Hd, He, Hsw. fold d in Hd, He, Hsw.
  fold g in He, Hsw.
  split; [exact Hd|]. exists m, e.
  assert (Hfin : (e <=? 971) = true) by (apply Z.leb_le; unfold g in He; lia).
  rewrite Hfin in Hres. split; [exact Hres|]. split; [exact He|].
  destruct Hx as (Px & _ & _). destruct Hc as (Pc & _ & _).
  rewrite mul_spec, Px, Pc in Hres. unfold SF64mul, SFmul in Hres.
  cbn [xorb] in Hres. rewrite Pos2Z.inj_mul in Hres. fold M in Hres.
  rewrite (binary_round_aux_nearest false M (ex + ec) ltac:(unfold M; lia)) in Hres.
  cbv zeta in Hres. fold d in Hres. rewrite fexp_eq in Hres.
  replace (Z.max 0 (Z.max (d + (ex + ec) - 53) (-1074) - (ex + ec)))
    with (d - 53) in Hres by lia.
  replace (ex + ec + (d - 53)) with g in Hres by (unfold g; lia).
  set (r := round_half_even M (2 ^ (d - 53))) in *.
  set (k := Z.max 0 (fexp (Zdigits2 r + g) - g)) in *.
  assert (Hk0 : 0 <= k) by (unfold k; lia).
  assert (Hrq : M / 2 ^ (d - 53) <= r <= M / 2 ^ (d - 53) + 1).
  { unfold r, round_half_even. destruct (_ ?= _); [destruct (Z.even _)| |]; lia. }
  assert (Hq : M / 2 ^ (d - 53) < 2 ^ 53).
  { apply Z.div_lt_upper_bound; [apply Z.pow_pos_nonneg; lia|].
    rewrite <- Z.pow_add_r by lia. replace (d - 53 + 53) with d by lia.
    apply Zdigits2_bounds. unfold M. lia. }
  destruct (r / 2 ^ k) as [|m'|m'] eqn:Er; try discriminate.
  destruct (g + k <=? 971); [|discriminate].
  injection Hres as Em Ee. subst m'. 
  assert (Ek : k = e - g) by lia. rewrite <- Ek.
  destruct (Z.eq_dec k 0) as [K0|K0].
  - rewrite K0 in *. change (2 ^ 0) with 1 in *. rewrite Z.div_1_r in Er. lia.
  - assert (K1 : k = 1) by lia. rewrite K1 in *. change (2 ^ 1) with 2 in *.
    pose proof (Z.div_mod r 2 ltac:(lia)) as Hdm2.
    pose proof (Z.mod_pos_bound r 2 ltac:(lia)) as Hb2.
    pose proof (digits2_pos_bounds m) as [Hl _]. rewrite Hdm in Hl.
    change (2 ^ (53 - 1)) with (2 ^ 52) in Hl. lia.
Qed.


Lemma Zdigits2_le_pow2 (m j : Z) : 0 < m -> m < 2 ^ j -> Zdigits2 m <= j.
Proof.
  intros Hm Hj. destruct (Z_le_gt_dec (Zdigits2 m) j) as [|Hgt]; [assumption|].
  pose proof (Zdigits2_bounds m Hm) as [Hl _].
  destruct (Z_lt_le_dec j 0) as [Hn|Hn].
  - rewrite Z.pow_neg_r in Hj by assumption. lia.
  - assert (2 ^ j <= 2 ^ (Zdigits2 m - 1)) by (apply Z.pow_le_mono_r; lia). lia.
Qed.

(** The product of a converted int [z] and a normal constant
    [c = mc * 2 ^ ec] below [2 ^ 48]: how it compares with any int [u], read
    off the exact product [z * mc * 2 ^ ec].  An int at least [1/32] away
    from the exact product compares as it does with the exact product; an int
    within a relative [2 ^ -54] of it is the product. *)
Lemma mul_int_const (z : Z) (x c : float) (mc : positive) (ec : Z) :
  0 < z < 2 ^ 53 -> float_of_int z = Ok x -> normal c false mc ec ->
  -60 <= ec <= -52 -> z * Zpos mc < 2 ^ (48 - ec) ->
  finite_nonneg (Prim2SF (x * c)%float) /\
  (forall u, (32 * u + 1) * 2 ^ (- ec - 5) <= z * Zpos mc ->
             compare_int_float u (x * c)%float = Some Lt) /\
  (forall u, z * Zpos mc <= (32 * u - 1) * 2 ^ (- ec - 5) ->
             compare_int_float u (x * c)%float = Some Gt) /\
  (forall u, 2 ^ 54 * Z.abs (z * Zpos mc - u * 2 ^ (- ec)) <= z * Zpos mc ->
             compare_int_float u (x * c)%float = Some Eq).
Proof.
  intros Hz Hx Hc Hec Hsmall.
  destruct (float_of_int_exact z x Hz Hx) as (mx & ex & Hn & Hex & Emx).
  destruct (mul_nearest x c mx mc ex ec Hn Hc ltac:(lia))
    as (Hd & m & e & Hres & He & Hr).
  cbv zeta in Hd, He, Hr.
  set (M := Zpos mx * Zpos mc) in *. set (d := Zdigits2 M) in *.
  set (g := d + (ex + ec) - 53) in *.
  assert (HX : 0 < 2 ^ (- ex)) by (apply Z.pow_pos_nonneg; lia).
  assert (EM : M = z * Zpos mc * 2 ^ (- ex)) by (unfold M; rewrite Emx; ring).
  assert (HMpos : 0 < M) by (unfold M; lia).
  assert (Hdle : d <= 48 - ec - ex).
  { apply Zdigits2_le_pow2; [assumption|]. rewrite EM.
    replace (48 - ec - ex) with (48 - ec + - ex) by lia.
    rewrite Z.pow_add_r by lia. apply Z.mul_lt_mono_pos_r; assumption. }
  assert (Hg : g <= -5) by (unfold g; lia).
  assert (Hcmp : forall u, compare_int_float u (x * c)%float
                           = Some (u * 2 ^ (- e) ?= Zpos m)).
  { intros u. unfold compare_int_float. rewrite Hres. cbn [cond_Zopp].
    replace (Z.max 0 (- e)) with (- e) by lia.
    replace (Z.max 0 e) with 0 by lia. now rewrite Z.mul_1_r. }
  (* everything at the scale of the result *)
  set (A := 2 ^ (- g - 5)). set (B := 2 ^ (e - g)) in *.
  set (D := 2 ^ (d - 53)) in *.
  assert (HA : 0 < A) by (apply Z.pow_pos_nonneg; lia).
  assert (HB : 0 < B) by (apply Z.pow_pos_nonneg; lia).
  assert (HD : 0 < D) by (apply Z.pow_pos_nonneg; lia).
  assert (EpeB : forall u, u * 2 ^ (- e) * B = 32 * u * A).
  { intros u. unfold A, B. rewrite <- Z.mul_assoc, <- Z.pow_add_r by lia.
    replace (- e + (e - g)) with (5 + (- g - 5)) by lia.
    rewrite Z.pow_add_r by lia. change (2 ^ 5) with 32. ring. }
  assert (EAD : A * D = 2 ^ (- ec - 5) * 2 ^ (- ex)).
  { unfold A, D. rewrite <- !Z.pow_add_r by lia. f_equal. unfold g. lia. }
  assert (E32 : 32 * 2 ^ (- ec - 5) = 2 ^ (- ec)).
  { change 32 with (2 ^ 5). rewrite <- Z.pow_add_r by lia. f_equal. lia. }
  assert (HMD : M < 2 ^ 53 * D).
  { unfold D. rewrite <- Z.pow_add_r by lia. replace (53 + (d - 53)) with d by lia.
    apply Zdigits2_bounds. assumption. }
  split; [rewrite Hres; constructor|]. split; [|split].
  - intros u Hu. rewrite Hcmp. f_equal. apply Z.compare_lt_iff.
    assert (Ht : (32 * u + 1) * A <= Zpos m * B).
    { rewrite Hr. apply round_half_even_ge; [assumption|].
      rewrite <- Z.mul_assoc, EAD, EM, Z.mul_assoc.
      apply Z.mul_le_mono_nonneg_r; lia. }
    specialize (EpeB u). nia.
  - intros u Hu. rewrite Hcmp. f_equal. apply Z.compare_gt_iff.
    assert (Ht : Zpos m * B <= (32 * u - 1) * A).
    { rewrite Hr. apply round_half_even_le; [assumption|].
      rewrite <- Z.mul_assoc, EAD, EM, Z.mul_assoc.
      apply Z.mul_le_mono_nonneg_r; lia. }
    specialize (EpeB u). nia.
  - intros u Hu. rewrite Hcmp. f_equal. apply Z.compare_eq_iff.
    assert (Ht : Zpos m * B = 32 * u * A).
    { rewrite Hr. apply round_half_even_near; [assumption|].
      replace (M - 32 * u * A * D)
        with ((z * Zpos mc - u * 2 ^ (- ec)) * 2 ^ (- ex)).
      - rewrite Z.abs_mul, (Z.abs_eq (2 ^ (- ex))) by lia.
        assert (2 ^ 54 * (Z.abs (z * Zpos mc - u * 2 ^ (- ec)) * 2 ^ (- ex)) <= M)
          by (rewrite EM; nia).
        lia.
      - rewrite EM, <- E32. rewrite <- (Z.mul_assoc (32 * u) A D), EAD. ring. }
    specialize (EpeB u). nia.
Qed.

(** Two ints compared with the same float. *)
Lemma compare_int_float_order (a b : Z) (p : float) (ca : comparison) :
  compare_int_float a p = Some ca -> ca <> Gt ->
  compare_int_float b p = Some Gt -> a < b.
Proof.
  unfold compare_int_float.
  destruct (Prim2SF p) as [s|s| |s m e]; try discriminate.
  - intros [= <-] Hne [= Hb]. rewrite Z.compare_gt_iff in Hb.
    destruct (Z.compare_spec a 0); try lia. congruence.
  - destruct s; intros [= <-] Hne; congruence.
  - set (S := 2 ^ Z.max 0 (- e)). set (V := cond_Zopp s (Zpos m) * 2 ^ Z.max 0 e).
    assert (0 < S) by (apply Z.pow_pos_nonneg; lia).
    intros [= <-] Hne [= Hb]. rewrite Z.compare_gt_iff in Hb.
    destruct (Z.compare_spec (a * S) V); try congruence; nia.
Qed.

(** [int(p)] is the int [F] with [F <= p < F + 1], for a non-negative [p]. *)
Lemma int_of_float_unique (p : float) (F : Z) (cF : comparison) :
  finite_nonneg (Prim2SF p) ->
  compare_int_float F p = Some cF -> cF <> Gt ->
  compare_int_float (F + 1) p = Some Gt ->
  int_of_float p = Ok F.
Proof.
  intros Hp HF Hne HF1.
  assert (Hn : exists n, int_of_float p = Ok n)
    by (unfold int_of_float; inversion Hp as [s Hs|m e Hs]; eauto).
  destruct Hn as (n & Hn). rewrite Hn. f_equal.
  destruct (int_of_float_floor p n Hp Hn) as (_ & Hle & Hgt).
  unfold int_le_float in Hle. unfold int_gt_float in Hgt.
  destruct (compare_int_float n p) as [cn|] eqn:En; [|discriminate].
  destruct (compare_int_float (n + 1) p) as [[| |]|] eqn:En1; try discriminate.
  assert (n < F + 1)
    by (apply (compare_int_float_order n (F + 1) p cn En);
        [destruct cn; congruence | assumption]).
  assert (F < n + 1)
    by (apply (compare_int_float_order F (n + 1) p cF HF Hne En1)).
  lia.
Qed.

End Nearest.

(* ===================================================================== *)
(** * The float constants of the facility model as fractions *)
(* ===================================================================== *)

Module Ratio.
Import Binary64 Nearest.

(** A constant [c] that stands for the fraction [a / b]: the product
    [float(z) * c] compares with an int [u] as [a * z / b] does, as long as
    [b * u <> a * z]; the three side conditions are linear facts on [z] and
    [u] for a given constant. *)
Lemma compare_mul_ratio_ne (z : Z) (x c : float) (mc : positive) (ec a b : Z) :
  0 <= z < 2 ^ 47 -> float_of_int z = Ok x -> normal c false mc ec ->
  -60 <= ec <= -52 -> 0 < b ->
  (forall u, b * u < a * z -> (32 * u + 1) * 2 ^ (- ec - 5) <= z * Zpos mc) ->
  (forall u, a * z < b * u -> z * Zpos mc <= (32 * u - 1) * 2 ^ (- ec - 5)) ->
  finite_nonneg (Prim2SF (x * c)%float) /\
  forall u, b * u <> a * z ->
            compare_int_float u (x * c)%float = Some (b * u ?= a * z).
Proof.
  intros Hz Hx Hc Hec Hb Hlt Hgt.
  destruct (Z.eq_dec z 0) as [->|Hnz].
  - apply float_of_int_0 in Hx.
    assert (E : Prim2SF (x * c)%float = S754_zero false)
      by (rewrite mul_spec, Hx; destruct Hc as (-> & _); reflexivity).
    split; [rewrite E; constructor|]. intros u Hu.
    unfold compare_int_float. rewrite E. f_equal.
    rewrite Z.mul_0_r in *.
    destruct (Z.compare_spec u 0), (Z.compare_spec (b * u) 0); try reflexivity; nia.
  - pose proof (normal_mantissa_bounds _ _ _ _ Hc) as Bc.
    assert (Hsmall : z * Zpos mc < 2 ^ (48 - ec)).
    { assert (z * Zpos mc < 2 ^ 47 * 2 ^ 53) by (apply Z.mul_lt_mono_nonneg; lia).
      assert (2 ^ 100 <= 2 ^ (48 - ec)) by (apply Z.pow_le_mono_r; lia).
      change (2 ^ 47 * 2 ^ 53) with (2 ^ 100) in *. lia. }
    assert (Hz53 : 0 < z < 2 ^ 53).
    { assert (2 ^ 47 < 2 ^ 53) by reflexivity. lia. }
    destruct (mul_int_const z x c mc ec Hz53 Hx Hc Hec Hsmall)
      as (Hfin & Ha & Hb' & _).
    split; [exact Hfin|]. intros u Hu.
    destruct (Z.compare_spec (b * u) (a * z)) as [E|L|G]; [contradiction| |].
    + apply Ha, Hlt, L.
    + apply Hb', Hgt, G.
Qed.

(** When moreover the constant is within a relative [2 ^ -54] of [a / b],
    the comparison is exact for every int. *)
Lemma compare_mul_ratio (z : Z) (x c : float) (mc : positive) (ec a b : Z) :
  0 <= z < 2 ^ 47 -> float_of_int z = Ok x -> normal c false mc ec ->
  -60 <= ec <= -52 -> 0 < b ->
  (forall u, b * u < a * z -> (32 * u + 1) * 2 ^ (- ec - 5) <= z * Zpos mc) ->
  (forall u, a * z < b * u -> z * Zpos mc <= (32 * u - 1) * 2 ^ (- ec - 5)) ->
  (forall u, b * u = a * z ->
             2 ^ 54 * Z.abs (z * Zpos mc - u * 2 ^ (- ec)) <= z * Zpos mc) ->
  finite_nonneg (Prim2SF (x * c)%float) /\
  forall u, compare_int_float u (x * c)%float = Some (b * u ?= a * z).
Proof.
  intros Hz Hx Hc Hec Hb Hlt Hgt Heq.
  destruct (compare_mul_ratio_ne z x c mc ec a b Hz Hx Hc Hec Hb Hlt Hgt)
    as (Hfin & Hne).
  split; [exact Hfin|]. intros u.
  destruct (Z.eq_dec (b * u) (a * z)) as [E|NE]; [|now apply Hne].
  rewrite E, Z.compare_refl.
  destruct (Z.eq_dec z 0) as [->|Hnz].
  - apply float_of_int_0 in Hx.
    assert (E0 : Prim2SF (x * c)%float = S754_zero false)
      by (rewrite mul_spec, Hx; destruct Hc as (-> & _); reflexivity).
    unfold compare_int_float. rewrite E0. f_equal.
    assert (u = 0) by nia. subst u. reflexivity.
  - pose proof (normal_mantissa_bounds _ _ _ _ Hc) as Bc.
    assert (Hsmall : z * Zpos mc < 2 ^ (48 - ec)).
    { assert (z * Zpos mc < 2 ^ 47 * 2 ^ 53) by (apply Z.mul_lt_mono_nonneg; lia).
      assert (2 ^ 100 <= 2 ^ (48 - ec)) by (apply Z.pow_le_mono_r; lia).
      change (2 ^ 47 * 2 ^ 53) with (2 ^ 100) in *. lia. }
    assert (Hz53 : 0 < z < 2 ^ 53).
    { assert (2 ^ 47 < 2 ^ 53) by reflexivity. lia. }
    destruct (mul_int_const z x c mc ec Hz53 Hx Hc Hec Hsmall)
      as (_ & _ & _ & Hc').
    apply Hc', Heq, E.
Qed.

(** [int(float(z) * c)] is the floor of [a * z / b] under the same
    conditions. *)
Lemma int_mul_ratio (z : Z) (x c : float) (a b : Z) :
  0 < b -> finite_nonneg (Prim2SF (x * c)%float) ->
  (forall u, compare_int_float u (x * c)%float = Some (b * u ?= a * z)) ->
  int_of_float (x * c)%float = Ok (a * z / b).
Proof.
  intros Hb Hfin Hcmp.
  pose proof (Z.div_mod (a * z) b ltac:(lia)) as Hdm.
  pose proof (Z.mod_pos_bound (a * z) b Hb) as Hbd.
  apply (int_of_float_unique _ _ (b * (a * z / b) ?= a * z) Hfin (Hcmp _)).
  - rewrite Z.compare_gt_iff. lia.
  - rewrite Hcmp. f_equal. apply Z.compare_gt_iff. lia.
Qed.

Ltac pow_consts :=
  repeat match goal with
         | |- context [2 ^ ?k] =>
             let v := eval vm_compute in (2 ^ k) in
             progress change (2 ^ k) with v
         end.

Ltac linear_side := intros; pow_consts; lia.

Lemma Prim2SF_0_15 : normal 0.15 false 5404319552844595 (-55).
Proof. repeat split; vm_compute; congruence. Qed.

Lemma Prim2SF_1_2 : normal 1.2 false 5404319552844595 (-52).
Proof. repeat split; vm_compute; congruence. Qed.

Section Constants.
Variables (z : Z) (x : float).
Hypothesis Hz : 0 <= z < 2 ^ 47.
Hypothesis Hx : float_of_int z = Ok x.

Lemma compare_0_20 :
  finite_nonneg (Prim2SF (x * 0.20)%float) /\
  forall u, compare_int_float u (x * 0.20)%float = Some (5 * u ?= 1 * z).
Proof.
  apply (compare_mul_ratio z x _ _ _ 1 5 Hz Hx Prim2SF_0_20); try lia;
    revert Hz; linear_side.
Qed.

Lemma compare_0_85 :
  finite_nonneg (Prim2SF (x * 0.85)%float) /\
  forall u, compare_int_float u (x * 0.85)%float = Some (20 * u ?= 17 * z).
Proof.
  apply (compare_mul_ratio z x _ _ _ 17 20 Hz Hx Prim2SF_0_85); try lia;
    revert Hz; linear_side.
Qed.

Lemma compare_0_15 :
  finite_nonneg (Prim2SF (x * 0.15)%float) /\
  forall u, compare_int_float u (x * 0.15)%float = Some (20 * u ?= 3 * z).
Proof.
  apply (compare_mul_ratio z x _ _ _ 3 20 Hz Hx Prim2SF_0_15); try lia;
    revert Hz; linear_side.
Qed.

Lemma compare_0_3 :
  finite_nonneg (Prim2SF (x * 0.3)%float) /\
  forall u, compare_int_float u (x * 0.3)%float = Some (10 * u ?= 3 * z).
Proof.
  apply (compare_mul_ratio z x _ _ _ 3 10 Hz Hx FacilityFacts.Prim2SF_0_3); try lia;
    revert Hz; linear_side.
Qed.

Lemma compare_1_2 :
  finite_nonneg (Prim2SF (x * 1.2)%float) /\
  forall u, compare_int_float u (x * 1.2)%float = Some (5 * u ?= 6 * z).
Proof.
  apply (compare_mul_ratio z x _ _ _ 6 5 Hz Hx Prim2SF_1_2); try lia;
    revert Hz; linear_side.
Qed.

Lemma compare_0_60 :
  finite_nonneg (Prim2SF (x * 0.60)%float) /\
  forall u, compare_int_float u (x * 0.60)%float = Some (5 * u ?= 3 * z).
Proof.
  apply (compare_mul_ratio z x _ _ _ 3 5 Hz Hx FacilityFacts.Prim2SF_0_60); try lia;
    revert Hz; linear_side.
Qed.

Lemma compare_0_70 :
  finite_nonneg (Prim2SF (x * 0.70)%float) /\
  forall u, 10 * u <> 7 * z ->
            compare_int_float u (x * 0.70)%float = Some (10 * u ?= 7 * z).
Proof.
  apply (compare_mul_ratio_ne z x _ _ _ 7 10 Hz Hx FacilityFacts.Prim2SF_0_70); try lia;
    revert Hz; linear_side.
Qed.


Lemma int_0_3 : int_of_float (x * 0.3)%float = Ok (3 * z / 10).
Proof.
  destruct compare_0_3 as (Hfin & Hcmp).
  apply (int_mul_ratio z x _ 3 10); [lia | exact Hfin | exact Hcmp].
Qed.

Lemma int_1_2 : int_of_float (x * 1.2)%float = Ok (6 * z / 5).
Proof.
  destruct compare_1_2 as (Hfin & Hcmp).
  apply (int_mul_ratio z x _ 6 5); [lia | exact Hfin | exact Hcmp].
Qed.

Lemma int_0_60 : int_of_float (x * 0.60)%float = Ok (3 * z / 5).
Proof.
  destruct compare_0_60 as (Hfin & Hcmp).
  apply (int_mul_ratio z x _ 3 5); [lia | exact Hfin | exact Hcmp].
Qed.

(** [0.70] is too far below [7 / 10] for an exact floor: the truncation
    can fall one short. *)
Lemma int_0_70 :
  exists n, int_of_float (x * 0.70)%float = Ok n /\ 0 <= n /\
            7 * z / 10 - 1 <= n <= 7 * z / 10.
Proof.
  destruct compare_0_70 as (Hfin & Hcmp).
  assert (Hn : exists n, int_of_float (x * 0.70)%float = Ok n)
    by (unfold int_of_float; inversion Hfin as [s Hs|m e Hs]; eauto).
  destruct Hn as (n & Hn). exists n. split; [exact Hn|].
  destruct (int_of_float_floor _ n Hfin Hn) as (Hn0 & Hle & Hgt).
  split; [exact Hn0|].
  unfold int_le_float in Hle. unfold int_gt_float in Hgt.
  destruct (compare_int_float n _) as [cn|] eqn:En; [|discriminate].
  destruct (compare_int_float (n + 1) _) as [[| |]|] eqn:En1; try discriminate.
  set (F := 7 * z / 10).
  pose proof (Z.div_mod (7 * z) 10 ltac:(lia)) as Hdm.
  pose proof (Z.mod_pos_bound (7 * z) 10 ltac:(lia)) as Hbd.
  fold F in Hdm.
  assert (H1 : compare_int_float (F + 1) (x * 0.70)%float = Some Gt).
  { rewrite Hcmp by lia. f_equal. apply Z.compare_gt_iff. lia. }
  assert (H2 : compare_int_float (F - 1) (x * 0.70)%float = Some Lt).
  { rewrite Hcmp by lia. f_equal. apply Z.compare_lt_iff. lia. }
  assert (n < F + 1)
    by (apply (compare_int_float_order n (F + 1) _ cn En);
        [destruct cn; congruence | assumption]).
  assert (F - 1 < n + 1)
    by (apply (compare_int_float_order (F - 1) (n + 1) _ Lt H2);
        [discriminate | assumption]).
  lia.
Qed.

End Constants.
End Ratio.

(* ===================================================================== *)
(** * Percentages *)
(* ===================================================================== *)

Module Percent.
Import Binary64 Nearest.

Local Abbreviation fexp := (SpecFloat.fexp prec emax).

(** A float in [[0, 1]]. *)
Variant unit_interval : spec_float -> Prop :=
| unit_zero : unit_interval (S754_zero false)
| unit_finite m e : e <= 0 -> Zpos m <= 2 ^ (- e) ->
                    unit_interval (S754_finite false m e).

(** The quotient of two ints [0 <= a <= b] is a float in [[0, 1]]. *)
Lemma int_truediv_unit (a b : Z) :
  0 <= a <= b -> 0 < b < 2 ^ 1000 ->
  exists q, int_truediv a b = Ok q /\ unit_interval (Prim2SF q).
Proof.
  intros Ha Hb.
  destruct (Z.eq_dec a b) as [->|Hne].
  { rewrite int_truediv_self by lia. eexists. split; [reflexivity|].
    change (Prim2SF 1) with (S754_finite false 4503599627370496 (-52)).
    constructor; [lia | reflexivity]. }
  unfold int_truediv.
  destruct (Z.eqb_spec b 0) as [|_]; [lia|].
  destruct b as [|pb|pb]; try lia. cbn [Z2SF].
  destruct a as [|pa|pa]; try lia.
  { cbn. eexists. split; [reflexivity|]. constructor. }
  cbn [Z2SF]. unfold SF64div, SFdiv, SFdiv_core_binary.
  set (d1 := Zdigits2 (Zpos pa)). set (d2 := Zdigits2 (Zpos pb)).
  replace (d1 + 0 - (d2 + 0)) with (d1 - d2) by lia.
  change (IntDef.Z.min (fexp (d1 - d2)) (0 - 0)) with (Z.min (fexp (d1 - d2)) (0 - 0)).
  assert (Hd1 : 0 < d1) by (apply Zdigits2_pos; lia).
  assert (Hd12 : d1 <= d2) by (apply Zdigits2_le; lia).
  assert (Hd2 : d2 <= 1000) by (apply Nearest.Zdigits2_le_pow2; lia).
  rewrite fexp_eq.
  replace (Z.min (Z.max (d1 - d2 - 53) (-1074)) (0 - 0)) with (d1 - d2 - 53) by lia.
  set (e' := d1 - d2 - 53).
  replace (0 - 0 - e') with (- e') by lia.
  destruct (- e') as [|ps|ps] eqn:Es; try (unfold e' in Es; lia).
  change (IntDef.Z.shiftl (Zpos pa) (Zpos ps)) with (Z.shiftl (Zpos pa) (Zpos ps)).
  rewrite Z.shiftl_mul_pow2 by lia. rewrite <- Es.
  change (IntDef.Z.div_eucl (Zpos pa * 2 ^ (- e')) (Zpos pb))
    with (Z.div_eucl (Zpos pa * 2 ^ (- e')) (Zpos pb)).
  pose proof (Z.div_mod (Zpos pa * 2 ^ (- e')) (Zpos pb) ltac:(lia)) as Hdm.
  pose proof (Z.mod_pos_bound (Zpos pa * 2 ^ (- e')) (Zpos pb) ltac:(lia)) as Hbd.
  unfold Z.div, Z.modulo in Hdm, Hbd.
  destruct (Z.div_eucl (Zpos pa * 2 ^ (- e')) (Zpos pb)) as [q r].
  assert (Hp : 0 < 2 ^ (- e')) by (apply Z.pow_pos_nonneg; unfold e'; lia).
  (* the quotient has 53 or 54 bits *)
  pose proof (Zdigits2_bounds (Zpos pa) ltac:(lia)) as [Bal Bau]. fold d1 in Bal, Bau.
  pose proof (Zdigits2_bounds (Zpos pb) ltac:(lia)) as [Bbl Bbu]. fold d2 in Bbl, Bbu.
  assert (Hqu : q < 2 ^ (- e')).
  { assert (Zpos pa * 2 ^ (- e') < Zpos pb * 2 ^ (- e'))
      by (apply Z.mul_lt_mono_pos_r; lia).
    apply (Z.mul_lt_mono_pos_l (Zpos pb)); lia. }
  assert (Hql : 2 ^ 52 <= q).
  { assert (2 ^ 52 * 2 ^ d2 <= 2 ^ (d1 - 1) * 2 ^ (- e')).
    { rewrite <- !Z.pow_add_r by (unfold e'; lia).
      apply Z.pow_le_mono_r; unfold e'; lia. }
    assert (2 ^ (d1 - 1) * 2 ^ (- e') <= Zpos pa * 2 ^ (- e'))
      by (apply Z.mul_le_mono_nonneg_r; lia).
    assert (2 ^ 52 * Zpos pb < 2 ^ 52 * 2 ^ d2) by (apply Z.mul_lt_mono_pos_l; lia).
    assert (Zpos pb * (2 ^ 52 - 1) < Zpos pb * q) by lia.
    assert (2 ^ 52 - 1 < q) by (apply (Z.mul_lt_mono_pos_l (Zpos pb)); lia).
    lia. }
  assert (Hq0 : 0 < q) by lia.
  assert (Hdq : 53 <= Zdigits2 q <= - e').
  { split.
    - change 53 with (Zdigits2 (2 ^ 52)). apply Zdigits2_le; lia.
    - apply Nearest.Zdigits2_le_pow2; assumption. }
  assert (Hal : e' <= fexp (Zdigits2 q + e')) by (rewrite fexp_eq; unfold e' in *; lia).
  pose proof (binary_round_aux_valid false q e' (new_location (Zpos pb) r) Hq0 Hal) as Hv.
  destruct (binary_round_aux_aligned false q e' (new_location (Zpos pb) r) Hq0 Hal)
    as [[Hz _]|(m & e & Hres & He & Hsw & _)].
  - cbn [xorb]. rewrite Hz. eexists. split; [reflexivity|].
    rewrite Prim2SF_SF2Prim by reflexivity. constructor.
  - cbv zeta in He, Hsw. set (g := fexp (Zdigits2 q + e')) in *.
    assert (Hg : e' <= g <= -53) by (unfold g; rewrite fexp_eq; unfold e' in *; lia).
    assert (HQ : q / 2 ^ (g - e') < 2 ^ (- g)).
    { apply Z.div_lt_upper_bound; [apply Z.pow_pos_nonneg; lia|].
      rewrite <- Z.pow_add_r by lia. now replace (g - e' + - g) with (- e') by lia. }
    assert (Hm : Zpos m <= 2 ^ (- e)).
    { assert (Zpos m * 2 ^ (e - g) <= 2 ^ (- e) * 2 ^ (e - g)).
      { rewrite <- Z.pow_add_r by lia. replace (- e + (e - g)) with (- g) by lia. lia. }
      assert (0 < 2 ^ (e - g)) by (apply Z.pow_pos_nonneg; lia). nia. }
    cbn [xorb]. rewrite Hres in Hv |- *.
    replace (e <=? 971) with true in * by (symmetry; apply Z.leb_le; lia).
    eexists. split; [reflexivity|].
    rewrite Prim2SF_SF2Prim by exact Hv. constructor; [lia | exact Hm].
Qed.

Lemma Prim2SF_100 : Prim2SF 100 = S754_finite false 7036874417766400 (-46).
Proof. reflexivity. Qed.

(** A float in [[0, 1]] times 100 is a float in [[0, 100]]. *)
Lemma mul_100_percent (x : float) :
  unit_interval (Prim2SF x) ->
  (0 <=? x * 100)%float = true /\ (x * 100 <=? 100)%float = true.
Proof.
  intros Hx. rewrite !leb_spec, mul_spec, Prim2SF_100.
  change (Prim2SF 0) with (S754_zero false).
  inversion Hx as [Hs|m e He Hm Hs]; [split; reflexivity|].
  unfold SF64mul, SFmul. cbn [xorb]. rewrite Pos2Z.inj_mul.
  set (mc := 7036874417766400). set (M := Zpos m * mc).
  rewrite (binary_round_aux_nearest false M (e + -46) ltac:(unfold M, mc; lia)).
  cbv zeta.
  set (n := Z.max 0 (fexp (Zdigits2 M + (e + -46)) - (e + -46))).
  set (r := round_half_even M (2 ^ n)). set (g := e + -46 + n).
  set (k := Z.max 0 (fexp (Zdigits2 r + g) - g)).
  assert (HMpos : 0 < M) by (unfold M, mc; lia).
  assert (Hpe : 0 < 2 ^ (- e)) by (apply Z.pow_pos_nonneg; lia).
  assert (HMle : M <= mc * 2 ^ (- e)) by (unfold M, mc in *; nia).
  assert (HdM : Zdigits2 M <= 53 - e).
  { apply Nearest.Zdigits2_le_pow2; [assumption|].
    replace (53 - e) with (53 + - e) by lia. rewrite Z.pow_add_r by lia.
    assert (mc < 2 ^ 53) by reflexivity. nia. }
  assert (Hn0 : 0 <= n) by (unfold n; lia).
  assert (Hg : g <= -46) by (unfold g, n; rewrite fexp_eq; lia).
  assert (Hpn : 0 < 2 ^ n) by (apply Z.pow_pos_nonneg; lia).
  assert (HT : r <= 100 * 2 ^ (- g)).
  { unfold r. apply round_half_even_le; [assumption|].
    rewrite <- Z.mul_assoc, <- Z.pow_add_r by lia.
    replace (- g + n) with (46 + - e) by (unfold g; lia).
    rewrite Z.pow_add_r by lia.
    assert (100 * (2 ^ 46 * 2 ^ (- e)) = mc * 2 ^ (- e)) by (unfold mc; lia). lia. }
  assert (Hr0 : 0 <= r).
  { unfold r, round_half_even. assert (0 <= M / 2 ^ n) by (apply Z.div_pos; lia).
    destruct (_ ?= _); [destruct (Z.even _)| |]; lia. }
  assert (Hk0 : 0 <= k) by (unfold k; lia).
  assert (Hpk : 0 < 2 ^ k) by (apply Z.pow_pos_nonneg; lia).
  assert (Hgk : g + k <= -46).
  { destruct (Z.eq_dec r 0) as [R0|R0].
    - unfold k. rewrite R0. cbn [Zdigits2]. rewrite fexp_eq. lia.
    - assert (Zdigits2 r <= 7 - g).
      { apply Nearest.Zdigits2_le_pow2; [lia|].
        replace (7 - g) with (7 + - g) by lia. rewrite Z.pow_add_r by lia.
        assert (0 < 2 ^ (- g)) by (apply Z.pow_pos_nonneg; lia).
        change (2 ^ 7) with 128. lia. }
      unfold k. rewrite fexp_eq. lia. }
  pose proof (Z.div_mod r (2 ^ k) ltac:(lia)) as Hdm.
  pose proof (Z.mod_pos_bound r (2 ^ k) Hpk) as Hbd.
  assert (Hdiv0 : 0 <= r / 2 ^ k) by (apply Z.div_pos; lia).
  destruct (r / 2 ^ k) as [|m'|m'] eqn:Em; try lia; [split; reflexivity|].
  replace (g + k <=? 971) with true by (symmetry; apply Z.leb_le; lia).
  split; [reflexivity|].
  unfold SFleb, SFcompare.
  destruct (Z.compare_spec (g + k) (-46)) as [E|L|G]; try reflexivity; try lia.
  destruct (PosDef.Pos.compare_cont Eq m' 7036874417766400) eqn:C;
    [reflexivity | reflexivity |].
  exfalso.
  assert (G : (7036874417766400 < m')%positive) by (apply Pos.compare_gt_iff; exact C).
  assert (HTk : 100 * 2 ^ (- g) = mc * 2 ^ k).
  { replace (- g) with (46 + k) by lia. rewrite Z.pow_add_r by lia. unfold mc. lia. }
  assert (Hmk : Zpos m' * 2 ^ k <= mc * 2 ^ k) by lia.
  assert (Zpos m' <= mc) by (apply (Z.mul_le_mono_pos_r _ _ (2 ^ k)); assumption).
  unfold mc in *. lia.
Qed.

End Percent.

(* ===================================================================== *)
(** * The facility model: usage lists *)
(* ===================================================================== *)

Module FacilityLists.
Import Facility FacilityFacts.

(** ** Sums, filters and loops *)

Lemma sum_nonneg (l : list Z) : Forall (fun u => 0 <= u) l -> 0 <= sum l.
Proof.
  induction 1 as [|u l Hu _ IH]; [rewrite sum_nil | rewrite sum_cons]; lia.
Qed.

Lemma sum_filter_le (p : Z -> bool) (l : list Z) :
  Forall (fun u => 0 <= u) l -> sum (filter p l) <= sum l.
Proof.
  induction 1 as [|u l Hu _ IH]; [cbn; lia|].
  cbn [filter]. destruct (p u); rewrite !sum_cons; lia.
Qed.

Lemma filter_idempotent {A : Type} (p : A -> bool) (l : list A) :
  filter p (filter p l) = filter p l.
Proof.
  induction l as [|a l IH]; [reflexivity|]. simpl.
  destruct (p a) eqn:E; [|exact IH]. simpl. rewrite E, IH. reflexivity.
Qed.


Lemma for_each_Forall2 {A B : Type} (body : A -> result B) (l : list A)
    (l' : list B) :
  for_each body l = Ok l' -> Forall2 (fun a b => body a = Ok b) l l'.
Proof.
  revert l'. induction l as [|a l IH]; intros l'; cbn [for_each].
  - intros [= <-]. constructor.
  - destruct (body a) as [b|e] eqn:Eb; [|discriminate]. cbn [bind].
    destruct (for_each body l) as [bs|e]; [|discriminate]. cbn [bind].
    intros [= <-]. constructor; auto.
Qed.

(** ** The peak *)

Lemma peak_usage_bounds (f : Facility) :
  Forall (fun u => u <= peak_usage f) (hourly_usage f).
Proof.
  unfold peak_usage. destruct (hourly_usage f) as [|u l] eqn:E; [constructor|].
  apply list_max_spec. discriminate.
Qed.

Lemma peak_usage_in (f : Facility) :
  hourly_usage f <> [] -> In (peak_usage f) (hourly_usage f).
Proof.
  unfold peak_usage. destruct (hourly_usage f) as [|u l] eqn:E; [congruence|].
  intros _. apply list_max_spec. discriminate.
Qed.

Lemma peak_usage_nonneg (f : Facility) :
  Forall (fun u => 0 <= u) (hourly_usage f) -> 0 <= peak_usage f.
Proof.
  intros Hnn. destruct (hourly_usage f) as [|u l] eqn:E.
  - unfold peak_usage. rewrite E. lia.
  - rewrite <- E in Hnn. rewrite Forall_forall in Hnn.
    apply Hnn, peak_usage_in. congruence.
Qed.

(** X1.  [peak_usage] is the largest slot of a non-empty usage list, and 0
    for an empty one. *)
Theorem peak_usage_is_max (f : Facility) :
  (hourly_usage f = [] -> peak_usage f = 0) /\
  (hourly_usage f <> [] -> In (peak_usage f) (hourly_usage f)) /\
  Forall (fun u => u <= peak_usage f) (hourly_usage f).
Proof.
  split; [|split].
  - intros E. unfold peak_usage. rewrite E. reflexivity.
  - apply peak_usage_in.
  - apply peak_usage_bounds.
Qed.

Lemma peak_usage_is_max_witness :
  peak_usage {| name := "Closed Lab"; max_capacity := 60; hourly_usage := [];
                operating_cost_per_hour := 450 |} = 0 /\
  In (peak_usage gymnasium) (hourly_usage gymnasium).
Proof.
  split.
  - apply (proj1 (peak_usage_is_max _)). reflexivity.
  - apply (proj1 (proj2 (peak_usage_is_max gymnasium))). discriminate.
Defined.

(** ** Redistribution of peaks, slot by slot *)

Lemma sum_le_cap (cap : Z) (l : list Z) :
  Forall (fun u => u <= cap) l -> sum l <= cap * Z.of_nat (List.length l).
Proof.
  induction 1 as [|u l Hu Hl IH]; [rewrite sum_nil; simpl; lia|].
  rewrite sum_cons. cbn [List.length]. lia.
Qed.

Lemma sum_all_cap (cap : Z) (l : list Z) :
  Forall (fun u => u = cap) l -> sum l = cap * Z.of_nat (List.length l).
Proof.
  induction 1 as [|u l Hu Hl IH]; [rewrite sum_nil; simpl; lia|].
  rewrite sum_cons. cbn [List.length]. lia.
Qed.

Lemma map_min_id (cap : Z) (l : list Z) :
  Forall (fun u => u <= cap) l -> map (Z.min cap) l = l.
Proof.
  induction 1 as [|u l Hu Hl IH]; [reflexivity|].
  cbn [map]. rewrite IH, Z.min_r by lia. reflexivity.
Qed.

Lemma spread_excess_0 (cap : Z) (idxs : list nat) (l : list Z) (e : Z) :
  e <= 0 -> spread_excess cap idxs l e = (l, e).
Proof.
  intros He. destruct idxs as [|i idxs]; [reflexivity|].
  cbn [spread_excess]. destruct (Z.leb_spec e 0); [reflexivity | lia].
Qed.

(** X2.  Redistribution is the identity on a usage list that is already at
    or below the cap. *)
Theorem redistribution_noop (f : Facility) (target_pct : float) (cap : Z) :
  redistribution_cap f target_pct = Ok cap ->
  Forall (fun u => u <= cap) (hourly_usage f) ->
  _redistribute_usage f target_pct = Ok (hourly_usage f).
Proof.
  intros Hcap Hle. unfold _redistribute_usage. rewrite Hcap. cbn [bind].
  f_equal. unfold redistribute_with_cap.
  destruct (clamp_peaks_spec cap (hourly_usage f) 0) as (H1 & H2 & H3).
  destruct (clamp_peaks cap (hourly_usage f) 0) as [clamped excess].
  cbn [fst snd] in *. rewrite map_min_id in H1 by assumption. subst clamped.
  rewrite spread_excess_0 by lia. reflexivity.
Qed.

Definition auditorium : Facility :=
  {| name := "Auditorium"; max_capacity := 500;
     hourly_usage := [0; 0; 50; 100; 350; 200; 80; 50; 30; 20; 15; 10; 50; 100;
                      300; 150; 50; 0];
     operating_cost_per_hour := 1200 |}.

Lemma redistribution_noop_witness :
  In auditorium build_dataset /\
  _redistribute_usage auditorium 0.70 = Ok (hourly_usage auditorium).
Proof.
  split; [simpl; tauto|].
  apply (redistribution_noop auditorium 0.70%float 350).
  - vm_compute. reflexivity.
  - repeat constructor; cbv; discriminate.
Defined.

(** X3.  Redistribution conserves person-hours exactly when the usage fits
    under the cap in total: the new total is the smaller of the old total and
    [cap * slots]. *)
Theorem redistribution_total (f : Facility) (target_pct : float) (cap : Z) :
  redistribution_cap f target_pct = Ok cap ->
  exists new_usage,
    _redistribute_usage f target_pct = Ok new_usage /\
    sum new_usage
      = Z.min (sum (hourly_usage f))
              (cap * Z.of_nat (List.length (hourly_usage f))) /\
    snd (redistribute_with_cap cap (hourly_usage f))
      = Z.max 0 (sum (hourly_usage f)
                 - cap * Z.of_nat (List.length (hourly_usage f))).
Proof.
  intros Hcap. unfold _redistribute_usage. rewrite Hcap. cbn [bind].
  eexists. split; [reflexivity|].
  pose proof (redistribute_with_cap_spec cap (hourly_usage f)) as H.
  cbv zeta in H. destruct H as (Hlen & Hle & Hd & Hsum & Hfull).
  pose proof (sum_le_cap _ _ Hle) as Hb. rewrite Hlen in Hb.
  destruct (Z_lt_le_dec 0 (snd (redistribute_with_cap cap (hourly_usage f))))
    as [Hpos|Hz].
  - pose proof (sum_all_cap _ _ (Hfull Hpos)) as Ha. rewrite Hlen in Ha. lia.
  - lia.
Qed.

Lemma redistribution_total_witness :
  exists new_usage,
    _redistribute_usage {| name := "Reading Room"; max_capacity := 10;
                           hourly_usage := [10; 9; 2];
                           operating_cost_per_hour := 100 |} 0.70
      = Ok new_usage /\
    sum new_usage = 21.
Proof.
  destruct (redistribution_total
              {| name := "Reading Room"; max_capacity := 10;
                 hourly_usage := [10; 9; 2];
                 operating_cost_per_hour := 100 |} 0.70%float 7)
    as (new_usage & H1 & H2 & _).
  - vm_compute. reflexivity.
  - exists new_usage. split; [exact H1 | exact H2].
Defined.

Lemma nth_map_min (cap : Z) (l : list Z) (i : nat) :
  (i < List.length l)%nat -> nth i (map (Z.min cap) l) 0 = Z.min cap (nth i l 0).
Proof.
  intros Hi. rewrite (nth_indep _ 0 (Z.min cap 0)) by (rewrite length_map; exact Hi).
  apply map_nth.
Qed.

(** The two loops of [_redistribute_usage], slot by slot. *)
Lemma redistribute_with_cap_slots (cap : Z) (usage : list Z) (i : nat) :
  (i < List.length usage)%nat ->
  let new_usage := fst (redistribute_with_cap cap usage) in
  Z.min cap (nth i usage 0) <= nth i new_usage 0 <= cap.
Proof.
  intros Hi. unfold redistribute_with_cap.
  destruct (clamp_peaks_spec cap usage 0) as (Hc1 & Hc2 & Hc3).
  destruct (clamp_peaks cap usage 0) as [clamped excess]. cbn [fst snd] in *.
  assert (Hidx : Forall (fun i => (i < List.length clamped)%nat) (sorted_indices clamped))
    by (apply Forall_forall; intros j; apply sorted_indices_In).
  assert (Hcl : Forall (fun u => u <= cap) clamped)
    by (rewrite Hc1; apply Forall_min_cap).
  destruct (spread_excess_spec cap _ clamped excess Hidx Hcl Hc3)
    as (H1 & H2 & _ & _ & H5 & _).
  cbv zeta. split.
  - rewrite <- nth_map_min, <- Hc1 by assumption. apply H5.
  - rewrite Forall_forall in H2. apply H2, nth_In.
    rewrite H1, Hc1, length_map. assumption.
Qed.

(** X4.  Redistribution lowers exactly the slots above the cap, to the cap;
    every other slot keeps at least its usage and stays at or below the
    cap. *)
Theorem redistribution_slots (f : Facility) (target_pct : float) (cap : Z) :
  redistribution_cap f target_pct = Ok cap ->
  exists new_usage,
    _redistribute_usage f target_pct = Ok new_usage /\
    List.length new_usage = List.length (hourly_usage f) /\
    forall i, (i < List.length (hourly_usage f))%nat ->
      (cap < nth i (hourly_usage f) 0 -> nth i new_usage 0 = cap) /\
      (nth i (hourly_usage f) 0 <= cap ->
       nth i (hourly_usage f) 0 <= nth i new_usage 0 <= cap).
Proof.
  intros Hcap. unfold _redistribute_usage. rewrite Hcap. cbn [bind].
  eexists. split; [reflexivity|]. split.
  - apply (redistribute_with_cap_spec cap (hourly_usage f)).
  - intros i Hi.
    pose proof (redistribute_with_cap_slots cap (hourly_usage f) i Hi) as H.
    cbv zeta in H. lia.
Qed.

Lemma redistribution_slots_witness :
  exists new_usage,
    _redistribute_usage gymnasium 0.70 = Ok new_usage /\
    nth 10 new_usage 0 = 42 /\ 8 <= nth 0 new_usage 0 <= 42.
Proof.
  destruct (redistribution_slots gymnasium 0.70%float 42)
    as (new_usage & H1 & _ & H3).
  - vm_compute. reflexivity.
  - exists new_usage. split; [exact H1|]. split.
    + apply (proj1 (H3 10%nat ltac:(simpl; lia))). simpl. lia.
    + apply (proj2 (H3 0%nat ltac:(simpl; lia))). simpl. lia.
Defined.


(** *** Order of filling *)

Lemma insert_by_key_NoDup (l : list Z) (i : nat) (sorted : list nat) :
  NoDup sorted -> ~ In i sorted -> NoDup (insert_by_key l i sorted).
Proof.
  induction sorted as [|j sorted IH]; intros Hnd Hni; cbn [insert_by_key].
  - constructor; [intros [] | constructor].
  - destruct (nth i l 0 <? nth j l 0).
    + constructor; assumption.
    + inversion Hnd as [|? ? Hj Hs]; subst. constructor.
      * rewrite insert_by_key_In. intros [->|H]; [apply Hni; now left | contradiction].
      * apply IH; [assumption|]. intros H. apply Hni. now right.
Qed.

Lemma fold_insert_NoDup (l : list Z) (idxs acc : list nat) :
  NoDup idxs -> NoDup acc -> (forall i, In i idxs -> ~ In i acc) ->
  NoDup (fold_left (fun acc i => insert_by_key l i acc) idxs acc).
Proof.
  revert acc. induction idxs as [|i idxs IH]; intros acc Hi Ha Hd; cbn [fold_left].
  - assumption.
  - inversion Hi as [|? ? Hni Hnd]; subst. apply IH; [assumption| |].
    + apply insert_by_key_NoDup; [assumption|]. apply Hd. now left.
    + intros j Hj. rewrite insert_by_key_In. intros [->|H]; [contradiction|].
      apply (Hd j); [now right | assumption].
Qed.

Lemma sorted_indices_NoDup (l : list Z) : NoDup (sorted_indices l).
Proof.
  unfold sorted_indices. apply fold_insert_NoDup;
    [apply seq_NoDup | constructor | intros i _ []].
Qed.

(** The second loop fills the slots in the order of [indices]: a slot gets
    something only when every slot before it has been filled to the cap;
    slots that are not listed are not touched. *)
Lemma spread_excess_order (cap : Z) (idxs : list nat) :
  forall (l : list Z) (e : Z),
  Forall (fun i => (i < List.length l)%nat) idxs ->
  Forall (fun u => u <= cap) l -> 0 <= e -> NoDup idxs ->
  let r := fst (spread_excess cap idxs l e) in
  (forall j, ~ In j idxs -> nth j r 0 = nth j l 0) /\
  (forall a b, (a < b < List.length idxs)%nat ->
     nth (nth b idxs O) r 0 <> nth (nth b idxs O) l 0 ->
     nth (nth a idxs O) r 0 = cap).
Proof.
  induction idxs as [|idx rest IH]; intros l e Hidx Hl He Hnd; cbn [spread_excess].
  - split; [reflexivity|]. intros a b Hab. simpl in Hab. lia.
  - destruct (Z.leb_spec e 0) as [Hz|Hpos]; cbn [fst].
    + split; [reflexivity|]. intros a b _ H. congruence.
    + inversion Hidx as [|? ? Hi Hrest]; subst.
      inversion Hnd as [|? ? Hni Hnd']; subst.
      assert (Hu : nth idx l 0 <= cap)
        by (rewrite Forall_forall in Hl; apply Hl, nth_In; assumption).
      set (add := Z.min e (cap - nth idx l 0)).
      set (l1 := set_item l idx (nth idx l 0 + add)).
      assert (Hlen1 : List.length l1 = List.length l) by apply set_item_length.
      assert (Hl1 : Forall (fun u => u <= cap) l1)
        by (apply set_item_Forall; [assumption | unfold add; lia]).
      assert (Hrest1 : Forall (fun i => (i < List.length l1)%nat) rest)
        by (rewrite Hlen1; assumption).
      assert (Hnth1 : forall j, nth j l1 0 = if Nat.eqb idx j then nth idx l 0 + add
                                             else nth j l 0)
        by (intros j; unfold l1; now rewrite set_item_nth).
      destruct (IH l1 (e - add) Hrest1 Hl1 ltac:(unfold add; lia) Hnd')
        as (IH1 & IH2).
      cbv zeta in IH1, IH2. split.
      * intros j Hj. rewrite IH1 by (intros H; apply Hj; now right).
        rewrite Hnth1. destruct (Nat.eqb_spec idx j) as [->|]; [|reflexivity].
        exfalso. apply Hj. now left.
      * intros [|a] [|b] Hab Hch; cbn [List.length nth] in *; try lia.
        -- (* the first slot against a later one *)
           assert (Hin : In (nth b rest O) rest) by (apply nth_In; lia).
           assert (Hne : idx <> nth b rest O) by (intros ->; contradiction).
           rewrite IH1 by assumption. rewrite Hnth1, Nat.eqb_refl.
           destruct (Z_le_gt_dec e (cap - nth idx l 0)) as [Hfit|Hfull];
             [|unfold add; lia].
           exfalso. apply Hch.
           replace (e - add) with 0 by (unfold add; lia).
           rewrite spread_excess_0 by lia. cbn [fst].
           rewrite Hnth1. destruct (Nat.eqb_spec idx (nth b rest O)); congruence.
        -- apply IH2 with (b := b); [lia|].
           assert (Hin : In (nth b rest O) rest) by (apply nth_In; lia).
           rewrite Hnth1.
           destruct (Nat.eqb_spec idx (nth b rest O)) as [E|_]; [|exact Hch].
           exfalso. rewrite E in Hni. contradiction.
Qed.

(** X5.  The excess goes to the emptiest slots first: a slot receives
    something only if every slot with a strictly lower (clamped) usage has
    been filled up to the cap. *)
Theorem redistribution_fills_lowest_first (f : Facility) (target_pct : float)
    (cap : Z) :
  redistribution_cap f target_pct = Ok cap ->
  exists new_usage,
    _redistribute_usage f target_pct = Ok new_usage /\
    forall i j, (i < List.length (hourly_usage f))%nat ->
                (j < List.length (hourly_usage f))%nat ->
      Z.min cap (nth i (hourly_usage f) 0) < Z.min cap (nth j (hourly_usage f) 0) ->
      Z.min cap (nth j (hourly_usage f) 0) < nth j new_usage 0 ->
      nth i new_usage 0 = cap.
Proof.
  intros Hcap. unfold _redistribute_usage. rewrite Hcap. cbn [bind].
  eexists. split; [reflexivity|]. intros i j Hi Hj Hkey Hrecv.
  unfold redistribute_with_cap in *.
  destruct (clamp_peaks_spec cap (hourly_usage f) 0) as (Hc1 & _ & Hc3).
  destruct (clamp_peaks cap (hourly_usage f) 0) as [clamped excess].
  cbn [fst snd] in *.
  assert (Hlen : List.length clamped = List.length (hourly_usage f))
    by (rewrite Hc1; apply length_map).
  assert (Hidx : Forall (fun i => (i < List.length clamped)%nat) (sorted_indices clamped))
    by (apply Forall_forall; intros k; apply sorted_indices_In).
  assert (Hcl : Forall (fun u => u <= cap) clamped)
    by (rewrite Hc1; apply Forall_min_cap).
  destruct (spread_excess_order cap _ clamped excess Hidx Hcl Hc3
              (sorted_indices_NoDup clamped)) as (_ & Hord).
  cbv zeta in Hord.
  assert (Ki : nth i clamped 0 = Z.min cap (nth i (hourly_usage f) 0))
    by (rewrite Hc1; now apply nth_map_min).
  assert (Kj : nth j clamped 0 = Z.min cap (nth j (hourly_usage f) 0))
    by (rewrite Hc1; now apply nth_map_min).
  destruct (In_nth (sorted_indices clamped) i O) as (a & Ha & Ea);
    [apply sorted_indices_In; lia|].
  destruct (In_nth (sorted_indices clamped) j O) as (b & Hb & Eb);
    [apply sorted_indices_In; lia|].
  pose proof (sorted_indices_ascending clamped) as Hasc. unfold ascending in Hasc.
  assert (Hab : (a < b)%nat).
  { destruct (Nat.lt_trichotomy a b) as [|[E|Hba]]; [assumption| |].
    - exfalso. subst b. rewrite Ea in Eb. subst j. lia.
    - exfalso. specialize (Hasc b a ltac:(lia)). rewrite Ea, Eb in Hasc. lia. }
  specialize (Hord a b ltac:(lia)). rewrite Ea, Eb in Hord. apply Hord. lia.
Qed.

Lemma redistribution_fills_lowest_first_witness :
  exists new_usage,
    _redistribute_usage {| name := "Reading Room"; max_capacity := 10;
                           hourly_usage := [20; 1; 3];
                           operating_cost_per_hour := 100 |} 0.70
      = Ok new_usage /\
    nth 2 new_usage 0 = 7 /\ nth 1 new_usage 0 = 7.
Proof.
  destruct (redistribution_fills_lowest_first
              {| name := "Reading Room"; max_capacity := 10;
                 hourly_usage := [20; 1; 3];
                 operating_cost_per_hour := 100 |} 0.70%float 7)
    as (new_usage & H1 & H2).
  - vm_compute. reflexivity.
  - exists new_usage. split; [exact H1|].
    assert (E := H1). vm_compute in E. injection E as E.
    split; [rewrite <- E; reflexivity|].
    apply (H2 1%nat 2%nat); [simpl; lia | simpl; lia | simpl; lia |].
    rewrite <- E. simpl. lia.
Defined.

End FacilityLists.

(* ===================================================================== *)
(** * The facility model: float thresholds and ratios *)
(* ===================================================================== *)

Module FacilityNumerics.
Import Facility FacilityFacts Binary64 Nearest Ratio Percent FacilityLists.

Lemma capacity_converts (z : Z) :
  0 <= z < 2 ^ 47 -> exists x, float_of_int z = Ok x.
Proof.
  intros Hz. apply float_of_int_ok.
  assert (2 ^ 47 < 2 ^ 1023) by reflexivity. lia.
Qed.

Lemma count_ext (p q : Z -> bool) (l : list Z) :
  (forall u, p u = q u) -> count p l = count q l.
Proof. intros H. unfold count. now rewrite (filter_ext p q H). Qed.

(** X6.  The float thresholds of [idle_hours] and [overcrowded_hours] never
    misclassify a slot: a slot is idle exactly when [5 * u < capacity] and
    overcrowded exactly when [20 * u > 17 * capacity]. *)
Theorem idle_overcrowded_exact (f : Facility) :
  0 <= max_capacity f < 2 ^ 47 ->
  idle_hours f
    = Ok (count (fun u => 5 * u <? max_capacity f) (hourly_usage f)) /\
  overcrowded_hours f
    = Ok (count (fun u => 17 * max_capacity f <? 20 * u) (hourly_usage f)).
Proof.
  intros Hc. destruct (capacity_converts _ Hc) as (x & Hx).
  unfold idle_hours, overcrowded_hours, int_mul_float. rewrite Hx. cbn [bind].
  destruct (compare_0_20 _ x Hc Hx) as (_ & H20).
  destruct (compare_0_85 _ x Hc Hx) as (_ & H85).
  split; f_equal; apply count_ext; intros u.
  - unfold int_lt_float. rewrite H20.
    destruct (Z.compare_spec (5 * u) (1 * max_capacity f)),
             (Z.ltb_spec (5 * u) (max_capacity f)); try reflexivity; lia.
  - unfold int_gt_float. rewrite H85.
    destruct (Z.compare_spec (20 * u) (17 * max_capacity f)),
             (Z.ltb_spec (17 * max_capacity f) (20 * u)); try reflexivity; lia.
Qed.

Lemma idle_overcrowded_exact_witness :
  idle_hours FacilityFacts.gymnasium = Ok 4 /\
  overcrowded_hours FacilityFacts.gymnasium = Ok 0.
Proof.
  destruct (idle_overcrowded_exact FacilityFacts.gymnasium) as [H1 H2].
  - vm_compute. split; [discriminate | reflexivity].
  - split; [exact H1 | exact H2].
Defined.

(** X7.  The caps of the two redistribution scenarios: [int(c * 0.60)] is
    the floor of 60% of the capacity; [int(c * 0.70)] is the floor of 70% or
    one less (62 for a capacity of 90). *)
Theorem redistribution_cap_values :
  (forall f : Facility, 0 <= max_capacity f < 2 ^ 47 ->
     redistribution_cap f 0.60 = Ok (3 * max_capacity f / 5) /\
     exists cap, redistribution_cap f 0.70 = Ok cap /\ 0 <= cap /\
                 7 * max_capacity f / 10 - 1 <= cap <= 7 * max_capacity f / 10) /\
  (forall f : Facility, max_capacity f = 90 ->
     redistribution_cap f 0.70 = Ok 62).
Proof.
  split.
  - intros f Hc. destruct (capacity_converts _ Hc) as (x & Hx).
    unfold redistribution_cap, int_mul_float. rewrite Hx. cbn [bind]. split.
    + apply (int_0_60 _ x Hc Hx).
    + apply (int_0_70 _ x Hc Hx).
  - intros f E. unfold redistribution_cap. rewrite E. reflexivity.
Qed.

Lemma redistribution_cap_values_witness :
  redistribution_cap FacilityFacts.gymnasium 0.60 = Ok 36 /\
  redistribution_cap {| name := "Seminar Hall"; max_capacity := 90;
                        hourly_usage := [70; 10];
                        operating_cost_per_hour := 300 |} 0.70 = Ok 62.
Proof.
  split.
  - apply (proj1 (proj1 redistribution_cap_values FacilityFacts.gymnasium
                    ltac:(vm_compute; split; [discriminate | reflexivity]))).
  - apply (proj2 redistribution_cap_values). reflexivity.
Defined.

Lemma extra_hour_usage_exact (f : Facility) :
  0 <= peak_usage f < 2 ^ 47 -> extra_hour_usage f = Ok (3 * peak_usage f / 10).
Proof.
  intros Hp. destruct (capacity_converts _ Hp) as (x & Hx).
  unfold extra_hour_usage, int_mul_float. rewrite Hx. cbn [bind].
  apply (int_0_3 _ x Hp Hx).
Qed.

Lemma right_size_exact (f : Facility) :
  0 <= peak_usage f < 2 ^ 47 -> right_size f = Ok (6 * peak_usage f / 5).
Proof.
  intros Hp. destruct (capacity_converts _ Hp) as (x & Hx).
  unfold right_size, int_mul_float. rewrite Hx. cbn [bind].
  apply (int_1_2 _ x Hp Hx).
Qed.

(** X8.  The truncations of the extended-hours and right-sizing scenarios
    are exact integer divisions: [int(peak * 0.3)] is [3 * peak / 10] and
    [int(peak * 1.2)] is [6 * peak / 5]. *)
Theorem peak_fractions_exact (f : Facility) :
  0 <= peak_usage f < 2 ^ 47 ->
  extra_hour_usage f = Ok (3 * peak_usage f / 10) /\
  right_size f = Ok (6 * peak_usage f / 5).
Proof.
  intros Hp. split; [now apply extra_hour_usage_exact | now apply right_size_exact].
Qed.

Lemma peak_fractions_exact_witness :
  extra_hour_usage FacilityFacts.computer_lab_a = Ok 22 /\
  right_size FacilityFacts.computer_lab_a = Ok 90.
Proof.
  apply (peak_fractions_exact FacilityFacts.computer_lab_a).
  vm_compute. split; [discriminate | reflexivity].
Defined.


(** ** Ratios *)

(** [(a / b) * 100] on ints [0 <= a <= b]. *)
Lemma percent_of (a b : Z) :
  0 <= a <= b -> 0 < b < 2 ^ 1000 ->
  exists p, (q <- int_truediv a b ;; float_mul_int q 100) = Ok p /\
            (0 <=? p)%float = true /\ (p <=? 100)%float = true.
Proof.
  intros Ha Hb. destruct (int_truediv_unit a b Ha Hb) as (q & -> & Hq).
  cbn [bind]. rewrite float_mul_int_100. eexists. split; [reflexivity|].
  now apply mul_100_percent.
Qed.

Lemma bind_Float (c : result float) (p : float) :
  c = Ok p -> (r <- c ;; Ok (Float r)) = Ok (Float p).
Proof. intros ->. reflexivity. Qed.

(** X9.  On a facility with a positive capacity whose slots all lie
    between 0 and the capacity, the average utilization, the peak
    utilization and the idle capacity are floats between 0 and 100. *)
Theorem utilization_percentages (f : Facility) :
  0 < max_capacity f -> hourly_usage f <> [] ->
  Forall (fun u => 0 <= u <= max_capacity f) (hourly_usage f) ->
  max_possible_person_hours f < 2 ^ 1000 ->
  exists a p i,
    avg_utilization_pct f = Ok a /\
    peak_utilization_pct f = Ok (Float p) /\
    idle_capacity_pct f = Ok (Float i) /\
    (0 <=? a)%float = true /\ (a <=? 100)%float = true /\
    (0 <=? p)%float = true /\ (p <=? 100)%float = true /\
    (0 <=? i)%float = true /\ (i <=? 100)%float = true.
Proof.
  intros Hc Hne Hu Hmax.
  assert (Hlen : 0 < total_operating_hours f).
  { unfold total_operating_hours. destruct (hourly_usage f); [congruence|]. cbn. lia. }
  assert (Hmp : 0 < max_possible_person_hours f)
    by (unfold max_possible_person_hours; nia).
  assert (Ht : 0 <= total_person_hours f <= max_possible_person_hours f).
  { unfold total_person_hours, max_possible_person_hours, total_operating_hours. split.
    - apply sum_nonneg. eapply Forall_impl; [|exact Hu]. cbv beta. lia.
    - apply sum_le_cap. eapply Forall_impl; [|exact Hu]. cbv beta. lia. }
  assert (Hp : 0 <= peak_usage f <= max_capacity f).
  { rewrite Forall_forall in Hu. apply Hu, peak_usage_in, Hne. }
  assert (Hcap : max_capacity f < 2 ^ 1000).
  { unfold max_possible_person_hours in Hmax. nia. }
  destruct (percent_of _ _ Ht ltac:(lia)) as (a & Ea & Ha0 & Ha1).
  destruct (percent_of _ _ Hp ltac:(lia)) as (p & Ep & Hp0 & Hp1).
  destruct (percent_of (max_possible_person_hours f - total_person_hours f)
              (max_possible_person_hours f) ltac:(lia) ltac:(lia))
    as (i & Ei & Hi0 & Hi1).
  exists a, p, i.
  unfold avg_utilization_pct, peak_utilization_pct, idle_capacity_pct, int_truthy.
  destruct (Z.eqb_spec (max_possible_person_hours f) 0) as [|_]; [lia|].
  destruct (Z.eqb_spec (max_capacity f) 0) as [|_]; [lia|]. cbn [negb].
  split; [exact Ea|].
  split.
  { destruct (int_truediv (peak_usage f) (max_capacity f)) as [q|]; [|discriminate].
    cbn [bind] in *. rewrite Ep. reflexivity. }
  split.
  { destruct (int_truediv _ (max_possible_person_hours f)) as [q|] eqn:E in Ei |- *;
      [|discriminate].
    cbn [bind] in *. rewrite Ei. reflexivity. }
  auto 10.
Qed.


Lemma utilization_percentages_witness :
  exists a p i,
    avg_utilization_pct gymnasium = Ok a /\
    peak_utilization_pct gymnasium = Ok (Float p) /\
    idle_capacity_pct gymnasium = Ok (Float i) /\
    (0 <=? a)%float = true /\ (a <=? 100)%float = true /\
    (0 <=? p)%float = true /\ (p <=? 100)%float = true /\
    (0 <=? i)%float = true /\ (i <=? 100)%float = true.
Proof.
  apply (utilization_percentages gymnasium).
  - reflexivity.
  - discriminate.
  - repeat constructor; cbv; discriminate.
  - reflexivity.
Defined.

Lemma int_truediv_raise (a b : Z) (e : exn) :
  int_truediv a b = Raise e -> b <> 0 -> e = OverflowError.
Proof.
  unfold int_truediv. destruct (Z.eqb_spec b 0) as [|_]; [contradiction|].
  destruct (SF64div _ _); intros [= <-]; reflexivity.
Qed.

Lemma float_of_int_nonzero_eqb (z : Z) (y : float) :
  z <> 0 -> float_of_int z = Ok y -> (y =? 0)%float = false.
Proof.
  intros Hz Hy. destruct (float_of_int_nonzero z y Hz Hy) as (m & e & (Hp & _) & _).
  rewrite eqb_spec, Hp. destruct (z <? 0); reflexivity.
Qed.

(** X10.  No ratio property of a facility can raise [ZeroDivisionError]; the
    only failure is the [OverflowError] of an int that does not fit a
    float. *)
Theorem ratios_never_divide_by_zero (f : Facility) :
  (forall e, avg_utilization_pct f = Raise e -> e = OverflowError) /\
  (forall e, peak_utilization_pct f = Raise e -> e = OverflowError) /\
  (forall e, idle_capacity_pct f = Raise e -> e = OverflowError) /\
  (forall e, cost_per_person_hour f = Raise e -> e = OverflowError) /\
  (max_possible_person_hours f = 0 -> avg_utilization_pct f = Ok 0%float) /\
  (max_capacity f = 0 -> peak_utilization_pct f = Ok (Int 0)).
Proof.
  unfold avg_utilization_pct, peak_utilization_pct, idle_capacity_pct,
    cost_per_person_hour, int_truthy.
  split; [|split; [|split; [|split; [|split]]]].
  - intros e. destruct (Z.eqb_spec (max_possible_person_hours f) 0) as [|Hne];
      [discriminate|].
    destruct (int_truediv _ _) as [q|e'] eqn:E; cbn [bind].
    + rewrite float_mul_int_100. discriminate.
    + intros [= <-]. now apply (int_truediv_raise _ _ _ E).
  - intros e. destruct (Z.eqb_spec (max_capacity f) 0) as [|Hne]; [discriminate|].
    cbn [negb]. destruct (int_truediv _ _) as [q|e'] eqn:E; cbn [bind].
    + rewrite float_mul_int_100. discriminate.
    + intros [= <-]. now apply (int_truediv_raise _ _ _ E).
  - intros e. destruct (Z.eqb_spec (max_possible_person_hours f) 0) as [|Hne];
      [discriminate|].
    cbn [negb]. destruct (int_truediv _ _) as [q|e'] eqn:E; cbn [bind].
    + rewrite float_mul_int_100. discriminate.
    + intros [= <-]. now apply (int_truediv_raise _ _ _ E).
  - intros e. destruct (Z.eqb_spec (total_person_hours f) 0) as [|Hne];
      [discriminate|].
    cbn [negb]. unfold daily_operating_cost, float_mul_int, float_div_int.
    destruct (float_of_int (total_operating_hours f)) as [h|e'] eqn:Eh; cbn [bind];
      [|intros [= <-]; now apply (float_of_int_raise _ _ Eh)].
    destruct (float_of_int (total_person_hours f)) as [t|e'] eqn:Et; cbn [bind];
      [|intros [= <-]; now apply (float_of_int_raise _ _ Et)].
    unfold float_truediv. rewrite (float_of_int_nonzero_eqb _ _ Hne Et). discriminate.
  - intros ->. reflexivity.
  - intros ->. reflexivity.
Qed.

Lemma ratios_never_divide_by_zero_witness :
  avg_utilization_pct {| name := "Closed Lab"; max_capacity := 60;
                         hourly_usage := []; operating_cost_per_hour := 450 |}
    = Ok 0%float /\
  peak_utilization_pct {| name := "Store Room"; max_capacity := 0;
                          hourly_usage := [0; 0]; operating_cost_per_hour := 10 |}
    = Ok (Int 0).
Proof.
  split.
  - apply (proj1 (proj2 (proj2 (proj2 (proj2 (ratios_never_divide_by_zero _)))))).
    reflexivity.
  - apply (proj2 (proj2 (proj2 (proj2 (proj2 (ratios_never_divide_by_zero _)))))).
    reflexivity.
Defined.

End FacilityNumerics.

(* ===================================================================== *)
(** * The facility model: the scenario variants *)
(* ===================================================================== *)

Module ScenarioBodies.
Import Facility FacilityFacts Binary64 Nearest Ratio FacilityLists FacilityNumerics.

(** X11.  Closing idle slots keeps exactly the slots at or above 15% of
    capacity, unless none is. *)
Theorem trimmed_facility_exact (f : Facility) :
  0 <= max_capacity f < 2 ^ 47 ->
  let kept := filter (fun u => 3 * max_capacity f <=? 20 * u) (hourly_usage f) in
  trimmed_facility f =
    Ok {| name := name f; max_capacity := max_capacity f;
          hourly_usage := match kept with [] => hourly_usage f | _ => kept end;
          operating_cost_per_hour := operating_cost_per_hour f |}.
Proof.
  intros Hc kept. destruct (capacity_converts _ Hc) as (x & Hx).
  unfold trimmed_facility, int_mul_float. rewrite Hx. cbn [bind].
  destruct (compare_0_15 _ x Hc Hx) as (_ & H15).
  assert (E : filter (fun u => int_ge_float u (x * 0.15)%float) (hourly_usage f) = kept).
  { apply filter_ext. intros u. unfold int_ge_float. rewrite H15.
    destruct (Z.compare_spec (20 * u) (3 * max_capacity f)),
             (Z.leb_spec (3 * max_capacity f) (20 * u)); try reflexivity; lia. }
  rewrite E. reflexivity.
Qed.

Lemma trimmed_facility_exact_witness :
  exists f', trimmed_facility FacilityFacts.gymnasium = Ok f' /\
             hourly_usage f' = [25; 35; 15; 10; 12; 18; 22; 30; 45; 50; 38; 28;
                                15; 10; 20; 35].
Proof.
  eexists. split.
  - apply (trimmed_facility_exact FacilityFacts.gymnasium).
    vm_compute. split; [discriminate | reflexivity].
  - reflexivity.
Defined.

(** X12.  Closing idle slots twice is closing them once; it never empties a
    facility and never adds or reorders slots. *)
Theorem trimmed_facility_idempotent (f f' : Facility) :
  trimmed_facility f = Ok f' ->
  trimmed_facility f' = Ok f' /\
  (hourly_usage f <> [] -> hourly_usage f' <> []) /\
  (List.length (hourly_usage f') <= List.length (hourly_usage f))%nat /\
  incl (hourly_usage f') (hourly_usage f) /\
  name f' = name f /\ max_capacity f' = max_capacity f /\
  operating_cost_per_hour f' = operating_cost_per_hour f.
Proof.
  unfold trimmed_facility.
  destruct (int_mul_float (max_capacity f) 0.15) as [t|e] eqn:Et; [|discriminate].
  cbn [bind]. intros [= <-]. cbn [max_capacity hourly_usage name operating_cost_per_hour].
  rewrite Et. cbn [bind].
  set (p := fun u => int_ge_float u t).
  destruct (filter p (hourly_usage f)) as [|u kept] eqn:Ek.
  - rewrite Ek. repeat split; auto. apply incl_refl.
  - rewrite <- Ek, filter_idempotent. rewrite Ek.
    split; [reflexivity|]. split; [discriminate|]. split; [|split; [|auto]].
    + rewrite <- Ek. apply filter_length_le.
    + rewrite <- Ek. apply incl_filter.
Qed.

Lemma trimmed_facility_idempotent_witness :
  exists f', trimmed_facility FacilityFacts.gymnasium = Ok f' /\
             trimmed_facility f' = Ok f' /\
             List.length (hourly_usage f') = 16%nat.
Proof.
  eexists. split; [vm_compute; reflexivity|]. split; [|reflexivity].
  apply (trimmed_facility_idempotent FacilityFacts.gymnasium). vm_compute. reflexivity.
Defined.









End ScenarioBodies.

(* ===================================================================== *)
(** * The facility model: the scenario table *)
(* ===================================================================== *)

Module ScenarioTable.
Import Facility FacilityFacts Binary64 FacilityLists.

Lemma sum_map_le (g : Facility -> Z) (fs fs' : list Facility) :
  Forall2 (fun f f' => g f' <= g f) fs fs' ->
  sum (map g fs') <= sum (map g fs).
Proof.
  induction 1 as [|f f' fs fs' H _ IH]; [lia|].
  cbn [map]. rewrite !sum_cons. lia.
Qed.

Lemma sum_costs_ext (fs fs' : list Facility) (acc : num) :
  Forall2 (fun f f' => daily_operating_cost f' = daily_operating_cost f) fs fs' ->
  sum_costs fs' acc = sum_costs fs acc.
Proof.
  intros H. revert acc. induction H as [|f f' fs fs' H _ IH]; intros acc;
    [reflexivity|].
  cbn [sum_costs]. rewrite H. destruct (daily_operating_cost f); [|reflexivity].
  cbn [bind]. destruct (num_add_float acc a); [|reflexivity]. cbn [bind]. apply IH.
Qed.

(** What [aggregate] puts under the keys "Total Person-Hours" and
    "Daily Op. Cost". *)
Lemma aggregate_totals (nm : result string) (fs : list Facility) (s : Scenario) :
  aggregate nm fs = Ok s ->
  nm = Ok (Scenario_name s) /\
  Total_Person_Hours s = sum (map total_person_hours fs) /\
  sum_costs fs (Int 0) = Ok (Daily_Op_Cost s).
Proof.
  unfold aggregate.
  destruct (sum_costs fs (Int 0)) as [c|]; [|discriminate]. cbn [bind].
  destruct (sum_over idle_hours fs 0) as [i|]; [|discriminate]. cbn [bind].
  destruct (sum_over overcrowded_hours fs 0) as [o|]; [|discriminate]. cbn [bind].
  match goal with |- bind ?u _ = _ -> _ => destruct u as [ut|]; [|discriminate] end.
  cbn [bind]. destruct nm as [n|]; [|discriminate]. cbn [bind].
  match goal with |- bind ?u _ = _ -> _ => destruct u as [cp|]; [|discriminate] end.
  cbn [bind]. intros [= <-]. cbn. auto.
Qed.

(** The four variant lists against the base list. *)
Lemma redistributed_frame (cap_pct : float) (f f' : Facility) :
  redistributed cap_pct f = Ok f' ->
  total_person_hours f' <= total_person_hours f /\
  daily_operating_cost f' = daily_operating_cost f.
Proof.
  unfold redistributed, _redistribute_usage.
  destruct (redistribution_cap f cap_pct) as [cap|]; [|discriminate].
  cbn [bind]. intros [= <-].
  pose proof (redistribute_with_cap_spec cap (hourly_usage f)) as H.
  cbv zeta in H. destruct H as (Hlen & _ & Hd & Hsum & _).
  unfold total_person_hours, daily_operating_cost, total_operating_hours.
  cbn [hourly_usage operating_cost_per_hour]. rewrite Hlen. split; [lia | reflexivity].
Qed.

Lemma resized_frame (f f' : Facility) :
  resized_facility f = Ok f' ->
  total_person_hours f' = total_person_hours f /\
  daily_operating_cost f' = daily_operating_cost f.
Proof.
  unfold resized_facility.
  destruct (avg_utilization_pct f) as [a|]; [|discriminate]. cbn [bind].
  match goal with |- bind ?u _ = _ -> _ => destruct u as [c|]; [|discriminate] end.
  cbn [bind]. intros [= <-]. split; reflexivity.
Qed.

Lemma extended_frame (f f' : Facility) :
  Forall (fun u => 0 <= u) (hourly_usage f) ->
  extended_facility f = Ok f' ->
  total_person_hours f <= total_person_hours f'.
Proof.
  intros Hnn. unfold extended_facility.
  destruct (avg_utilization_pct f) as [a|]; [|discriminate]. cbn [bind].
  destruct (float_gt_int a 50); [|intros [= <-]; reflexivity].
  unfold extra_hour_usage, int_mul_float.
  destruct (float_of_int (peak_usage f)) as [x|] eqn:Ex; [|discriminate].
  cbn [bind]. destruct (int_of_float (x * 0.3)%float) as [e|] eqn:Ee; [|discriminate].
  cbn [bind]. intros [= <-].
  assert (Hp : 0 <= peak_usage f) by (apply peak_usage_nonneg; exact Hnn).
  pose proof (mul_nonneg _ x 0.3%float e Hp Ex eq_refl Ee) as Hfin.
  destruct (int_of_float_floor _ e Hfin Ee) as (He & _).
  unfold total_person_hours. cbn [hourly_usage]. rewrite sum_app, !sum_cons, sum_nil. lia.
Qed.

Lemma trimmed_frame (f f' : Facility) :
  Forall (fun u => 0 <= u) (hourly_usage f) ->
  trimmed_facility f = Ok f' ->
  total_person_hours f' <= total_person_hours f.
Proof.
  intros Hnn. unfold trimmed_facility.
  destruct (int_mul_float (max_capacity f) 0.15) as [t|]; [|discriminate].
  cbn [bind]. intros [= <-]. unfold total_person_hours. cbn [hourly_usage].
  destruct (filter _ (hourly_usage f)) eqn:E; [lia|]. rewrite <- E.
  now apply sum_filter_le.
Qed.

Lemma Forall2_frame {A : Type} (R P : A -> A -> Prop) (l l' : list A) :
  (forall a b, R a b -> P a b) -> Forall2 R l l' -> Forall2 P l l'.
Proof. intros H. induction 1; constructor; auto. Qed.

Lemma Forall2_frame_in {A : Type} (Q : A -> Prop) (R P : A -> A -> Prop)
    (l l' : list A) :
  (forall a b, Q a -> R a b -> P a b) -> Forall Q l -> Forall2 R l l' ->
  Forall2 P l l'.
Proof.
  intros H HQ HR. induction HR as [|a b l l' Hab _ IH]; constructor;
    inversion HQ; subst; auto.
Qed.

(** The generator returns seven scenarios under fixed names. *)
Lemma run_optimizations_names (fs : list Facility) (l : list Scenario) :
  run_optimizations fs = Ok l ->
  exists s0 s1 s2 s3 s4 s5 s6,
    l = [s0; s1; s2; s3; s4; s5; s6] /\
    map Scenario_name l =
      ["Base Case (Current)"; "Redistribute (cap 70%)"; "Redistribute (cap 60%)";
       "Extended Hours (High-Demand)"; "Close Idle Slots (<15%)";
       "Capacity Right-Sizing"; "Combined Optimized"]%string.
Proof.
  unfold run_optimizations. intros H.
  apply bind_ok in H as (s0 & E0 & H).
  cbn [for_each] in H.
  apply bind_ok in H as (redis & Er & H).
  apply bind_ok in Er as (s1 & E1 & Er).
  apply bind_ok in E1 as (fs1 & F1 & E1).
  apply bind_ok in Er as (r2 & Er & Er').
  apply bind_ok in Er as (s2 & E2 & Er).
  apply bind_ok in E2 as (fs2 & F2 & E2).
  injection Er as <-. injection Er' as <-.
  apply bind_ok in H as (fs3 & F3 & H). apply bind_ok in H as (s3 & E3 & H).
  apply bind_ok in H as (fs4 & F4 & H). apply bind_ok in H as (s4 & E4 & H).
  apply bind_ok in H as (fs5 & F5 & H). apply bind_ok in H as (s5 & E5 & H).
  apply bind_ok in H as (fs6 & F6 & H). apply bind_ok in H as (s6 & E6 & H).
  injection H as <-.
  exists s0, s1, s2, s3, s4, s5, s6. split; [reflexivity|].
  apply aggregate_totals in E0 as (N0 & _).
  apply aggregate_totals in E1 as (N1 & _).
  apply aggregate_totals in E2 as (N2 & _).
  apply aggregate_totals in E3 as (N3 & _).
  apply aggregate_totals in E4 as (N4 & _).
  apply aggregate_totals in E5 as (N5 & _).
  apply aggregate_totals in E6 as (N6 & _).
  cbn [map app]. injection N0 as <-. injection N3 as <-. injection N4 as <-.
  injection N5 as <-. injection N6 as <-.
  change (redistribute_name 0.70) with (Ok "Redistribute (cap 70%)"%string) in N1.
  change (redistribute_name 0.60) with (Ok "Redistribute (cap 60%)"%string) in N2.
  injection N1 as <-. injection N2 as <-. reflexivity.
Qed.

(** X16.  The scenario table of the facility generator.  Seven scenarios in
    a fixed order; redistribution never adds person-hours, right-sizing keeps
    them, and none of the three changes the daily operating cost; for
    non-negative usage, extended hours never remove person-hours and closing
    idle slots never adds any. *)
Theorem scenario_table (fs : list Facility) (l : list Scenario) :
  run_optimizations fs = Ok l ->
  exists s0 s1 s2 s3 s4 s5 s6,
    l = [s0; s1; s2; s3; s4; s5; s6] /\
    map Scenario_name l =
      ["Base Case (Current)"; "Redistribute (cap 70%)"; "Redistribute (cap 60%)";
       "Extended Hours (High-Demand)"; "Close Idle Slots (<15%)";
       "Capacity Right-Sizing"; "Combined Optimized"]%string /\
    Total_Person_Hours s0 = sum (map total_person_hours fs) /\
    Total_Person_Hours s1 <= Total_Person_Hours s0 /\
    Total_Person_Hours s2 <= Total_Person_Hours s0 /\
    Total_Person_Hours s5 = Total_Person_Hours s0 /\
    Daily_Op_Cost s1 = Daily_Op_Cost s0 /\
    Daily_Op_Cost s2 = Daily_Op_Cost s0 /\
    Daily_Op_Cost s5 = Daily_Op_Cost s0 /\
    (Forall (fun f => Forall (fun u => 0 <= u) (hourly_usage f)) fs ->
     Total_Person_Hours s0 <= Total_Person_Hours s3 /\
     Total_Person_Hours s4 <= Total_Person_Hours s0).
Proof.
  unfold run_optimizations. intros H.
  apply bind_ok in H as (s0 & E0 & H).
  cbn [for_each] in H.
  apply bind_ok in H as (redis & Er & H).
  apply bind_ok in Er as (s1 & E1 & Er).
  apply bind_ok in E1 as (fs1 & F1 & E1).
  apply bind_ok in Er as (r2 & Er & Er').
  apply bind_ok in Er as (s2 & E2 & Er).
  apply bind_ok in E2 as (fs2 & F2 & E2).
  injection Er as <-. injection Er' as <-.
  apply bind_ok in H as (fs3 & F3 & H). apply bind_ok in H as (s3 & E3 & H).
  apply bind_ok in H as (fs4 & F4 & H). apply bind_ok in H as (s4 & E4 & H).
  apply bind_ok in H as (fs5 & F5 & H). apply bind_ok in H as (s5 & E5 & H).
  apply bind_ok in H as (fs6 & F6 & H). apply bind_ok in H as (s6 & E6 & H).
  injection H as <-.
  exists s0, s1, s2, s3, s4, s5, s6. split; [reflexivity|].
  apply aggregate_totals in E0 as (N0 & T0 & C0).
  apply aggregate_totals in E1 as (N1 & T1 & C1).
  apply aggregate_totals in E2 as (N2 & T2 & C2).
  apply aggregate_totals in E3 as (N3 & T3 & C3).
  apply aggregate_totals in E4 as (N4 & T4 & C4).
  apply aggregate_totals in E5 as (N5 & T5 & C5).
  apply aggregate_totals in E6 as (N6 & T6 & C6).
  apply for_each_Forall2 in F1, F2, F3, F4, F5.
  split.
  { cbn [map app]. injection N0 as <-. injection N3 as <-. injection N4 as <-.
    injection N5 as <-. injection N6 as <-.
    change (redistribute_name 0.70) with (Ok "Redistribute (cap 70%)"%string) in N1.
    change (redistribute_name 0.60) with (Ok "Redistribute (cap 60%)"%string) in N2.
    injection N1 as <-. injection N2 as <-. reflexivity. }
  rewrite T0, T1, T2, T3, T4, T5.
  split; [reflexivity|].
  split; [apply sum_map_le; eapply Forall2_frame; [|exact F1];
          intros f f' Hf; apply (redistributed_frame _ _ _ Hf)|].
  split; [apply sum_map_le; eapply Forall2_frame; [|exact F2];
          intros f f' Hf; apply (redistributed_frame _ _ _ Hf)|].
  split.
  { apply Z.le_antisymm; apply sum_map_le.
    - eapply Forall2_frame; [|exact F5]. intros f f' Hf.
      apply resized_frame in Hf as [-> _]. lia.
    - apply Forall2_flip. eapply Forall2_frame; [|exact F5]. intros f f' Hf.
      apply resized_frame in Hf as [-> _]. lia. }
  assert (Hc : forall fs' s', sum_costs fs' (Int 0) = Ok (Daily_Op_Cost s') ->
             Forall2 (fun f f' => daily_operating_cost f' = daily_operating_cost f) fs fs' ->
             Daily_Op_Cost s' = Daily_Op_Cost s0).
  { intros fs' s' Hs' Hf. rewrite (sum_costs_ext fs fs' _ Hf) in Hs'. congruence. }
  split; [apply (Hc fs1 s1 C1); eapply Forall2_frame; [|exact F1];
          intros f f' Hf; apply (redistributed_frame _ _ _ Hf)|].
  split; [apply (Hc fs2 s2 C2); eapply Forall2_frame; [|exact F2];
          intros f f' Hf; apply (redistributed_frame _ _ _ Hf)|].
  split; [apply (Hc fs5 s5 C5); eapply Forall2_frame; [|exact F5];
          intros f f' Hf; apply (resized_frame _ _ Hf)|].
  intros Hnn. split.
  - apply sum_map_le. apply Forall2_flip.
    apply (Forall2_frame_in _ _ _ _ _ (fun f f' Hq Hf => extended_frame f f' Hq Hf) Hnn F3).
  - apply sum_map_le.
    apply (Forall2_frame_in _ _ _ _ _ (fun f f' Hq Hf => trimmed_frame f f' Hq Hf) Hnn F4).
Qed.


Lemma scenario_table_witness :
  exists l s0 s1,
    run_optimizations build_dataset = Ok l /\
    nth_error l 0 = Some s0 /\ nth_error l 1 = Some s1 /\
    Total_Person_Hours s1 <= Total_Person_Hours s0.
Proof.
  destruct run_optimizations_dataset as (l & E & _).
  destruct (scenario_table build_dataset l E)
    as (s0 & s1 & s2 & s3 & s4 & s5 & s6 & El & _ & _ & H1 & _).
  exists l, s0, s1. subst l. split; [exact E|]. repeat split. exact H1.
Defined.


End ScenarioTable.

(* ===================================================================== *)
(** * The facility report: lookups *)
(* ===================================================================== *)

Module FacilityReportFacts.
Import Facility FacilityFacts PyText FacilityReport.

(** X17.  On the facility generator's output the report's lookups never
    fail: the base case is the first scenario, the one whose name contains
    "Combined" is the seventh, and the idle reduction is the difference of
    their idle hours. *)
Theorem facility_combined_lookup (fs : list Facility) (l : list Scenario) :
  run_optimizations fs = Ok l ->
  exists b c,
    nth_error l 0 = Some b /\ nth_error l 6 = Some c /\
    base_case l = Ok b /\ combined_scenario l = Ok c /\
    idle_reduction l = Ok (Idle_Hours_total b - Idle_Hours_total c).
Proof.
  intros H.
  destruct (ScenarioTable.run_optimizations_names fs l H)
    as (s0 & s1 & s2 & s3 & s4 & s5 & s6 & -> & Hn).
  cbn [map] in Hn. injection Hn as N0 N1 N2 N3 N4 N5 N6.
  exists s0, s6. split; [reflexivity|]. split; [reflexivity|].
  split; [reflexivity|].
  assert (E : combined_scenario [s0; s1; s2; s3; s4; s5; s6] = Ok s6).
  { unfold combined_scenario. cbn [filter].
    rewrite N0, N1, N2, N3, N4, N5, N6. reflexivity. }
  split; [exact E|]. unfold idle_reduction. rewrite E. reflexivity.
Qed.

Lemma facility_combined_lookup_witness :
  exists l b c,
    Facility.run_optimizations build_dataset = Ok l /\
    base_case l = Ok b /\ combined_scenario l = Ok c /\
    Scenario_name c = "Combined Optimized"%string.
Proof.
  destruct run_optimizations_dataset as (l & E & _).
  destruct (facility_combined_lookup build_dataset l E)
    as (b & c & _ & H6 & Hb & Hc & _).
  exists l, b, c. split; [exact E|]. split; [exact Hb|]. split; [exact Hc|].
  destruct (ScenarioTable.run_optimizations_names _ _ E)
    as (s0 & s1 & s2 & s3 & s4 & s5 & s6 & -> & Hn).
  cbn [nth_error] in H6. injection H6 as <-.
  cbn [map] in Hn. injection Hn as _ _ _ _ _ _ N6. exact N6.
Defined.

(** X18.  The insights text needs a facility named "Auditorium": without
    one the lookup raises [IndexError]; otherwise it reads the average
    utilization of the first facility of that name. *)
Theorem auditorium_utilization_lookup (facilities : list Facility) :
  (Forall (fun f => name f <> "Auditorium"%string) facilities ->
   auditorium_utilization facilities = Raise IndexError) /\
  (forall before f after,
     facilities = before ++ f :: after ->
     Forall (fun g => name g <> "Auditorium"%string) before ->
     name f = "Auditorium"%string ->
     auditorium_utilization facilities = avg_utilization_pct f).
Proof.
  assert (Hnone : forall l, Forall (fun f => name f <> "Auditorium"%string) l ->
            filter (fun f => String.eqb (name f) "Auditorium") l = []).
  { induction 1 as [|f l Hf _ IH]; [reflexivity|]. cbn [filter].
    destruct (String.eqb_spec (name f) "Auditorium"); [contradiction | exact IH]. }
  unfold auditorium_utilization. split.
  - intros H. now rewrite Hnone.
  - intros before f after -> Hb Hf.
    rewrite filter_app, (Hnone before Hb). cbn [app filter].
    rewrite Hf. reflexivity.
Qed.

Lemma auditorium_utilization_lookup_witness :
  auditorium_utilization [gymnasium] = Raise IndexError /\
  auditorium_utilization build_dataset
    = avg_utilization_pct FacilityLists.auditorium.
Proof.
  split.
  - apply (proj1 (auditorium_utilization_lookup [gymnasium])).
    repeat constructor. discriminate.
  - apply (proj2 (auditorium_utilization_lookup build_dataset)
             (firstn 5 build_dataset) FacilityLists.auditorium
             (skipn 6 build_dataset)).
    + reflexivity.
    + repeat constructor; discriminate.
    + reflexivity.
Defined.

(** ** [max] with a key *)

Section MaxByKey.
Variable key : Facility -> result Z.

Definition below (k : Z) (f : Facility) : Prop :=
  exists k', key f = Ok k' /\ k' < k.

Definition at_most (k : Z) (f : Facility) : Prop :=
  exists k', key f = Ok k' /\ k' <= k.

Lemma max_loop_spec (rest : list Facility) :
  forall (pre post : list Facility) (maxitem : Facility) (maxval : Z) (m : Facility),
  key maxitem = Ok maxval ->
  Forall (below maxval) pre -> Forall (at_most maxval) post ->
  max_loop key rest maxitem maxval = Ok m ->
  exists before after k,
    pre ++ maxitem :: post ++ rest = before ++ m :: after /\
    key m = Ok k /\ Forall (below k) before /\ Forall (at_most k) after.
Proof.
  induction rest as [|item rest IH]; intros pre post maxitem maxval m Hk Hpre Hpost;
    cbn [max_loop].
  - intros [= <-]. exists pre, post, maxval. rewrite app_nil_r. auto.
  - destruct (key item) as [val|] eqn:Ei; [|discriminate]. cbn [bind].
    destruct (Z.gtb_spec val maxval) as [Hgt|Hle].
    + intros H.
      destruct (IH (pre ++ maxitem :: post) [] item val m Ei) as (b & a & k & E & H');
        [| constructor | exact H |].
      * apply Forall_app. split.
        -- eapply Forall_impl; [|exact Hpre]. intros g (k' & ? & ?). exists k'. split; [assumption | lia].
        -- constructor; [exists maxval; split; [assumption | lia]|].
           eapply Forall_impl; [|exact Hpost]. intros g (k' & ? & ?). exists k'. split; [assumption | lia].
      * exists b, a, k. split; [|exact H'].
        rewrite <- E. cbn [app]. rewrite <- !app_assoc. reflexivity.
    + intros H.
      destruct (IH pre (post ++ [item]) maxitem maxval m Hk Hpre) as (b & a & k & E & H');
        [| exact H |].
      * apply Forall_app. split; [assumption|]. constructor; [|constructor].
        exists val. split; [assumption | lia].
      * exists b, a, k. split; [|exact H'].
        rewrite <- E. rewrite <- !app_assoc. reflexivity.
Qed.

Lemma max_loop_total (rest : list Facility) :
  forall maxitem maxval,
  Forall (fun f => exists k, key f = Ok k) rest ->
  exists m, max_loop key rest maxitem maxval = Ok m.
Proof.
  induction rest as [|item rest IH]; intros maxitem maxval H; cbn [max_loop]; [eauto|].
  inversion H as [|? ? Hk Hr]; subst. destruct Hk as (k & ->). cbn [bind].
  destruct (k >? maxval); apply IH; assumption.
Qed.

Lemma py_max_spec (items : list Facility) :
  (items = [] -> py_max key items = Raise ValueError) /\
  (items <> [] -> Forall (fun f => exists k, key f = Ok k) items ->
   exists m, py_max key items = Ok m) /\
  (forall m, py_max key items = Ok m ->
     exists before after k,
       items = before ++ m :: after /\ key m = Ok k /\
       Forall (below k) before /\ Forall (at_most k) after).
Proof.
  split; [intros ->; reflexivity|]. split.
  - destruct items as [|first rest]; [congruence|]. intros _ H.
    inversion H as [|? ? (k & Hk) Hr]; subst. cbn [py_max]. rewrite Hk. cbn [bind].
    now apply max_loop_total.
  - intros m. destruct items as [|first rest]; [discriminate|]. cbn [py_max].
    destruct (key first) as [v|] eqn:Ef; [|discriminate]. cbn [bind]. intros H.
    apply (max_loop_spec rest [] [] first v m Ef); auto.
Qed.

End MaxByKey.

(** X19.  [most_idle] fails with [ValueError] on an empty collection and
    otherwise returns the first facility with the greatest number of idle
    hours. *)
Theorem most_idle_spec (facilities : list Facility) :
  (facilities = [] -> most_idle facilities = Raise ValueError) /\
  (facilities <> [] ->
   Forall (fun f => 0 <= max_capacity f < 2 ^ 1023) facilities ->
   exists m, most_idle facilities = Ok m) /\
  (forall m, most_idle facilities = Ok m ->
     exists before after k,
       facilities = before ++ m :: after /\ idle_hours m = Ok k /\
       Forall (fun f => exists k', idle_hours f = Ok k' /\ k' < k) before /\
       Forall (fun f => exists k', idle_hours f = Ok k' /\ k' <= k) after).
Proof.
  destruct (py_max_spec idle_hours facilities) as (H1 & H2 & H3).
  split; [exact H1|]. split; [|exact H3].
  intros Hne Hc. apply H2; [assumption|].
  eapply Forall_impl; [|exact Hc]. cbv beta. intros f Hf.
  unfold idle_hours, int_mul_float.
  destruct (Binary64.float_of_int_ok (max_capacity f) ltac:(lia)) as (x & ->).
  cbn [bind]. eauto.
Qed.

Lemma most_idle_spec_witness :
  most_idle [] = Raise ValueError /\
  exists m, most_idle build_dataset = Ok m /\ name m = "Auditorium"%string.
Proof.
  split.
  - apply (proj1 (most_idle_spec [])). reflexivity.
  - destruct (proj1 (proj2 (most_idle_spec build_dataset))) as (m & Hm).
    + discriminate.
    + repeat constructor; cbv; congruence.
    + exists m. split; [exact Hm|].
      assert (E := Hm). vm_compute in E. injection E as <-. reflexivity.
Defined.

(** X20.  [most_crowded] fails with [ValueError] on an empty collection and
    otherwise returns the first facility with the greatest number of
    overcrowded hours. *)
Theorem most_crowded_spec (facilities : list Facility) :
  (facilities = [] -> most_crowded facilities = Raise ValueError) /\
  (facilities <> [] ->
   Forall (fun f => 0 <= max_capacity f < 2 ^ 1023) facilities ->
   exists m, most_crowded facilities = Ok m) /\
  (forall m, most_crowded facilities = Ok m ->
     exists before after k,
       facilities = before ++ m :: after /\ overcrowded_hours m = Ok k /\
       Forall (fun f => exists k', overcrowded_hours f = Ok k' /\ k' < k) before /\
       Forall (fun f => exists k', overcrowded_hours f = Ok k' /\ k' <= k) after).
Proof.
  destruct (py_max_spec overcrowded_hours facilities) as (H1 & H2 & H3).
  split; [exact H1|]. split; [|exact H3].
  intros Hne Hc. apply H2; [assumption|].
  eapply Forall_impl; [|exact Hc]. cbv beta. intros f Hf.
  unfold overcrowded_hours, int_mul_float.
  destruct (Binary64.float_of_int_ok (max_capacity f) ltac:(lia)) as (x & ->).
  cbn [bind]. eauto.
Qed.

Lemma most_crowded_spec_witness :
  most_crowded [] = Raise ValueError /\
  exists m, most_crowded build_dataset = Ok m /\
            name m = "Computer Lab A"%string.
Proof.
  split.
  - apply (proj1 (most_crowded_spec [])). reflexivity.
  - destruct (proj1 (proj2 (most_crowded_spec build_dataset))) as (m & Hm).
    + discriminate.
    + repeat constructor; cbv; congruence.
    + exists m. split; [exact Hm|].
      assert (E := Hm). vm_compute in E. injection E as <-. reflexivity.
Defined.

End FacilityReportFacts.

(* ===================================================================== *)
(** * The mess model: the scenario list *)
(* ===================================================================== *)

Module MessScenarios.
Import Mess MessFacts.

(** X21.  The combined scenario is the composition of three single-lever
    variants (efficiency 5, fee + 200, wastage - 10) taken in any order: the
    levers override disjoint fields, and the literal factor 0.95 is the float
    [1 - 5 / 100] of the efficiency loop. *)
Theorem combined_variant_composes (base : MessAssumptions) :
  let eff m := efficiency_variant m 5 in
  let fee m := pricing_variant m 200 in
  let wst m := wastage_variant m 10 in
  combined_variant base = (m1 <- eff base ;; m2 <- fee m1 ;; wst m2) /\
  combined_variant base = (m1 <- eff base ;; m2 <- wst m1 ;; fee m2) /\
  combined_variant base = (m1 <- fee base ;; m2 <- eff m1 ;; wst m2) /\
  combined_variant base = (m1 <- fee base ;; m2 <- wst m1 ;; eff m2) /\
  combined_variant base = (m1 <- wst base ;; m2 <- eff m1 ;; fee m2) /\
  combined_variant base = (m1 <- wst base ;; m2 <- fee m1 ;; eff m2).
Proof.
  intros eff fee wst. unfold eff, fee, wst.
  repeat split.
Qed.

(** The names of the eleven scenarios. *)
Lemma scenario_names (base : MessAssumptions) (l : list Scenario) :
  run_optimizations base = Ok l ->
  map Scenario_name l =
    ["Base Case (Current)"; "Wastage Reduced by 5pp"; "Wastage Reduced by 10pp";
     "Wastage Reduced by 15pp"; "Operational Efficiency +2%";
     "Operational Efficiency +5%"; "Operational Efficiency +8%";
     "Fee Increase ₹100/mo"; "Fee Increase ₹200/mo"; "Fee Increase ₹300/mo";
     "Combined Optimized Scenario"]%string.
Proof.
  rewrite run_optimizations_eq, variants_eq. unfold snapshot_of, deriveMessMetrics.
  cbn [for_each combine fst snd bind reset_days with_wastage with_fee with_efficiency
       total_students days_in_month].
  destruct (float_of_int (total_students base)) as [s|]; [|discriminate].
  change (float_of_int default_days_in_month) with (Ok 30%float).
  destruct (float_of_int (days_in_month base)) as [d|] eqn:Ed; [|discriminate].
  cbn [bind]. intros [= <-]. reflexivity.
Qed.

(** X22.  What the variant scenarios share with the base case: the
    wastage and efficiency scenarios keep its revenue, the wastage and fee
    scenarios keep its fixed costs, and for a 30-day base the fee scenarios
    keep its variable and total costs. *)
Theorem scenario_frame (base : MessAssumptions) (l : list Scenario) :
  run_optimizations base = Ok l ->
  List.length l = 11%nat /\
  map Scenario_name l =
    ["Base Case (Current)"; "Wastage Reduced by 5pp"; "Wastage Reduced by 10pp";
     "Wastage Reduced by 15pp"; "Operational Efficiency +2%";
     "Operational Efficiency +5%"; "Operational Efficiency +8%";
     "Fee Increase ₹100/mo"; "Fee Increase ₹200/mo"; "Fee Increase ₹300/mo";
     "Combined Optimized Scenario"]%string /\
  (forall i s0 s, nth_error l 0 = Some s0 -> nth_error l i = Some s ->
     (1 <= i <= 6)%nat -> Revenue s = Revenue s0) /\
  (forall i s0 s, nth_error l 0 = Some s0 -> nth_error l i = Some s ->
     (1 <= i <= 3 \/ 7 <= i <= 9)%nat -> Fixed_Costs s = Fixed_Costs s0) /\
  (days_in_month base = 30 ->
   forall i s0 s, nth_error l 0 = Some s0 -> nth_error l i = Some s ->
     (7 <= i <= 9)%nat ->
     Variable_Costs s = Variable_Costs s0 /\ Total_Cost s = Total_Cost s0).
Proof.
  rewrite run_optimizations_eq, variants_eq. unfold snapshot_of, deriveMessMetrics.
  cbn [for_each combine fst snd bind reset_days with_wastage with_fee with_efficiency
       total_students days_in_month].
  destruct (float_of_int (total_students base)) as [s|]; [|discriminate].
  change (float_of_int default_days_in_month) with (Ok 30%float).
  destruct (float_of_int (days_in_month base)) as [d|] eqn:Ed; [|discriminate].
  cbn [bind]. intros [= <-].
  split; [reflexivity|]. split; [reflexivity|]. split; [|split].
  - intros i s0 s' [= <-] Hs Hi.
    do 7 (destruct i as [|i]; [try lia; injection Hs as <-; reflexivity|]). lia.
  - intros i s0 s' [= <-] Hs Hi.
    do 10 (destruct i as [|i]; [try lia; injection Hs as <-; reflexivity|]). lia.
  - intros E. rewrite E in Ed. injection Ed as <-.
    intros i s0 s' [= <-] Hs Hi.
    do 10 (destruct i as [|i]; [try lia; injection Hs as <-; split; reflexivity|]). lia.
Qed.

Lemma scenario_frame_witness :
  exists l s0 s8,
    run_optimizations defaults = Ok l /\
    nth_error l 0 = Some s0 /\ nth_error l 8 = Some s8 /\
    Total_Cost s8 = Total_Cost s0.
Proof.
  destruct (run_optimizations_ok defaults) as (l & E & _);
    [vm_compute; reflexivity | vm_compute; reflexivity |].
  destruct (scenario_frame defaults l E) as (Hlen & _ & _ & _ & H30).
  do 9 (destruct l as [|? l]; [discriminate|]).
  do 3 eexists. split; [exact E|]. split; [reflexivity|]. split; [reflexivity|].
  apply (proj2 (H30 eq_refl 8%nat _ _ eq_refl eq_refl ltac:(lia))).
Defined.

End MessScenarios.

(* ===================================================================== *)
(** * The mess report: rows, break-even and lookups *)
(* ===================================================================== *)

Module MessReportFacts.
Import Mess MessFacts PyText MessReport.

(** X23.  The report's lookups of the base case and of the combined
    scenario never fail on the generator's output: they are its first and
    its eleventh scenario, and the improvement is the difference of their
    profits. *)
Theorem combined_lookup (base : MessAssumptions) (l : list Scenario) :
  run_optimizations base = Ok l ->
  exists b c,
    nth_error l 0 = Some b /\ nth_error l 10 = Some c /\
    base_case l = Ok b /\ combined_scenario l = Ok c /\
    improvement l = Ok (Profit c - Profit b)%float.
Proof.
  intros H. pose proof (MessScenarios.scenario_names base l H) as Hn.
  do 11 (destruct l as [|? l]; [discriminate|]). destruct l; [|discriminate].
  cbn [map] in Hn. injection Hn as N0 N1 N2 N3 N4 N5 N6 N7 N8 N9 N10.
  do 2 eexists. split; [reflexivity|]. split; [reflexivity|].
  split; [reflexivity|].
  assert (E : combined_scenario [s; s0; s1; s2; s3; s4; s5; s6; s7; s8; s9] = Ok s9).
  { unfold combined_scenario. cbn [filter].
    rewrite N0, N1, N2, N3, N4, N5, N6, N7, N8, N9, N10. reflexivity. }
  split; [exact E|]. unfold improvement. rewrite E. reflexivity.
Qed.

Lemma combined_lookup_witness :
  exists l b c,
    run_optimizations defaults = Ok l /\
    base_case l = Ok b /\ combined_scenario l = Ok c /\
    improvement l = Ok (Profit c - Profit b)%float.
Proof.
  destruct (run_optimizations_ok defaults) as (l & E & _);
    [vm_compute; reflexivity | vm_compute; reflexivity |].
  destruct (combined_lookup defaults l E) as (b & c & _ & _ & Hb & Hc & Hi).
  exists l, b, c. auto.
Defined.

(** X24.  The profit and loss rows divide by the revenue without the guard
    of [profit_margin]: with a zero revenue they raise [ZeroDivisionError]
    although the margin itself is 0; with a non-zero revenue all 23 rows are
    built. *)
Theorem financial_model_rows_need_revenue (base : MessAssumptions) (r : float) :
  total_revenue base = Ok r -> Z.abs (days_in_month base) < 2 ^ 1023 ->
  ((r =? 0)%float = true ->
     profit_margin base = Ok (Int 0) /\
     financial_model_rows base = Raise ZeroDivisionError) /\
  (float_truthy r = true ->
     exists l, financial_model_rows base = Ok l /\ List.length l = 23%nat).
Proof.
  intros Hr Hd.
  destruct (total_revenue_ok base r Hr) as (s & Es & Er).
  destruct (Binary64.float_of_int_ok _ Hd) as (d & Ed).
  unfold financial_model_rows, amount_row, pct_of_revenue, profit_margin.
  rewrite Hr. cbn [bind].
  unfold profit, total_cost, total_fixed_costs, total_variable_costs,
    monthly_wastage_cost, monthly_raw_food_cost, total_revenue,
    int_mul_float, float_mul_int, float_div_int.
  rewrite Es, Ed. change (float_of_int 100) with (Ok 100%float).
  cbn [bind]. rewrite <- Er. split.
  - intros Z. split.
    + unfold float_truthy. rewrite Z. reflexivity.
    + rewrite (float_truediv_truthy _ 100%float eq_refl). cbn [bind].
      unfold float_truediv at 1. rewrite Z. reflexivity.
  - intros T. rewrite T. cbn [bind].
    repeat (rewrite float_truediv_truthy by (exact T || reflexivity);
            cbn [bind format_2f]).
    eexists. split; reflexivity.
Qed.

Lemma financial_model_rows_need_revenue_witness :
  financial_model_rows MessFacts.empty_mess = Raise ZeroDivisionError /\
  exists l, financial_model_rows defaults = Ok l /\ List.length l = 23%nat.
Proof.
  split.
  - apply (proj1 (financial_model_rows_need_revenue empty_mess 0%float
                    ltac:(reflexivity) ltac:(reflexivity))). reflexivity.
  - apply (proj2 (financial_model_rows_need_revenue defaults 2925000%float
                    ltac:(reflexivity) ltac:(reflexivity))). reflexivity.
Defined.

(** X25.  The break-even figure divides the total cost by the fee unguarded;
    when it is defined (for a non-negative finite quotient) it is the least
    int strictly above the quotient. *)
Theorem break_even_students_spec (base : MessAssumptions) (c : float) :
  total_cost base = Ok c ->
  ((monthly_fee_per_student base =? 0)%float = true ->
     break_even_students base = Raise ZeroDivisionError) /\
  (float_truthy (monthly_fee_per_student base) = true ->
   Binary64.finite_nonneg (Prim2SF (c / monthly_fee_per_student base)%float) ->
   exists n, break_even_students base = Ok n /\ 1 <= n /\
             int_le_float (n - 1) (c / monthly_fee_per_student base)%float = true /\
             int_gt_float n (c / monthly_fee_per_student base)%float = true).
Proof.
  intros Hc. unfold break_even_students. rewrite Hc. cbn [bind]. split.
  - intros Z. unfold float_truediv. rewrite Z. reflexivity.
  - intros T Hfin. rewrite (float_truediv_truthy _ _ T). cbn [bind].
    assert (Hn : exists n, int_of_float (c / monthly_fee_per_student base)%float = Ok n)
      by (unfold int_of_float; inversion Hfin as [s Hs|m e Hs]; eauto).
    destruct Hn as (n & Hn). rewrite Hn. cbn [bind].
    destruct (Binary64.int_of_float_floor _ n Hfin Hn) as (H0 & Hle & Hgt).
    exists (n + 1). split; [reflexivity|]. split; [lia|].
    replace (n + 1 - 1) with n by lia. auto.
Qed.

Lemma break_even_students_spec_witness :
  break_even_students defaults = Ok 536 /\
  break_even_students (with_fee 0 defaults) = Raise ZeroDivisionError.
Proof.
  split.
  - destruct (proj2 (break_even_students_spec defaults 2410600%float
                       ltac:(reflexivity)) ltac:(reflexivity))
      as (n & Hn & _).
    + vm_compute. constructor.
    + rewrite Hn. assert (E := Hn). vm_compute in E. injection E as <-. reflexivity.
  - apply (proj1 (break_even_students_spec (with_fee 0 defaults) 2410600%float
                    ltac:(reflexivity))). reflexivity.
Defined.

End MessReportFacts.
